(** * The pi-platform payment gateway

    A shallow embedding of [supabase/functions/pi-platform/index.ts]: the
    response normaliser ([parseJson], [getPiErrorMessage]), the A2U settlement
    submitter ([submitA2UTx]) and the request handler passed to [serve].

    The handler talks to three collaborators (the session service, the Pi
    platform REST API and the ledger).  They are gathered in a [World]; every
    call the handler makes is recorded, with what it got back, in a trace of
    [Event]s, which is what the statements about "no call is made" and
    "called only after" speak about. *)

From Stdlib Require Import String Ascii List Bool ZArith QArith Lia DecimalString.
Import ListNotations.
Local Open Scope list_scope.
Local Open Scope string_scope.

(** ** JavaScript values *)

Module Js.

(** A JavaScript number: the three non-finite values, or a finite one.  The
    gateway never computes with numbers, it only tests them, so a finite
    number is kept as the rational it denotes. *)
Inductive number : Type :=
| NaN
| Infinity (negative : bool)
| Finite (q : Q).

(** The values the gateway handles: what [JSON.parse] produces, and
    [undefined] for an absent property. *)
#[warnings="-register-all"]
Inductive value : Type :=
| JUndefined
| JNull
| JBool (b : bool)
| JNum (n : number)
| JStr (s : string)
| JArr (items : list value)
| JObj (fields : list (string * value)).

(** What a [throw] carries: an [Error] with its message, or something that
    is not an [Error]. *)
Inductive thrown : Type :=
| JsError (message : string)
| NotAnError.

(** A computation that returns or throws. *)
Definition exc (A : Type) : Type := (thrown + A)%type.

Definition num_of_Z (z : Z) : number := Finite (inject_Z z).

(** [Number.isFinite]. *)
Definition Number_isFinite (n : number) : bool :=
  match n with Finite _ => true | _ => false end.

(** [n <= 0]; every comparison with [NaN] is false. *)
Definition num_le_zero (n : number) : bool :=
  match n with
  | NaN => false
  | Infinity negative => negative
  | Finite q => Qle_bool q 0
  end.

(** Strings are kept as the bytes of their UTF-8 encoding, so a character
    of the string is one byte or a lead byte with its continuation bytes
    (the bytes 128 to 191). *)
Definition is_continuation (c : ascii) : bool :=
  let n := N_of_ascii c in ((128 <=? n) && (n <=? 191))%N.

Fixpoint characters (s : string) : list string :=
  match s with
  | EmptyString => []
  | String c s' =>
      match characters s' with
      | String c' k :: rest =>
          if is_continuation c' then String c (String c' k) :: rest
          else String c "" :: String c' k :: rest
      | rest => String c "" :: rest
      end
  end.

Definition utf8_2 (a b : ascii) : string := String a (String b "").
Definition utf8_3 (a b c : ascii) : string := String a (String b (String c "")).

(** The white space and the line terminators of ECMAScript, which
    [String.prototype.trim] removes: TAB, LF, VT, FF, CR, SPACE, U+00A0,
    U+1680, U+2000 to U+200A, U+2028, U+2029, U+202F, U+205F, U+3000 and
    U+FEFF. *)
Definition WhiteSpace : list string :=
  [String "009" ""; String "010" ""; String "011" ""; String "012" ""; String "013" "";
   String " " "";
   utf8_2 "194" "160";
   utf8_3 "225" "154" "128";
   utf8_3 "226" "128" "128"; utf8_3 "226" "128" "129"; utf8_3 "226" "128" "130";
   utf8_3 "226" "128" "131"; utf8_3 "226" "128" "132"; utf8_3 "226" "128" "133";
   utf8_3 "226" "128" "134"; utf8_3 "226" "128" "135"; utf8_3 "226" "128" "136";
   utf8_3 "226" "128" "137"; utf8_3 "226" "128" "138";
   utf8_3 "226" "128" "168"; utf8_3 "226" "128" "169"; utf8_3 "226" "128" "175";
   utf8_3 "226" "129" "159";
   utf8_3 "227" "128" "128";
   utf8_3 "239" "187" "191"].

Definition is_space (c : string) : bool := existsb (String.eqb c) WhiteSpace.

Fixpoint dropSpaces (cs : list string) : list string :=
  match cs with
  | c :: rest => if is_space c then dropSpaces rest else cs
  | [] => []
  end.

(** [s.trimStart()], [s.trimEnd()] and [s.trim()]. *)
Definition trimStart (s : string) : string :=
  String.concat "" (dropSpaces (characters s)).

Definition trimEnd (s : string) : string :=
  String.concat "" (rev (dropSpaces (rev (characters s)))).

Definition trim (s : string) : string :=
  String.concat "" (rev (dropSpaces (rev (dropSpaces (characters s))))).

(** [s.startsWith(p)]. *)
Fixpoint startsWith (p s : string) : bool :=
  match p, s with
  | EmptyString, _ => true
  | String a p', String b s' => Ascii.eqb a b && startsWith p' s'
  | String _ _, EmptyString => false
  end.

Fixpoint drop (n : nat) (s : string) : string :=
  match n, s with
  | O, _ => s
  | S n', String _ s' => drop n' s'
  | S _, EmptyString => EmptyString
  end.

(** [s.replace(pat, rep)] for a string pattern: the first occurrence only. *)
Fixpoint replace (pat rep s : string) : string :=
  if startsWith pat s then rep ++ drop (String.length pat) s
  else match s with
       | EmptyString => EmptyString
       | String c s' => String c (replace pat rep s')
       end.

(** Truthiness, as [!v], [v || w] and [if (v)] see it. *)
Definition truthy (v : value) : bool :=
  match v with
  | JUndefined | JNull => false
  | JBool b => b
  | JNum NaN => false
  | JNum (Infinity _) => true
  | JNum (Finite q) => negb (Qeq_bool q 0)
  | JStr s => negb (s =? "")
  | JArr _ | JObj _ => true
  end.

(** [v || w]. *)
Definition or_else (v w : value) : value := if truthy v then v else w.

Definition typeof (v : value) : string :=
  match v with
  | JUndefined => "undefined"
  | JNull | JArr _ | JObj _ => "object"
  | JBool _ => "boolean"
  | JNum _ => "number"
  | JStr _ => "string"
  end.

Definition Array_isArray (v : value) : bool :=
  match v with JArr _ => true | _ => false end.

(** [v === s] for a string literal [s]. *)
Definition is_str (v : value) (s : string) : bool :=
  match v with JStr s' => s' =? s | _ => false end.

(** The string inside a value known to be a string. *)
Definition str_of (v : value) : string :=
  match v with JStr s => s | _ => "" end.

Fixpoint assoc (k : string) (fs : list (string * value)) : value :=
  match fs with
  | [] => JUndefined
  | (k', v) :: rest => if k =? k' then v else assoc k rest
  end.

(** [v.k] on a value that is neither [null] nor [undefined].  The property
    names the gateway reads are no built-in property of a string, a number,
    a boolean or an array, so only objects answer. *)
Definition field (v : value) (k : string) : value :=
  match v with
  | JObj fs => assoc k fs
  | _ => JUndefined
  end.

Definition nullish (v : value) : bool :=
  match v with JUndefined | JNull => true | _ => false end.

(** [v.k]: a [TypeError] on [null] and [undefined]. *)
Definition prop (v : value) (k : string) : exc value :=
  if nullish v
  then inl (JsError ("Cannot read properties of "
                     ++ (match v with JNull => "null" | _ => "undefined" end)
                     ++ " (reading '" ++ k ++ "')"))
  else inr (field v k).

(** [v?.k]. *)
Definition opt_prop (v : value) (k : string) : value :=
  if nullish v then JUndefined else field v k.

End Js.
Export Js.

(** ** The collaborators and the trace of calls *)

(** What [jsonResponse] and the pre-flight answer hand back.  A JSON body is
    kept as the value given to [JSON.stringify]. *)
Inductive ResponseBody : Type :=
| TextBody (text : string)
| JsonBody (json : value).

Record Response : Type := {
  status : Z;
  headers : list (string * string);
  body : ResponseBody
}.

(** The inbound request: its method, its [Authorization] header, and what
    [req.json()] resolves to (or rejects with). *)
Record Request : Type := {
  req_method : string;
  req_authorization : option string;
  req_json : exc value
}.

(** A call to [fetch]; the body is the value given to [JSON.stringify]. *)
Record FetchReq : Type := {
  fr_url : string;
  fr_method : string;
  fr_headers : list (string * string);
  fr_body : option value
}.

(** [fetch] resolves to a response (status and body text) or rejects. *)
Inductive FetchOutcome : Type :=
| Responded (st : Z) (text : string)
| Rejected (t : thrown).

(** [supabase.auth.getUser(token)] resolves to [{ data: { user }, error }];
    verification failures are reported in [error], not thrown. *)
Record AuthResult : Type := {
  auth_user : option string;
  auth_error : option string
}.

(** The ledger account [loadAccount] returns. *)
Record Account : Type := {
  account_id : string;
  sequence : string
}.

(** The transaction [submitA2UTx] builds: one native-asset payment with a
    text memo. *)
Record Transaction : Type := {
  tx_source : Account;
  tx_fee : string;
  tx_networkPassphrase : string;
  tx_memo : string;
  tx_destination : string;
  tx_amount : string;
  tx_timeout : Z
}.

Inductive Event : Type :=
| EvGetUser (token : string) (res : AuthResult)
| EvFetch (rq : FetchReq) (out : FetchOutcome)
| EvLoadAccount (horizon address : string) (out : exc Account)
| EvFetchBaseFee (horizon : string) (out : exc number)
| EvBuild (tx : Transaction)
| EvSign (tx : Transaction) (signer : string)
| EvSubmit (horizon : string) (tx : Transaction) (out : exc value).

Definition Trace : Type := list Event.

(** Everything outside the source file: the built-ins of the runtime, the
    process environment, and the collaborators, whose answers may depend on
    all that happened before (the history of events, most recent first).
    [createClient] is the constructor of the session client (lines 123-125):
    given the two variables it is built from, it returns or throws. *)
Record World : Type := {
  JSON_parse : string -> option value;
  Number_toString : number -> string;
  String_toNumber : string -> number;
  Number_toFixed : number -> nat -> string;
  Deno_env_get : string -> option string;
  createClient : option string -> option string -> exc unit;
  auth_getUser : Trace -> string -> AuthResult;
  fetch : Trace -> FetchReq -> FetchOutcome;
  Keypair_fromSecret : string -> exc string;
  Horizon_loadAccount : Trace -> string -> string -> exc Account;
  Horizon_fetchBaseFee : Trace -> string -> exc number;
  TransactionBuilder_build : Transaction -> option thrown;
  Horizon_submitTransaction : Trace -> string -> Transaction -> exc value
}.

(** ** The handler's control flow

    A step of the handler yields a value, leaves the handler with a response
    ([return jsonResponse(...)]), or throws.  It reads the history of earlier
    events (the most recent first) and reports the events it adds (in the
    order they happen). *)
Inductive outcome (A : Type) : Type :=
| Val (a : A)
| Return (r : Response)
| Throw (t : thrown).
Arguments Val {A} a.
Arguments Return {A} r.
Arguments Throw {A} t.

Definition M (A : Type) : Type := Trace -> outcome A * Trace.

Definition ret {A} (a : A) : M A := fun _ => (Val a, []).
Definition return_ {A} (r : Response) : M A := fun _ => (Return r, []).
Definition throw {A} (t : thrown) : M A := fun _ => (Throw t, []).

Definition bind {A B} (m : M A) (k : A -> M B) : M B :=
  fun h =>
    match m h with
    | (Val a, t1) => let (o, t2) := k a (rev t1 ++ h)%list in (o, (t1 ++ t2)%list)
    | (Return r, t1) => (Return r, t1)
    | (Throw t, t1) => (Throw t, t1)
    end.

(** A pure step that may throw. *)
Definition lift {A} (e : exc A) : M A :=
  match e with inl t => throw t | inr a => ret a end.

(** A call to a collaborator: ask the world, record the event. *)
Definition call {A} (ask : Trace -> A) (ev : A -> Event) : M A :=
  fun h => let a := ask h in (Val a, [ev a]).

(** A recorded step without an answer. *)
Definition emit (ev : Event) : M unit := fun _ => (Val tt, [ev]).

Declare Scope gateway_scope.
Delimit Scope gateway_scope with gateway.
Notation "x <- m ;; k" := (bind m (fun x => k))
  (at level 100, m at next level, right associativity) : gateway_scope.
Notation "m ;;; k" := (bind m (fun _ => k))
  (at level 100, right associativity) : gateway_scope.
Notation "'let!' x ':=' e 'in' k" :=
  (match e with inl t => inl t | inr x => k end)
  (at level 100, x name, e at next level, right associativity) : gateway_scope.
Local Open Scope gateway_scope.

(** ** The gateway *)

Section Gateway.

Variable W : World.

(** [String(v)].  An array joins its elements with commas, [null] and
    [undefined] elements giving the empty string.  An object is converted
    by its [toString]: the inherited one gives [[object Object]], while an
    own member of that name, which in a parsed body is never a function,
    leaves the object without a primitive value, a [TypeError]. *)
Definition no_primitive : thrown := JsError "Cannot convert object to primitive value".

Fixpoint String_ (v : value) : exc string :=
  match v with
  | JUndefined => inr "undefined"
  | JNull => inr "null"
  | JBool true => inr "true"
  | JBool false => inr "false"
  | JNum n => inr (Number_toString W n)
  | JStr s => inr s
  | JArr items =>
      (fix join (l : list value) : exc string :=
         match l with
         | [] => inr ""
         | x :: rest =>
             match (if nullish x then inr "" else String_ x) with
             | inl t => inl t
             | inr a =>
                 match rest with
                 | [] => inr a
                 | _ :: _ =>
                     match join rest with
                     | inl t => inl t
                     | inr b => inr (a ++ "," ++ b)
                     end
                 end
             end
         end) items
  | JObj fs =>
      if existsb (String.eqb "toString") (map fst fs) then inl no_primitive
      else inr "[object Object]"
  end.

(** [Number(v)]. *)
Definition Number_ (v : value) : exc number :=
  match v with
  | JUndefined => inr NaN
  | JNull => inr (num_of_Z 0)
  | JBool true => inr (num_of_Z 1)
  | JBool false => inr (num_of_Z 0)
  | JNum n => inr n
  | JStr s => inr (String_toNumber W s)
  | JArr _ | JObj _ =>
      match String_ v with
      | inl t => inl t
      | inr s => inr (String_toNumber W s)
      end
  end.

Definition corsHeaders : list (string * string) :=
  [("Access-Control-Allow-Origin", "*");
   ("Access-Control-Allow-Headers", "authorization, x-client-info, apikey, content-type")].

Definition jsonResponse (b : value) (st : Z) : Response :=
  {| status := st;
     headers := (corsHeaders ++ [("Content-Type", "application/json")])%list;
     body := JsonBody b |}.

Definition parseJson (raw : string) : value :=
  if raw =? "" then JObj []
  else match JSON_parse W raw with
       | Some v => v
       | None => JObj [("raw", JStr raw)]
       end.

(** [typeof v === "string" ? v.trim() : ""]. *)
Definition trimmed_string (v : value) : string :=
  if typeof v =? "string" then trim (str_of v) else "".

Definition getPiErrorMessage (payload : value) (fallback : string) : exc string :=
  let! e := prop payload "error" in
  let directError := trimmed_string e in
  if negb (directError =? "") then inr directError else
  let! m := prop payload "message" in
  let directMessage := trimmed_string m in
  if negb (directMessage =? "") then inr directMessage else
  let! nested := prop payload "data" in
  if truthy nested && (typeof nested =? "object") && negb (Array_isArray nested)
  then
    let! ne := prop nested "error" in
    let nestedError := trimmed_string ne in
    if negb (nestedError =? "") then inr nestedError else
    let! nm := prop nested "message" in
    let nestedMessage := trimmed_string nm in
    if negb (nestedMessage =? "") then inr nestedMessage else
    inr fallback
  else inr fallback.

Definition asRecord (v : value) : value :=
  if truthy v && (typeof v =? "object") && negb (Array_isArray v) then v else JObj [].

(** [String(v || "").trim()]. *)
Definition string_or_empty (v : value) : exc string :=
  match String_ (or_else v (JStr "")) with
  | inl t => inl t
  | inr s => inr (trim s)
  end.

(** [response.ok]. *)
Definition ok (st : Z) : bool := (200 <=? st)%Z && (st <=? 299)%Z.

(** [await fetch(...)] followed by [await response.text()]. *)
Definition do_fetch (rq : FetchReq) : M (Z * string) :=
  out <- call (fun h => fetch W h rq) (EvFetch rq) ;;
  match out with
  | Responded st text => ret (st, text)
  | Rejected t => throw t
  end.

Definition horizonUrl (networkPassphrase : string) : string :=
  if networkPassphrase =? "Pi Network"
  then "https://api.mainnet.minepi.com"
  else "https://api.testnet.minepi.com".

Definition submitA2UTx (payment : value) (walletPrivateSeed : string)
    (expectedPublicAddress : option string) : M string :=
  identifier <- lift (prop payment "identifier") ;;
  paymentId <- lift (string_or_empty identifier) ;;
  to_address <- lift (prop payment "to_address") ;;
  toAddress <- lift (string_or_empty to_address) ;;
  from_address <- lift (prop payment "from_address") ;;
  fromAddress <- lift (string_or_empty from_address) ;;
  network <- lift (prop payment "network") ;;
  network_ <- lift (string_or_empty network) ;;
  let networkPassphrase := if network_ =? "" then "Pi Testnet" else network_ in
  amount <- lift (prop payment "amount") ;;
  amountNumber <- lift (Number_ amount) ;;
  if paymentId =? ""
  then throw (JsError "Missing payment identifier for blockchain submission") else
  if toAddress =? "" then throw (JsError "Missing payment recipient address") else
  if fromAddress =? "" then throw (JsError "Missing payment sender address") else
  if negb (Number_isFinite amountNumber) || num_le_zero amountNumber
  then throw (JsError "Invalid payment amount") else
  signerAddress <- lift (Keypair_fromSecret W walletPrivateSeed) ;;
  let expectedAddress :=
    trim (match expectedPublicAddress with Some a => a | None => "" end) in
  if negb (expectedAddress =? "") && negb (signerAddress =? expectedAddress)
  then throw (JsError "PI_WALLET_PRIVATE_SEED does not match PI_WALLET_PUBLIC_ADDRESS") else
  if negb (fromAddress =? signerAddress)
  then throw (JsError "Payment source address does not match the configured wallet seed") else
  let server := horizonUrl networkPassphrase in
  loaded <- call (fun h => Horizon_loadAccount W h server signerAddress)
                 (EvLoadAccount server signerAddress) ;;
  sourceAccount <- lift loaded ;;
  fee <- call (fun h => Horizon_fetchBaseFee W h server) (EvFetchBaseFee server) ;;
  baseFee <- lift fee ;;
  let tx := {| tx_source := sourceAccount;
               tx_fee := Number_toString W baseFee;
               tx_networkPassphrase := networkPassphrase;
               tx_memo := paymentId;
               tx_destination := toAddress;
               tx_amount := Number_toFixed W amountNumber 7;
               tx_timeout := 180 |} in
  match TransactionBuilder_build W tx with
  | Some t => throw t
  | None =>
      emit (EvBuild tx) ;;;
      emit (EvSign tx signerAddress) ;;;
      sent <- call (fun h => Horizon_submitTransaction W h server tx) (EvSubmit server tx) ;;
      submitted <- lift sent ;;
      hash_ <- lift (prop submitted "hash") ;;
      id_ <- lift (prop submitted "id") ;;
      hash <- lift (string_or_empty (or_else hash_ id_)) ;;
      if hash =? "" then throw (JsError "Pi blockchain submission did not return txid") else
      ret hash
  end.


(** *** The request handler *)

Definition platform : string := "https://api.minepi.com/v2".

(** [!v || typeof v !== "string"]. *)
Definition not_a_name (v : value) : bool :=
  negb (truthy v) || negb (typeof v =? "string").

(** A value read from the environment, as [Boolean(v)] and as
    [String(v || "").trim()]. *)
Definition env_set (k : string) : bool :=
  match Deno_env_get W k with Some s => negb (s =? "") | None => false end.

Definition env_trimmed (k : string) : string :=
  trim (match Deno_env_get W k with Some s => s | None => "" end).

Definition keyHeader (apiKey : string) : string * string :=
  ("Authorization", "Key " ++ apiKey).

Definition jsonHeaders (apiKey : string) : list (string * string) :=
  [("Content-Type", "application/json"); keyHeader apiKey].

Definition status_text (st : Z) : string := Number_toString W (num_of_Z st).

Definition upstreamError {A} (label : string) (st : Z) (data : value) : M A :=
  message <- lift (getPiErrorMessage data (label ++ " (status " ++ status_text st ++ ")")) ;;
  return_ (jsonResponse (JObj [("error", JStr message);
                               ("status", JNum (num_of_Z st));
                               ("data", data)]) 400).

(** Lines 133-161: [auth_verify] needs no session.  (The [console.error]
    of line 147 writes to the log and is not part of the model.) *)
Definition auth_verify (accessToken : value) : M Response :=
  if not_a_name accessToken
  then return_ (jsonResponse (JObj [("error", JStr "Missing accessToken")]) 400) else
  piResponse <- do_fetch {| fr_url := platform ++ "/me"; fr_method := "GET";
                            fr_headers := [("Authorization", "Bearer " ++ str_of accessToken)];
                            fr_body := None |} ;;
  let '(st, text) := piResponse in
  let data := parseJson text in
  if negb (ok st)
  then return_ (jsonResponse (JObj [("error", JStr "Pi auth verification failed");
                                    ("status", JNum (num_of_Z st));
                                    ("data", data)]) 400) else
  uid_ <- lift (prop data "uid") ;;
  let uid := if typeof uid_ =? "string" then uid_ else JNull in
  username_ <- lift (prop data "username") ;;
  let username := if typeof username_ =? "string" then username_ else JNull in
  if negb (truthy uid)
  then return_ (jsonResponse (JObj [("error", JStr "Pi auth response missing uid")]) 400) else
  return_ (jsonResponse (JObj [("success", JBool true);
                               ("data", JObj [("uid", uid); ("username", username)])]) 200).

(** Lines 163-168: every other action needs a valid session. *)
Definition authenticate (req : Request) : M unit :=
  match req_authorization req with
  | None => return_ (jsonResponse (JObj [("error", JStr "Missing auth token")]) 401)
  | Some authHeader =>
      if negb (startsWith "Bearer " authHeader)
      then return_ (jsonResponse (JObj [("error", JStr "Missing auth token")]) 401) else
      let token := replace "Bearer " "" authHeader in
      res <- call (fun h => auth_getUser W h token) (EvGetUser token) ;;
      match auth_error res, auth_user res with
      | None, Some _ => ret tt
      | _, _ => return_ (jsonResponse (JObj [("error", JStr "Unauthorized")]) 401)
      end
  end.

(** Lines 173-195. *)
Definition ad_verify (apiKey : string) (adId : value) : M Response :=
  if not_a_name adId
  then return_ (jsonResponse (JObj [("error", JStr "Missing adId")]) 400) else
  piResponse <- do_fetch {| fr_url := platform ++ "/ads_network/status/" ++ str_of adId;
                            fr_method := "GET";
                            fr_headers := [keyHeader apiKey];
                            fr_body := None |} ;;
  let '(st, text) := piResponse in
  let data := parseJson text in
  if negb (ok st)
  then return_ (jsonResponse (JObj [("error", JStr "Pi ad verification failed");
                                    ("status", JNum (num_of_Z st));
                                    ("data", data)]) 400) else
  ack <- lift (prop data "mediator_ack_status") ;;
  let mediatorAckStatus := if typeof ack =? "string" then ack else JNull in
  let rewarded := is_str mediatorAckStatus "granted" in
  return_ (jsonResponse (JObj [("success", JBool true);
                               ("rewarded", JBool rewarded);
                               ("data", data)]) 200).

(** Lines 197-211. *)
Definition a2u_config_status (apiKey : string) : M Response :=
  return_ (jsonResponse
    (JObj [("success", JBool true);
           ("data", JObj [("hasApiKey", JBool (negb (apiKey =? "")));
                          ("hasValidationKey", JBool (env_set "PI_VALIDATION_KEY"));
                          ("hasWalletPrivateSeed", JBool (env_set "PI_WALLET_PRIVATE_SEED"));
                          ("hasWalletPublicAddress", JBool (env_set "PI_WALLET_PUBLIC_ADDRESS"))])])
    200).

Definition incompleteRequest (apiKey : string) : FetchReq :=
  {| fr_url := platform ++ "/payments/incomplete_server_payments";
     fr_method := "GET";
     fr_headers := [keyHeader apiKey];
     fr_body := None |}.

Definition createRequest (apiKey : string) (payment : value) : FetchReq :=
  {| fr_url := platform ++ "/payments";
     fr_method := "POST";
     fr_headers := jsonHeaders apiKey;
     fr_body := Some payment |}.


(** Lines 266-281: the platform's create call. *)
Definition create_payment (apiKey : string) (payment : value) : M Response :=
  piResponse <- do_fetch (createRequest apiKey payment) ;;
  let '(st, text) := piResponse in
  let data := parseJson text in
  if negb (ok st) then upstreamError "Pi A2U create failed" st data else
  return_ (jsonResponse (JObj [("success", JBool true); ("data", data)]) 200).

(** Lines 213-282. *)
Definition a2u_create (apiKey : string) (payment : value) : M Response :=
  if negb (truthy payment) || negb (typeof payment =? "object")
  then return_ (jsonResponse (JObj [("error", JStr "Missing payment payload")]) 400) else
  amount_ <- lift (prop payment "amount") ;;
  amount <- lift (Number_ amount_) ;;
  uid_ <- lift (prop payment "uid") ;;
  let uid := trimmed_string uid_ in
  memo_ <- lift (prop payment "memo") ;;
  let memo := trimmed_string memo_ in
  if negb (Number_isFinite amount) || num_le_zero amount
  then return_ (jsonResponse (JObj [("error", JStr "Invalid payment.amount")]) 400) else
  if uid =? ""
  then return_ (jsonResponse (JObj [("error", JStr "Missing payment.uid")]) 400) else
  if memo =? ""
  then return_ (jsonResponse (JObj [("error", JStr "Missing payment.memo")]) 400) else
  metadata <- lift (prop payment "metadata") ;;
  if negb (truthy metadata) || negb (typeof metadata =? "object") || Array_isArray metadata
  then return_ (jsonResponse (JObj [("error", JStr "Missing payment.metadata object")]) 400) else
  pendingResponse <- do_fetch (incompleteRequest apiKey) ;;
  let '(pendingStatus, pendingText) := pendingResponse in
  let pendingData := parseJson pendingText in
  (if ok pendingStatus
   then
     listed <- lift (prop pendingData "incomplete_server_payments") ;;
     let pendingList := match listed with JArr items => items | _ => [] end in
     match pendingList with
     | first :: _ =>
         let pendingPayment := asRecord first in
         pendingUid <- lift (string_or_empty (field pendingPayment "user_uid")) ;;
         if negb (pendingUid =? "") && negb (pendingUid =? uid)
         then return_ (jsonResponse
                (JObj [("error", JStr "Another incomplete A2U payout exists. Complete/cancel it before creating a new payout.")])
                409)
         else return_ (jsonResponse (JObj [("success", JBool true);
                                           ("data", pendingPayment);
                                           ("reusedIncomplete", JBool true)]) 200)
     | [] => ret tt
     end
   else ret tt) ;;;
  create_payment apiKey payment.

(** Lines 284-298. *)
Definition a2u_incomplete (apiKey : string) : M Response :=
  piResponse <- do_fetch (incompleteRequest apiKey) ;;
  let '(st, text) := piResponse in
  let data := parseJson text in
  if negb (ok st)
  then return_ (jsonResponse (JObj [("error", JStr "Pi incomplete payments fetch failed");
                                    ("status", JNum (num_of_Z st));
                                    ("data", data)]) 400) else
  return_ (jsonResponse (JObj [("success", JBool true); ("data", data)]) 200).

Definition endpointBase (paymentId : string) : string :=
  platform ++ "/payments/" ++ paymentId.

Definition paymentRequest (apiKey endpoint method : string) (b : option value) : FetchReq :=
  {| fr_url := endpoint; fr_method := method;
     fr_headers := jsonHeaders apiKey; fr_body := b |}.

(** [typeof txid === "string" ? txid.trim() : ""]. *)
Definition explicitTxid (txid : value) : string := trimmed_string txid.

(** [String(paymentData.transaction?.txid || "").trim()]. *)
Definition existingTxid (paymentData : value) : exc string :=
  let! transaction := prop paymentData "transaction" in
  string_or_empty (opt_prop transaction "txid").

(** [String(paymentData.direction || "").trim()]. *)
Definition direction (paymentData : value) : exc string :=
  let! d := prop paymentData "direction" in
  string_or_empty d.

Definition txidBody (txid : string) : option value := Some (JObj [("txid", JStr txid)]).

(** Lines 311-347: the body of the platform's [complete] call. *)
Definition complete_body (action : string) (apiKey paymentId : string) (txid : value)
  : M (option value) :=
  if negb (explicitTxid txid =? "") then ret (txidBody (explicitTxid txid)) else
  if action =? "a2u_complete" then
    fetchPaymentResponse <- do_fetch (paymentRequest apiKey (endpointBase paymentId) "GET" None) ;;
    let '(st, text) := fetchPaymentResponse in
    let fetchPaymentData := parseJson text in
    if negb (ok st) then upstreamError "Pi payment API call failed" st fetchPaymentData else
    let paymentData := fetchPaymentData in
    existing <- lift (existingTxid paymentData) ;;
    if negb (existing =? "") then ret (txidBody existing) else
    dir <- lift (direction paymentData) ;;
    if dir =? "app_to_user" then
      let walletPrivateSeed := env_trimmed "PI_WALLET_PRIVATE_SEED" in
      if walletPrivateSeed =? ""
      then return_ (jsonResponse
                      (JObj [("error", JStr "PI_WALLET_PRIVATE_SEED is not configured")]) 500) else
      let walletPublicAddress := env_trimmed "PI_WALLET_PUBLIC_ADDRESS" in
      submittedTxid <- submitA2UTx paymentData walletPrivateSeed (Some walletPublicAddress) ;;
      ret (txidBody submittedTxid)
    else ret None
  else ret None.

Definition one_of (action : string) (names : list string) : bool :=
  existsb (String.eqb action) names.

(** Lines 357-372: the call to the payment endpoint. *)
Definition platform_call (apiKey endpoint method : string) (b : option value) : M Response :=
  piResponse <- do_fetch (paymentRequest apiKey endpoint method b) ;;
  let '(st, text) := piResponse in
  let data := parseJson text in
  if negb (ok st) then upstreamError "Pi payment API call failed" st data else
  return_ (jsonResponse (JObj [("success", JBool true); ("data", data)]) 200).

(** Lines 300-372: approve, complete, cancel and get. *)
Definition payment_action (action : string) (apiKey : string) (paymentId txid : value)
  : M Response :=
  if not_a_name paymentId
  then return_ (jsonResponse (JObj [("error", JStr "Missing paymentId")]) 400) else
  let base := endpointBase (str_of paymentId) in
  call_ <-
    (if one_of action ["approve"; "payment_approve"; "a2u_approve"]
     then ret (base ++ "/approve", "POST", None)
     else if one_of action ["complete"; "payment_complete"; "a2u_complete"]
     then b <- complete_body action apiKey (str_of paymentId) txid ;;
          ret (base ++ "/complete", "POST", b)
     else if one_of action ["cancel"; "payment_cancel"; "a2u_cancel"]
     then ret (base ++ "/cancel", "POST", None)
     else if one_of action ["get"; "payment_get"; "a2u_get"]
     then ret (base, "GET", None)
     else return_ (jsonResponse (JObj [("error", JStr "Invalid action")]) 400)) ;;
  let '(endpoint, method, b) := call_ in
  platform_call apiKey endpoint method b.

(** Lines 170-372: the actions that need a session. *)
Definition actions (json : value) : M Response :=
  let action := field json "action" in
  let paymentId := field json "paymentId" in
  let txid := field json "txid" in
  let adId := field json "adId" in
  let payment := field json "payment" in
  match Deno_env_get W "PI_API_KEY" with
  | None => return_ (jsonResponse (JObj [("error", JStr "PI_API_KEY is not configured")]) 500)
  | Some apiKey =>
      if apiKey =? ""
      then return_ (jsonResponse (JObj [("error", JStr "PI_API_KEY is not configured")]) 500) else
      if is_str action "ad_verify" then ad_verify apiKey adId else
      if is_str action "a2u_config_status" then a2u_config_status apiKey else
      if is_str action "a2u_create" then a2u_create apiKey payment else
      if is_str action "a2u_incomplete" then a2u_incomplete apiKey else
      payment_action (str_of action) apiKey paymentId txid
  end.

(** Lines 122-372: the body of the [try] block, from the construction of
    the session client on. *)
Definition handler (req : Request) : M Response :=
  lift (createClient W (Deno_env_get W "SUPABASE_URL")
                       (Deno_env_get W "SUPABASE_SERVICE_ROLE_KEY")) ;;;
  json <- lift (req_json req) ;;
  (if nullish json
   then throw (JsError "Cannot destructure property 'action' of '(intermediate value)' as it is null.")
   else ret tt) ;;;
  let action := field json "action" in
  let accessToken := field json "accessToken" in
  if not_a_name action
  then return_ (jsonResponse (JObj [("error", JStr "Missing action")]) 400) else
  if is_str action "auth_verify" then auth_verify accessToken else
  authenticate req ;;;
  actions json.

(** Lines 373-376: what the [catch] makes of a thrown value. *)
Definition caught (t : thrown) : Response :=
  match t with
  | JsError message => jsonResponse (JObj [("error", JStr message)]) 500
  | NotAnError => jsonResponse (JObj [("error", JStr "Unexpected error")]) 500
  end.

(** The response a run of the handler ends with. *)
Definition respond (o : outcome Response) : Response :=
  match o with
  | Val r | Return r => r
  | Throw t => caught t
  end.

(** The function given to [serve]: the pre-flight answer, then the handler
    inside its [try]. *)
Definition serve (req : Request) (h : Trace) : Response * Trace :=
  if req_method req =? "OPTIONS"
  then ({| status := 200; headers := corsHeaders; body := TextBody "ok" |}, [])
  else let (o, tr) := handler req h in (respond o, tr).

End Gateway.


(** * The sign-in page that calls the gateway

    [src/pages/PiAuthPage.tsx] invokes the gateway with [auth_verify] and
    derives the profile's username from what it gets back.  The page's
    own functions are embedded here: the check of the gateway's answer
    ([verifyPiAccessToken]), [normalizeUsername] and
    [resolveUniqueUsername]. *)

Module PiAuthPage.

(** ** The check of the gateway's answer *)

Section Verify.

(** The runtime of the browser; only its [String(v)] is used. *)
Variable browser : World.

(** Lines 153-161 of [verifyPiAccessToken], on the payload the functions
    client hands over for a 2xx answer (the parsed JSON body):
    [!payload?.success || !payload.data?.uid] throws
    [new Error(payload?.error || "Pi auth verification failed")], and
    otherwise [String(uid)] and [String(username || "")] are returned. *)
Definition verifyPayload (payload : value) : exc (string * string) :=
  if negb (truthy (opt_prop payload "success"))
     || negb (truthy (opt_prop (field payload "data") "uid"))
  then
    match String_ browser
            (or_else (opt_prop payload "error") (JStr "Pi auth verification failed")) with
    | inl t => inl t
    | inr message => inl (JsError message)
    end
  else
    match String_ browser (field (field payload "data") "uid") with
    | inl t => inl t
    | inr uid =>
        match String_ browser (or_else (field (field payload "data") "username") (JStr "")) with
        | inl t => inl t
        | inr username => inr (uid, username)
        end
    end.

End Verify.

(** ** Usernames *)

(** A JavaScript string as its UTF-16 code units; [slice] and [length]
    count these. *)
Definition jsstring : Type := list N.

(** The code units of a literal of the source (all of them ASCII). *)
Definition units (s : string) : jsstring := map N_of_ascii (list_ascii_of_string s).

(** [/[a-z0-9_]/]. *)
Definition name_unit (c : N) : bool :=
  ((97 <=? c) && (c <=? 122) || (48 <=? c) && (c <=? 57) || (c =? 95))%N.

(** [s.replace(/^@+/, "")]. *)
Fixpoint strip_at (s : jsstring) : jsstring :=
  match s with
  | c :: rest => if (c =? 64)%N then strip_at rest else s
  | [] => []
  end.

(** [s.replace(/-/g, "")]. *)
Definition without_dashes (s : jsstring) : jsstring :=
  filter (fun c => negb (c =? 45)%N) s.

(** [String(index)] for a loop index. *)
Definition decimal (index : nat) : jsstring :=
  units (NilEmpty.string_of_uint (Nat.to_uint index)).

(** What the [profiles] query of lines 36-41 resolves to: an error, a row
    of another user, or no row. *)
Inductive Lookup : Type :=
| LookupError
| Existing
| NoRow.

Section Usernames.

(** [String.prototype.trim] and [String.prototype.toLowerCase] of the
    browser. *)
Variable String_trim : jsstring -> jsstring.
Variable String_toLowerCase : jsstring -> jsstring.

(** The [profiles] table as the query sees it: the answer for a candidate
    and a user id, after the candidates asked before (the most recent
    first). *)
Variable profiles : list jsstring -> jsstring -> jsstring -> Lookup.

(** Lines 20-26. *)
Definition normalizeUsername (value : jsstring) : jsstring :=
  firstn 20 (filter name_unit (strip_at (String_toLowerCase (String_trim value)))).

(** Line 29. *)
Definition safeBase (baseValue userId : jsstring) : jsstring :=
  match normalizeUsername baseValue with
  | [] => (units "pi_" ++ firstn 12 (without_dashes userId))%list
  | name => name
  end.

(** Line 30. *)
Definition minBase (baseValue userId : jsstring) : jsstring :=
  let safe := safeBase baseValue userId in
  if (length safe <? 3)%nat then (safe ++ repeat 120%N (3 - length safe))%list else safe.

(** Lines 33-35. *)
Definition suffix (index : nat) : jsstring :=
  if (index =? 0)%nat then [] else (units "_" ++ decimal index)%list.

Definition candidate (base : jsstring) (index : nat) : jsstring :=
  (firstn (Nat.max 3 (20 - length (suffix index))) base ++ suffix index)%list.

(** Line 47. *)
Definition lastResort (base userId : jsstring) : jsstring :=
  (firstn 15 base ++ units "_" ++ firstn 4 (without_dashes userId))%list.

(** Lines 32-45: the loop from [index] on, with [rounds] rounds left.  The
    result is the name and the candidates asked, the most recent first. *)
Fixpoint search (base userId : jsstring) (rounds index : nat) (asked : list jsstring)
  : jsstring * list jsstring :=
  match rounds with
  | O => (lastResort base userId, asked)
  | S rounds' =>
      let c := candidate base index in
      match profiles asked c userId with
      | LookupError => (lastResort base userId, c :: asked)
      | NoRow => (c, c :: asked)
      | Existing => search base userId rounds' (S index) (c :: asked)
      end
  end.

(** Lines 28-48. *)
Definition resolveUniqueUsername (baseValue userId : jsstring) : jsstring * list jsstring :=
  search (minBase baseValue userId) userId 6 0 [].

End Usernames.

End PiAuthPage.
(** ** A concrete runtime

    The built-ins of the runtime, written out so that the scenarios below
    run: [JSON.parse] after the JSON grammar, and the number conversions
    of ECMAScript on double-precision numbers. *)

Module Runtime.

Fixpoint skip_ws (s : string) : string :=
  match s with
  | String c s' =>
      if existsb (Ascii.eqb c) [" "; "009"; "010"; "013"]%char then skip_ws s' else s
  | EmptyString => EmptyString
  end.

Definition digit (c : ascii) : option Z :=
  let n := Z.of_N (N_of_ascii c) in
  if (48 <=? n)%Z && (n <=? 57)%Z then Some (n - 48)%Z else None.

Definition hex (c : ascii) : option N :=
  let n := N_of_ascii c in
  if (48 <=? n)%N && (n <=? 57)%N then Some (n - 48)%N
  else if (65 <=? n)%N && (n <=? 70)%N then Some (n - 55)%N
  else if (97 <=? n)%N && (n <=? 102)%N then Some (n - 87)%N
  else None.

(** The digits at the head of [s]: their value after [acc], how many there
    are, and what follows. *)
Fixpoint digits (s : string) (acc : Z) (count : nat) : Z * nat * string :=
  match s with
  | String c s' =>
      match digit c with
      | Some d => digits s' (10 * acc + d)%Z (S count)
      | None => (acc, count, s)
      end
  | EmptyString => (acc, count, s)
  end.

(** [a / b] rounded to the nearest integer, ties to the even one, for
    [0 <= a] and [0 < b]. *)
Definition round_half_even (a b : Z) : Z :=
  let q := (a / b)%Z in
  match (2 * (a mod b) ?= b)%Z with
  | Lt => q
  | Gt => (q + 1)%Z
  | Eq => if Z.even q then q else (q + 1)%Z
  end.

(** The integer part of the binary logarithm of [a / b], for [0 < a] and
    [0 < b]. *)
Definition floor_log2 (a b : Z) : Z :=
  let est := (Z.log2 a - Z.log2 b)%Z in
  if (0 <=? est)%Z
  then (if (2 ^ est * b <=? a)%Z then est else est - 1)%Z
  else (if (b <=? 2 ^ (- est) * a)%Z then est else est - 1)%Z.

(** [m * 2^e] as a rational. *)
Definition binary (m e : Z) : Q :=
  if (0 <=? e)%Z then inject_Z (m * 2 ^ e)
  else Qred (Qmake m (Z.to_pos (2 ^ (- e)))).

(** The double nearest to a rational: 53 bits of significand, ties to the
    even one, subnormals below [2^-1022], and an infinity from [2^1024]
    on. *)
Definition double (q : Q) : number :=
  let a := Z.abs (Qnum q) in
  let b := Zpos (Qden q) in
  if (a =? 0)%Z then Finite (inject_Z 0) else
  let e := Z.max (floor_log2 a b - 52) (-1074) in
  let m := if (0 <=? e)%Z then round_half_even a (b * 2 ^ e)
           else round_half_even (a * 2 ^ (- e)) b in
  if (0 <=? e)%Z && (2 ^ 1024 <=? m * 2 ^ e)%Z then Infinity (Qnum q <? 0)%Z
  else Finite (binary (Z.sgn (Qnum q) * m) e).

(** [m * 10^e] as a rational, and as a number. *)
Definition power_of_ten (m e : Z) : Q :=
  if (0 <=? e)%Z then inject_Z (m * 10 ^ e)
  else Qmake m (Z.to_pos (10 ^ (- e))).

Definition decimal (m e : Z) : number := double (power_of_ten m e).

(** An optional exponent part. *)
Definition exponent (s : string) : option (Z * string) :=
  match s with
  | String c s' =>
      if Ascii.eqb c "e" || Ascii.eqb c "E" then
        let '(sign, s'') :=
          match s' with
          | String "+" r => (1%Z, r)
          | String "-" r => ((-1)%Z, r)
          | _ => (1%Z, s')
          end in
        match digits s'' 0 0 with
        | (_, O, _) => None
        | (e, _, rest) => Some ((sign * e)%Z, rest)
        end
      else Some (0%Z, s)
  | EmptyString => Some (0%Z, s)
  end.

(** A JSON number: [-? int frac? exp?], without superfluous leading zero. *)
Definition parse_number (s : string) : option (number * string) :=
  let '(sign, s1) :=
    match s with String "-" r => ((-1)%Z, r) | _ => (1%Z, s) end in
  match s1, digits s1 0 0 with
  | _, (_, O, _) => None
  | String "0" _, (_, S (S _), _) => None
  | _, (int_part, _, s2) =>
      let frac :=
        match s2 with
        | String "." r =>
            match digits r int_part 0 with
            | (_, O, _) => None
            | (m, n, s3) => Some (m, Z.of_nat n, s3)
            end
        | _ => Some (int_part, 0%Z, s2)
        end in
      match frac with
      | None => None
      | Some (m, n, s3) =>
          match exponent s3 with
          | None => None
          | Some (e, rest) => Some (decimal (sign * m) (e - n), rest)
          end
      end
  end.

(** The bytes of a code point in UTF-8. *)
Definition utf8 (n : N) : string :=
  if (n <? 128)%N then String (ascii_of_N n) ""
  else if (n <? 2048)%N
  then String (ascii_of_N (192 + n / 64)) (String (ascii_of_N (128 + n mod 64)) "")
  else if (n <? 65536)%N
  then String (ascii_of_N (224 + n / 4096))
         (String (ascii_of_N (128 + (n / 64) mod 64))
            (String (ascii_of_N (128 + n mod 64)) ""))
  else String (ascii_of_N (240 + n / 262144))
         (String (ascii_of_N (128 + (n / 4096) mod 64))
            (String (ascii_of_N (128 + (n / 64) mod 64))
               (String (ascii_of_N (128 + n mod 64)) ""))).

(** The code point of a surrogate pair; a code unit that is not the first
    half of a pair stands for itself. *)
Definition paired (hi : N) (lo : option N) : option N :=
  match lo with
  | Some l =>
      if (55296 <=? hi)%N && (hi <=? 56319)%N && (56320 <=? l)%N && (l <=? 57343)%N
      then Some (65536 + (hi - 55296) * 1024 + (l - 56320))%N
      else None
  | None => None
  end.

Definition hex4 (a b c d : ascii) : option N :=
  match hex a, hex b, hex c, hex d with
  | Some x, Some y, Some z, Some w => Some (4096 * x + 256 * y + 16 * z + w)%N
  | _, _, _, _ => None
  end.

(** The characters of a JSON string after its opening quote. *)
Fixpoint parse_chars (s : string) : option (string * string) :=
  match s with
  | EmptyString => None
  | String "034" rest => Some ("", rest)
  | String "\" (String e rest) =>
      let continue (decoded : string) (rest' : string) :=
        match parse_chars rest' with
        | Some (t, r) => Some (decoded ++ t, r)
        | None => None
        end in
      match e, rest with
      | "034"%char, _ => continue (String "034" "") rest
      | "\"%char, _ => continue "\" rest
      | "/"%char, _ => continue "/" rest
      | "b"%char, _ => continue (String "008" "") rest
      | "f"%char, _ => continue (String "012" "") rest
      | "n"%char, _ => continue (String "010" "") rest
      | "r"%char, _ => continue (String "013" "") rest
      | "t"%char, _ => continue (String "009" "") rest
      | "u"%char, String a (String b (String c (String d rest'))) =>
          match hex4 a b c d with
          | Some unit =>
              match rest' with
              | String "\" (String "u" (String a' (String b' (String c' (String d' rest''))))) =>
                  match paired unit (hex4 a' b' c' d') with
                  | Some point => continue (utf8 point) rest''
                  | None => continue (utf8 unit) rest'
                  end
              | _ => continue (utf8 unit) rest'
              end
          | None => None
          end
      | _, _ => None
      end
  | String c rest =>
      if (N_of_ascii c <? 32)%N then None
      else match parse_chars rest with
           | Some (t, r) => Some (String c t, r)
           | None => None
           end
  end.

(** A member read again takes the place of the earlier one. *)
Fixpoint obj_set (k : string) (v : value) (fs : list (string * value))
  : list (string * value) :=
  match fs with
  | [] => [(k, v)]
  | (k', v') :: fs' => if k' =? k then (k, v) :: fs' else (k', v') :: obj_set k v fs'
  end.

(** A JSON value, the elements of an array after the first, and the members
    of an object after the first; [fuel] bounds the nesting. *)
Fixpoint parse_value (fuel : nat) (s : string) : option (value * string) :=
  match fuel with
  | O => None
  | S fuel' =>
      match skip_ws s with
      | String "[" r =>
          match skip_ws r with
          | String "]" r' => Some (JArr [], r')
          | _ =>
              match parse_value fuel' r with
              | Some (v, r') => parse_elements fuel' [v] r'
              | None => None
              end
          end
      | String "{" r =>
          match skip_ws r with
          | String "}" r' => Some (JObj [], r')
          | String "034" r' => parse_member fuel' [] r'
          | _ => None
          end
      | String "034" r =>
          match parse_chars r with
          | Some (t, r') => Some (JStr t, r')
          | None => None
          end
      | s' =>
          if startsWith "null" s' then Some (JNull, drop 4 s')
          else if startsWith "true" s' then Some (JBool true, drop 4 s')
          else if startsWith "false" s' then Some (JBool false, drop 5 s')
          else match parse_number s' with
               | Some (n, r) => Some (JNum n, r)
               | None => None
               end
      end
  end
with parse_elements (fuel : nat) (acc : list value) (s : string) : option (value * string) :=
  match fuel with
  | O => None
  | S fuel' =>
      match skip_ws s with
      | String "]" r => Some (JArr acc, r)
      | String "," r =>
          match parse_value fuel' r with
          | Some (v, r') => parse_elements fuel' (acc ++ [v])%list r'
          | None => None
          end
      | _ => None
      end
  end
with parse_member (fuel : nat) (acc : list (string * value)) (s : string)
  : option (value * string) :=
  match fuel with
  | O => None
  | S fuel' =>
      match parse_chars s with
      | Some (k, r) =>
          match skip_ws r with
          | String ":" r' =>
              match parse_value fuel' r' with
              | Some (v, r'') =>
                  match skip_ws r'' with
                  | String "}" rest => Some (JObj (obj_set k v acc), rest)
                  | String "," rest =>
                      match skip_ws rest with
                      | String "034" rest' => parse_member fuel' (obj_set k v acc) rest'
                      | _ => None
                      end
                  | _ => None
                  end
              | None => None
              end
          | _ => None
          end
      | None => None
      end
  end.

(** [JSON.parse]: one value, white space around it, nothing else.  A
    number is the double nearest to its numeral, the two escapes of a
    surrogate pair stand for one code point, and the members of an object
    are kept in the order of the text. *)
Definition JSON_parse (raw : string) : option value :=
  match parse_value (2 * String.length raw + 2) raw with
  | Some (v, rest) => if skip_ws rest =? "" then Some v else None
  | None => None
  end.


Definition Z_to_string (z : Z) : string := NilZero.string_of_int (Z.to_int z).

Fixpoint zeros (n : nat) : string :=
  match n with O => "" | S n' => String "0" (zeros n') end.

(** The least [j], counted from the one given, with [1 <= a * 10^j / b]. *)
Fixpoint first_scale (fuel : nat) (a b j : Z) : Z :=
  match fuel with
  | O => j
  | S fuel' => if (b <=? a * 10 ^ j)%Z then j else first_scale fuel' a b (j + 1)
  end.

(** The [n] with [10^(n-1) <= a / b < 10^n], for [0 < a] and [0 < b]. *)
Definition magnitude (a b : Z) : Z :=
  if (b <=? a)%Z then Z.of_nat (String.length (Z_to_string (a / b)))
  else (1 - first_scale 400 a b 1)%Z.

Definition same_number (x y : number) : bool :=
  match x, y with
  | Finite p, Finite q => Qeq_bool p q
  | _, _ => false
  end.

(** The integer part of [q / 10^p], for [0 <= q]. *)
Definition floor_scaled (q : Q) (p : Z) : Z :=
  if (0 <=? p)%Z then (Qnum q / (Zpos (Qden q) * 10 ^ p))%Z
  else (Qnum q * 10 ^ (- p) / Zpos (Qden q))%Z.

(** The digits of a positive double: the least [k], and with it [s] and
    [n], such that [s * 10^(n-k)] has [k] digits and is read back as the
    double; of two such [s] the one nearer to the double, the even one in
    a tie. *)
Fixpoint shortest (fuel : nat) (k : Z) (q : Q) (n : Z) : Z * Z * Z :=
  match fuel with
  | O => (floor_scaled q (n - k), n, k)
  | S fuel' =>
      let p := (n - k)%Z in
      let lo := floor_scaled q p in
      let hi := (lo + 1)%Z in
      let lo_ok := same_number (double (power_of_ten lo p)) (Finite q) in
      let hi_ok := same_number (double (power_of_ten hi p)) (Finite q) in
      let up := if (hi =? 10 ^ k)%Z then (10 ^ (k - 1), n + 1, k)%Z else (hi, n, k) in
      if lo_ok && hi_ok then
        match (q - power_of_ten lo p ?= power_of_ten hi p - q)%Q with
        | Lt => (lo, n, k)
        | Gt => up
        | Eq => if Z.even lo then (lo, n, k) else up
        end
      else if lo_ok then (lo, n, k)
      else if hi_ok then up
      else shortest fuel' (k + 1) q n
  end.

(** [String(n)], after Number::toString: the shortest digits that are
    read back as the same double, in plain notation from [1e-6] up to
    [1e21] and with an exponent outside. *)
Definition Number_toString (n : number) : string :=
  match n with
  | NaN => "NaN"
  | Infinity negative => if negative then "-Infinity" else "Infinity"
  | Finite q =>
      if (Qnum q =? 0)%Z then "0" else
      let a := Z.abs (Qnum q) in
      let b := Zpos (Qden q) in
      let '(s, n, k) := shortest 17 1 (Qmake a (Qden q)) (magnitude a b) in
      let text := Z_to_string s in
      let e := (n - 1)%Z in
      (if (Qnum q <? 0)%Z then "-" else "")
      ++ (if (k <=? n)%Z && (n <=? 21)%Z then text ++ zeros (Z.to_nat (n - k))
          else if (0 <? n)%Z && (n <=? 21)%Z
          then substring 0 (Z.to_nat n) text ++ "."
               ++ substring (Z.to_nat n) (Z.to_nat (k - n)) text
          else if (-6 <? n)%Z && (n <=? 0)%Z then "0." ++ zeros (Z.to_nat (- n)) ++ text
          else (if (k =? 1)%Z then text
                else substring 0 1 text ++ "." ++ substring 1 (Z.to_nat (k - 1)) text)
               ++ "e" ++ (if (e <? 0)%Z then "-" else "+") ++ Z_to_string (Z.abs e))
  end.

(** The digits of a numeral in a base of 2, 8 or 16; none when there is no
    digit or something else. *)
Fixpoint digits_in (base : N) (s : string) (acc : option N) : option N :=
  match s with
  | EmptyString => acc
  | String c s' =>
      match hex c with
      | Some d =>
          if (d <? base)%N
          then digits_in base s' (Some (base * match acc with Some n => n | None => 0 end + d)%N)
          else None
      | None => None
      end
  end.

(** [Number(s)] on a string, after StringToNumber: white space is trimmed,
    the empty string is 0, a decimal numeral (with an optional sign, dot
    and exponent), [Infinity] and a binary, octal or hexadecimal numeral
    are read as the nearest double, everything else is [NaN]. *)
Definition String_toNumber (s : string) : number :=
  let t := trim s in
  if t =? "" then num_of_Z 0
  else if (t =? "Infinity") || (t =? "+Infinity") then Infinity false
  else if t =? "-Infinity" then Infinity true
  else
    let radix :=
      match t with
      | String "0" (String x r) =>
          if Ascii.eqb x "x" || Ascii.eqb x "X" then Some (16%N, r)
          else if Ascii.eqb x "o" || Ascii.eqb x "O" then Some (8%N, r)
          else if Ascii.eqb x "b" || Ascii.eqb x "B" then Some (2%N, r)
          else None
      | _ => None
      end in
    match radix with
    | Some (base, r) =>
        match digits_in base r None with
        | Some n => double (inject_Z (Z.of_N n))
        | None => NaN
        end
    | None =>
        let '(sign, s1) :=
          match t with
          | String "-" r => ((-1)%Z, r)
          | String "+" r => (1%Z, r)
          | _ => (1%Z, t)
          end in
        let '(int_part, ni, s2) := digits s1 0 0 in
        let '(m, nf, s3) :=
          match s2 with
          | String "." r => digits r int_part 0
          | _ => (int_part, O, s2)
          end in
        match (ni + nf)%nat, exponent s3 with
        | S _, Some (e, "") => decimal (sign * m) (e - Z.of_nat nf)
        | _, _ => NaN
        end
    end.

(** [n.toFixed(places)]: below [1e21] the nearest numeral with that many
    places, ties going up in magnitude; from there on [String(n)]. *)
Definition Number_toFixed (n : number) (places : nat) : string :=
  match n with
  | Finite q =>
      let scale := (10 ^ Z.of_nat places)%Z in
      let num := Z.abs (Qnum q) in
      let den := Zpos (Qden q) in
      if (10 ^ 21 * den <=? num)%Z then Number_toString n else
      let scaled := ((2 * num * scale + den) / (2 * den))%Z in
      let frac := Z_to_string (scaled mod scale) in
      (if (Qnum q <? 0)%Z then "-" else "")
      ++ Z_to_string (scaled / scale)
      ++ (match places with
          | O => ""
          | S _ => "." ++ zeros (places - String.length frac) ++ frac
          end)
  | _ => Number_toString n
  end.

(** JSON text is written below with apostrophes where JSON has double
    quotes. *)
Fixpoint json_text (s : string) : string :=
  match s with
  | EmptyString => EmptyString
  | String c s' => String (if Ascii.eqb c "'" then "034"%char else c) (json_text s')
  end.

End Runtime.

(** ** Vocabulary of the statements *)

(** A string of white space only (the empty one included). *)
Definition blank (s : string) : bool := forallb is_space (characters s).

(** The message a payload carries under a key: a string with something in
    it besides white space, trimmed. *)
Definition present (v : value) : option string :=
  match v with
  | JStr s => if blank s then None else Some (trim s)
  | _ => None
  end.

Fixpoint first_present (candidates : list value) (fallback : string) : string :=
  match candidates with
  | [] => fallback
  | v :: rest =>
      match present v with
      | Some s => s
      | None => first_present rest fallback
      end
  end.

(** The normaliser's error message as its contract words it: top-level
    [error], top-level [message], then the same two keys under [data]. *)
Definition spec_errorMessage (payload : value) (fallback : string) : string :=
  first_present [field payload "error"; field payload "message";
                 field (field payload "data") "error";
                 field (field payload "data") "message"] fallback.


(** What a conversion gave: whether it returned, and the string or the
    number it returned (the empty string and [NaN] when it threw). *)
Definition converts {A} (e : exc A) : bool :=
  match e with inr _ => true | inl _ => false end.

Definition text_of (e : exc string) : string :=
  match e with inr s => s | inl _ => "" end.

Definition number_of (e : exc number) : number :=
  match e with inr n => n | inl _ => NaN end.

(** The fields of a payment record as lines 67-71 of [submitA2UTx] read
    them. *)
Definition record_text (W : World) (payment : value) (k : string) : exc string :=
  string_or_empty W (field payment k).

Definition record_amount (W : World) (payment : value) : exc number :=
  Number_ W (field payment "amount").

(** The record can be read: none of the conversions of lines 67-71
    throws. *)
Definition readable (W : World) (payment : value) : bool :=
  negb (nullish payment)
  && converts (record_text W payment "identifier")
  && converts (record_text W payment "to_address")
  && converts (record_text W payment "from_address")
  && converts (record_text W payment "network")
  && converts (record_amount W payment).

(** The record can be read (no conversion throws) and passes the four
    field checks of [submitA2UTx]. *)
Definition settleable (W : World) (payment : value) : bool :=
  negb (nullish payment)
  && converts (record_text W payment "identifier")
  && converts (record_text W payment "to_address")
  && converts (record_text W payment "from_address")
  && converts (record_text W payment "network")
  && converts (record_amount W payment)
  && negb (text_of (record_text W payment "identifier") =? "")
  && negb (text_of (record_text W payment "to_address") =? "")
  && negb (text_of (record_text W payment "from_address") =? "")
  && Number_isFinite (number_of (record_amount W payment))
  && negb (num_le_zero (number_of (record_amount W payment))).

(** The action of a request: the non-empty string the handler reads from
    the body.  A pre-flight request, a body that is no JSON and a body
    without such a string carry none. *)
Definition request_action (req : Request) : option string :=
  if req_method req =? "OPTIONS" then None
  else match req_json req with
       | inr json =>
           if not_a_name (field json "action") then None
           else Some (str_of (field json "action"))
       | inl _ => None
       end.

(** The construction of the session client (lines 123-125), and whether
    it returned. *)
Definition client (W : World) : exc unit :=
  createClient W (Deno_env_get W "SUPABASE_URL") (Deno_env_get W "SUPABASE_SERVICE_ROLE_KEY").

Definition client_built (W : World) : bool := converts (client W).

(** The check of lines 164-168 passes: a bearer header whose token
    [getUser] accepts, asked after the history [h]. *)
Definition session_accepted (W : World) (req : Request) (h : Trace) : bool :=
  match req_authorization req with
  | None => false
  | Some authHeader =>
      startsWith "Bearer " authHeader
      && match auth_error (auth_getUser W h (replace "Bearer " "" authHeader)),
               auth_user (auth_getUser W h (replace "Bearer " "" authHeader)) with
         | None, Some _ => true
         | _, _ => false
         end
  end.

(** The request has a session: the client was built and the check of
    lines 164-168 passes. *)
Definition session_valid (W : World) (req : Request) (h : Trace) : bool :=
  client_built W && session_accepted W req h.

(** Calls to the platform and to the ledger, as opposed to the session
    check. *)
Definition is_platform_call (ev : Event) : bool :=
  match ev with EvFetch _ _ => true | _ => false end.

Definition is_ledger_event (ev : Event) : bool :=
  match ev with
  | EvLoadAccount _ _ _ | EvFetchBaseFee _ _ | EvBuild _ | EvSign _ _ | EvSubmit _ _ _ => true
  | _ => false
  end.

Definition is_upstream (ev : Event) : bool := is_platform_call ev || is_ledger_event ev.

(** The response and the calls of one request. *)
Definition response (W : World) (req : Request) (h : Trace) : Response := fst (serve W req h).
Definition calls (W : World) (req : Request) (h : Trace) : Trace := snd (serve W req h).

(** The configured platform key, when there is one. *)
Definition api_key (W : World) : option string :=
  match Deno_env_get W "PI_API_KEY" with
  | Some k => if k =? "" then None else Some k
  | None => None
  end.

(** The token the handler extracts from the header. *)
Definition bearer_token (req : Request) : string :=
  match req_authorization req with
  | Some authHeader => replace "Bearer " "" authHeader
  | None => ""
  end.

(** The session check as an event. *)
Definition session_event (W : World) (req : Request) (h : Trace) : Event :=
  EvGetUser (bearer_token req) (auth_getUser W h (bearer_token req)).

(** The header check of line 165. *)
Definition has_bearer (req : Request) : bool :=
  match req_authorization req with
  | Some authHeader => startsWith "Bearer " authHeader
  | None => false
  end.

(** The body the handler destructures, and a field of it. *)
Definition request_json (req : Request) : value :=
  match req_json req with
  | inr json => json
  | inl _ => JUndefined
  end.

Definition request_field (req : Request) (k : string) : value :=
  field (request_json req) k.

(** The amount of a payload, as line 219 reads it. *)
Definition payload_amount (W : World) (payment : value) : exc number :=
  Number_ W (field payment "amount").

(** The payload passes the checks of lines 214-234. *)
Definition valid_payload (W : World) (payment : value) : bool :=
  truthy payment && (typeof payment =? "object")
  && converts (payload_amount W payment)
  && Number_isFinite (number_of (payload_amount W payment))
  && negb (num_le_zero (number_of (payload_amount W payment)))
  && negb (trimmed_string (field payment "uid") =? "")
  && negb (trimmed_string (field payment "memo") =? "")
  && truthy (field payment "metadata")
  && (typeof (field payment "metadata") =? "object")
  && negb (Array_isArray (field payment "metadata")).

(** The uid of a request's payload, as line 220 reads it. *)
Definition payload_uid (payment : value) : string := trimmed_string (field payment "uid").

(** The incomplete payments a listing answer carries. *)
Definition pending_list (W : World) (text : string) : list value :=
  match field (parseJson W text) "incomplete_server_payments" with
  | JArr items => items
  | _ => []
  end.

(** The user of a listed payment, as line 250 reads it. *)
Definition pendingUid (W : World) (listed : value) : exc string :=
  string_or_empty W (field (asRecord listed) "user_uid").

Definition conflict_response : Response :=
  jsonResponse
    (JObj [("error", JStr "Another incomplete A2U payout exists. Complete/cancel it before creating a new payout.")])
    409.

Definition reused_response (pendingPayment : value) : Response :=
  jsonResponse (JObj [("success", JBool true);
                      ("data", pendingPayment);
                      ("reusedIncomplete", JBool true)]) 200.

(** The [data] of a JSON response, and a field of its body. *)
Definition response_field (r : Response) (k : string) : value :=
  match body r with
  | JsonBody json => field json k
  | TextBody _ => JUndefined
  end.

Definition response_data (r : Response) : value := response_field r "data".

Definition created_response (data : value) : Response :=
  jsonResponse (JObj [("success", JBool true); ("data", data)]) 200.

(** The transaction id [submitA2UTx] reads off the ledger's answer:
    [String(submitted.hash || submitted.id || "").trim()]. *)
Definition ledger_txid (W : World) (submitted : value) : exc string :=
  string_or_empty W (or_else (field submitted "hash") (field submitted "id")).

(** [String(expectedPublicAddress || "").trim()]. *)
Definition expected_address (expectedPublicAddress : option string) : string :=
  trim (match expectedPublicAddress with Some a => a | None => "" end).

(** The source address of a payment record, as line 69 reads it. *)
Definition source_address (W : World) (payment : value) : exc string :=
  record_text W payment "from_address".

(** The three names of the completion action. *)
Definition complete_family : list string := ["complete"; "payment_complete"; "a2u_complete"].

(** The platform's calls about one payment, as they are handed to
    [fetch]. *)
Definition recordRequest (apiKey paymentId : string) : FetchReq :=
  {| fr_url := "https://api.minepi.com/v2/payments/" ++ paymentId;
     fr_method := "GET";
     fr_headers := [("Content-Type", "application/json"); ("Authorization", "Key " ++ apiKey)];
     fr_body := None |}.

Definition completeRequest (apiKey paymentId : string) (b : option value) : FetchReq :=
  {| fr_url := "https://api.minepi.com/v2/payments/" ++ paymentId ++ "/complete";
     fr_method := "POST";
     fr_headers := [("Content-Type", "application/json"); ("Authorization", "Key " ++ apiKey)];
     fr_body := b |}.

(** A POST to the platform.  On the completion path the handler makes one
    at most, to [.../complete]. *)
Definition is_complete_call (ev : Event) : bool :=
  match ev with
  | EvFetch rq _ => fr_method rq =? "POST"
  | _ => false
  end.

(** The configured wallet, as lines 338 and 343 read it. *)
Definition wallet_seed (W : World) : string := env_trimmed W "PI_WALLET_PRIVATE_SEED".
Definition wallet_address (W : World) : string := env_trimmed W "PI_WALLET_PUBLIC_ADDRESS".

Definition seed_missing_response : Response :=
  jsonResponse (JObj [("error", JStr "PI_WALLET_PRIVATE_SEED is not configured")]) 500.

Definition missing_paymentId_response : Response :=
  jsonResponse (JObj [("error", JStr "Missing paymentId")]) 400.

(** ** Vocabulary of the further statements *)

(** The answer to a pre-flight request (line 120). *)
Definition preflight_response : Response :=
  {| status := 200; headers := corsHeaders; body := TextBody "ok" |}.

(** The two shapes of a JSON answer: [{success: true, data, ...}] (no
    [error]) with status 200, and [{error: <string>}] or [{error: <string>, status, data}]
    with one of the four error statuses. *)
Definition success_shaped (r : Response) : Prop :=
  exists rest,
    r = jsonResponse (JObj (("success", JBool true) :: rest)) 200 /\
    In "data" (map fst rest) /\ ~ In "error" (map fst rest).

Definition error_shaped (r : Response) : Prop :=
  exists message extra st,
    r = jsonResponse (JObj (("error", JStr message) :: extra)) st /\
    In st [400; 401; 409; 500]%Z /\
    (extra = [] \/ exists upstream data, extra = [("status", JNum upstream); ("data", data)]).

Definition shaped (r : Response) : Prop := success_shaped r \/ error_shaped r.

(** A property of traces that is kept when runs follow one another. *)
Record TraceProperty : Type := {
  holds :> Trace -> Prop;
  holds_nil : holds [];
  holds_app : forall t1 t2, holds t1 -> holds t2 -> holds (t1 ++ t2)%list
}.

(** Every event of the trace satisfies [Q]. *)
Definition every (Q : Event -> Prop) : TraceProperty :=
  {| holds := Forall Q;
     holds_nil := Forall_nil Q;
     holds_app := fun t1 t2 H1 H2 => proj2 (Forall_app Q t1 t2) (conj H1 H2) |}.

(** No constraint on the trace. *)
Definition anything : TraceProperty :=
  {| holds := fun _ => True;
     holds_nil := Logic.I;
     holds_app := fun _ _ _ _ => Logic.I |}.

(** A step obeys [I], [R] and [V] when, from every history, the events it
    adds satisfy [I], a response it leaves the handler with satisfies [R],
    and a value it yields satisfies [V]. *)
Definition obeys (I : TraceProperty) (R : Response -> Prop) {A} (V : A -> Prop) (m : M A)
  : Prop :=
  forall h,
    I (snd (m h)) /\
    match fst (m h) with
    | Val a => V a
    | Return r => R r
    | Throw _ => True
    end.

(** The addresses the actions of a session write: the listing of
    incomplete payments, the create endpoint, the status of an ad, and a
    payment with its three operations.  The ad id and the payment id are
    pasted in as the request has them, without encoding. *)
Definition addresses (paymentId adId : value) : list string :=
  ["https://api.minepi.com/v2/payments/incomplete_server_payments";
   "https://api.minepi.com/v2/payments";
   "https://api.minepi.com/v2/ads_network/status/" ++ str_of adId;
   "https://api.minepi.com/v2/payments/" ++ str_of paymentId;
   "https://api.minepi.com/v2/payments/" ++ str_of paymentId ++ "/approve";
   "https://api.minepi.com/v2/payments/" ++ str_of paymentId ++ "/complete";
   "https://api.minepi.com/v2/payments/" ++ str_of paymentId ++ "/cancel"].

(** A platform call made with the configured key: the URL it is given is
    one of these addresses, it carries the key, and it carries nothing but
    the key and the content type. *)
Definition keyed (apiKey : string) (paymentId adId : value) (ev : Event) : Prop :=
  match ev with
  | EvFetch rq _ =>
      In (fr_url rq) (addresses paymentId adId) /\
      In ("Authorization", "Key " ++ apiKey) (fr_headers rq) /\
      incl (fr_headers rq)
        [("Content-Type", "application/json"); ("Authorization", "Key " ++ apiKey)]
  | _ => True
  end.

Definition off_ledger (ev : Event) : Prop := is_ledger_event ev = false.

(** The number of events of a kind in a trace, and a bound on what a step
    adds. *)
Definition count (P : Event -> bool) (tr : Trace) : nat := length (filter P tr).

Definition within (P : Event -> bool) (n : nat) {A} (m : M A) : Prop :=
  forall h, (count P (snd (m h)) <= n)%nat.

Definition is_session_check (ev : Event) : bool :=
  match ev with EvGetUser _ _ => true | _ => false end.

Definition is_submission (ev : Event) : bool :=
  match ev with EvSubmit _ _ _ => true | _ => false end.

(** The identity call of [auth_verify] (lines 138-143). *)
Definition meRequest (accessToken : string) : FetchReq :=
  {| fr_url := platform ++ "/me"; fr_method := "GET";
     fr_headers := [("Authorization", "Bearer " ++ accessToken)];
     fr_body := None |}.

(** [typeof v === "string" ? v : null]. *)
Definition string_or_null (v : value) : value :=
  if typeof v =? "string" then v else JNull.

Definition verified_response (uid username : value) : Response :=
  jsonResponse (JObj [("success", JBool true);
                      ("data", JObj [("uid", uid); ("username", username)])]) 200.

(** [{error: message}] with a status. *)
Definition error_response (message : string) (st : Z) : Response :=
  jsonResponse (JObj [("error", JStr message)]) st.

(** The answer to a platform call that was not [ok]: the message, the
    platform's status and its parsed body. *)
Definition upstream_failure (message : string) (st : Z) (data : value) : Response :=
  jsonResponse (JObj [("error", JStr message); ("status", JNum (num_of_Z st)); ("data", data)]) 400.


(** The actions with a branch of their own before the payment endpoints
    (lines 133, 173, 197, 213 and 284). *)
Definition named_actions : list string :=
  ["auth_verify"; "ad_verify"; "a2u_config_status"; "a2u_create"; "a2u_incomplete"].

(** The names the dispatch of lines 309-355 knows. *)
Definition payment_actions : list string :=
  ["approve"; "payment_approve"; "a2u_approve"; "complete"; "payment_complete"; "a2u_complete";
   "cancel"; "payment_cancel"; "a2u_cancel"; "get"; "payment_get"; "a2u_get"].

(** The body field an action cannot do without, as lines 134, 174 and 300
    check it. *)
Definition required_argument (action : string) : option string :=
  if action =? "auth_verify" then Some "accessToken"
  else if action =? "ad_verify" then Some "adId"
  else if one_of action named_actions then None
  else Some "paymentId".

(** The status call of [ad_verify] (lines 178-181). *)
Definition adRequest (apiKey adId : string) : FetchReq :=
  {| fr_url := platform ++ "/ads_network/status/" ++ adId; fr_method := "GET";
     fr_headers := [keyHeader apiKey]; fr_body := None |}.

(** The fallback message of a failed payment call (line 363). *)
Definition payment_failure_label (W : World) (st : Z) : string :=
  "Pi payment API call failed" ++ " (status " ++ status_text W st ++ ")".

(** The four flags [a2u_config_status] reports (lines 201-206). *)
Definition config_flags (W : World) : value :=
  JObj [("hasApiKey", JBool true);
        ("hasValidationKey", JBool (env_set W "PI_VALIDATION_KEY"));
        ("hasWalletPrivateSeed", JBool (env_set W "PI_WALLET_PRIVATE_SEED"));
        ("hasWalletPublicAddress", JBool (env_set W "PI_WALLET_PUBLIC_ADDRESS"))].

(** The answer of [ad_verify] to a status the platform returned. *)
Definition ad_response (rewarded : bool) (data : value) : Response :=
  jsonResponse (JObj [("success", JBool true); ("rewarded", JBool rewarded); ("data", data)]) 200.

(** The network of a payment record as [submitA2UTx] reads it (line 70):
    [String(payment.network || "").trim() || "Pi Testnet"]. *)
Definition record_network (W : World) (payment : value) : string :=
  if text_of (record_text W payment "network") =? "" then "Pi Testnet"
  else text_of (record_text W payment "network").

(** The transaction of lines 96-110 for a payment record, the loaded
    account and the base fee. *)
Definition settlement (W : World) (payment : value) (account : Account) (baseFee : number)
  : Transaction :=
  {| tx_source := account;
     tx_fee := Number_toString W baseFee;
     tx_networkPassphrase := record_network W payment;
     tx_memo := text_of (record_text W payment "identifier");
     tx_destination := text_of (record_text W payment "to_address");
     tx_amount := Number_toFixed W (number_of (record_amount W payment)) 7;
     tx_timeout := 180 |}.

(** The five ledger steps of a settlement that reached the submission. *)
Definition settlement_steps (W : World) (payment : value) (signer : string)
    (account : Account) (baseFee : number) (out : exc value) : Trace :=
  let server := horizonUrl (record_network W payment) in
  let tx := settlement W payment account baseFee in
  [EvLoadAccount server signer (inr account); EvFetchBaseFee server (inr baseFee);
   EvBuild tx; EvSign tx signer; EvSubmit server tx out].

(** What a collaborator threw, when the call recorded by the event failed:
    a [fetch] that rejected, or a ledger call that did. *)
Definition failed (ev : Event) : option thrown :=
  match ev with
  | EvFetch _ (Rejected t) => Some t
  | EvLoadAccount _ _ (inl t) => Some t
  | EvFetchBaseFee _ (inl t) => Some t
  | EvSubmit _ _ (inl t) => Some t
  | _ => None
  end.

(** A step that stops at the first failed call, throwing what the
    collaborator threw. *)
Definition halts {A} (m : M A) : Prop :=
  forall h ev t, In ev (snd (m h)) -> failed ev = Some t ->
    fst (m h) = Throw t /\ exists before, snd (m h) = (before ++ [ev])%list.

(** The JSON body of a response, as a client that parses it receives it. *)
Definition response_json (r : Response) : value :=
  match body r with
  | JsonBody json => json
  | TextBody _ => JUndefined
  end.

(** The format the sign-in page demands of a username (its line 207):
    [/^[a-z0-9_]{3,20}$/]. *)
Definition well_formed_name (name : PiAuthPage.jsstring) : Prop :=
  (3 <= length name <= 20)%nat /\ forallb PiAuthPage.name_unit name = true.

(** ** Scenarios

    Concrete worlds on the concrete runtime: one session token is valid, one
    wallet secret decodes, the ledger accepts what it is sent, and the
    platform follows a script. *)

Module Scenario.

Definition session (_ : Trace) (token : string) : AuthResult :=
  if token =? "session-1"
  then {| auth_user := Some "user-1"; auth_error := None |}
  else {| auth_user := None; auth_error := Some "invalid JWT" |}.

Definition keypair (secret : string) : exc string :=
  if secret =? "SWALLET" then inr "GWALLET"
  else inl (JsError "invalid encoded string").

(** The constructor of the session client: it asks for both of its
    arguments. *)
Definition supabase_client (supabaseUrl supabaseKey : option string) : exc unit :=
  match supabaseUrl, supabaseKey with
  | None, _ | Some "", _ => inl (JsError "supabaseUrl is required.")
  | _, None | _, Some "" => inl (JsError "supabaseKey is required.")
  | Some _, Some _ => inr tt
  end.

Definition configured (k : string) : option string :=
  if k =? "SUPABASE_URL" then Some "https://project-1.supabase.co"
  else if k =? "SUPABASE_SERVICE_ROLE_KEY" then Some "service-key-1"
  else if k =? "PI_API_KEY" then Some "key-1"
  else if k =? "PI_WALLET_PRIVATE_SEED" then Some "SWALLET"
  else if k =? "PI_WALLET_PUBLIC_ADDRESS" then Some "GWALLET"
  else None.

Definition no_api_key (k : string) : option string :=
  if k =? "PI_API_KEY" then None else configured k.

Definition no_supabase_url (k : string) : option string :=
  if k =? "SUPABASE_URL" then None else configured k.

Definition accepted (_ : Trace) (_ : string) (_ : Transaction) : exc value :=
  inr (JObj [("hash", JStr "ledger-hash-1")]).

Definition refused (_ : Trace) (_ : string) (_ : Transaction) : exc value :=
  inl (JsError "Request failed with status code 400").

Definition world_with (env : string -> option string)
    (platform : Trace -> FetchReq -> FetchOutcome)
    (submit : Trace -> string -> Transaction -> exc value) : World :=
  {| JSON_parse := Runtime.JSON_parse;
     Number_toString := Runtime.Number_toString;
     String_toNumber := Runtime.String_toNumber;
     Number_toFixed := Runtime.Number_toFixed;
     Deno_env_get := env;
     createClient := supabase_client;
     auth_getUser := session;
     fetch := platform;
     Keypair_fromSecret := keypair;
     Horizon_loadAccount := fun _ _ address =>
       inr {| account_id := address; sequence := "41" |};
     Horizon_fetchBaseFee := fun _ _ => inr (num_of_Z 100000);
     TransactionBuilder_build := fun _ => None;
     Horizon_submitTransaction := submit |}.

Definition world (env : string -> option string)
    (platform : Trace -> FetchReq -> FetchOutcome) : World :=
  world_with env platform accepted.

(** A platform that answers every call with the same text. *)
Definition answers (st : Z) (text : string) : Trace -> FetchReq -> FetchOutcome :=
  fun _ _ => Responded st (Runtime.json_text text).

(** A platform that answers by URL and method; 404 for the rest. *)
Fixpoint script (rules : list (string * string * (Z * string)))
    (h : Trace) (rq : FetchReq) : FetchOutcome :=
  match rules with
  | [] => Responded 404 (Runtime.json_text "{'error':'not found'}")
  | (method, url, (st, text)) :: rest =>
      if (fr_method rq =? method) && (fr_url rq =? url)
      then Responded st (Runtime.json_text text)
      else script rest h rq
  end.

(** A POST with a JSON body, with or without a bearer token. *)
Definition post (authorization : option string) (json : value) : Request :=
  {| req_method := "POST"; req_authorization := authorization; req_json := inr json |}.

Definition bearer : option string := Some "Bearer session-1".

Definition listing_url : string := "https://api.minepi.com/v2/payments/incomplete_server_payments".
Definition create_url : string := "https://api.minepi.com/v2/payments".
Definition payment_url : string := "https://api.minepi.com/v2/payments/P1".
Definition complete_url : string := "https://api.minepi.com/v2/payments/P1/complete".

(** The payout of the scenarios: 5 Pi to user [u1]. *)
Definition payout : value :=
  JObj [("amount", JNum (num_of_Z 5)); ("uid", JStr "u1"); ("memo", JStr "payout");
        ("metadata", JObj [("note", JStr "x")])].

(** A no-break space, U+00A0. *)
Definition nbsp : string := utf8_2 "194" "160".

(** The same payout, for a user whose uid is a no-break space. *)
Definition blank_uid : value :=
  JObj [("amount", JNum (num_of_Z 5)); ("uid", JStr nbsp); ("memo", JStr "payout");
        ("metadata", JObj [("note", JStr "x")])].

(** The same payout, its amount an object that has no primitive value. *)
Definition odd_amount : value :=
  JObj [("amount", JObj [("toString", JNum (num_of_Z 5))]); ("uid", JStr "u1");
        ("memo", JStr "payout"); ("metadata", JObj [("note", JStr "x")])].

Definition no_amount : value :=
  JObj [("uid", JStr "u1"); ("memo", JStr "payout"); ("metadata", JObj [("note", JStr "x")])].

Definition create (payment : value) : value :=
  JObj [("action", JStr "a2u_create"); ("payment", payment)].

Definition complete (action : string) (txid : value) : value :=
  JObj [("action", JStr action); ("paymentId", JStr "P1"); ("txid", txid)].

Definition P1_of_u1 : string :=
  "{'identifier':'P1','user_uid':'u1','amount':5,'memo':'payout','direction':'app_to_user'}".
Definition P9_of_u2 : string :=
  "{'identifier':'P9','user_uid':'u2','amount':2,'memo':'other','direction':'app_to_user'}".

(** The caller's payment as the platform lists it: its uid is followed by
    a no-break space, and the record has a status. *)
Definition P1_as_listed : string :=
  "{'identifier':'P1','user_uid':'u1" ++ nbsp ++ "','amount':5,'memo':'payout','direction':'app_to_user','status':{'developer_completed':false}}".

Definition listed (payments : string) : string :=
  "{'incomplete_server_payments':[" ++ payments ++ "]}".

(** The platform lists one incomplete payment, of another user. *)
Definition other_pending : World :=
  world configured (script [("GET", listing_url, (200%Z, listed P9_of_u2))]).

(** The platform lists one incomplete payment, of the caller. *)
Definition own_pending : World :=
  world configured (script [("GET", listing_url, (200%Z, listed P1_of_u1))]).

(** The platform lists two incomplete payments, the caller's first. *)
Definition own_then_other : World :=
  world configured (script [("GET", listing_url, (200%Z, listed (P1_of_u1 ++ "," ++ P9_of_u2)))]).

(** The platform lists two incomplete payments, the caller's last. *)
Definition other_then_own : World :=
  world configured (script [("GET", listing_url, (200%Z, listed (P9_of_u2 ++ "," ++ P1_of_u1)))]).

(** The listing fails (503) although it names another user's payment; the
    create call succeeds. *)
Definition listing_down : World :=
  world configured (script [("GET", listing_url, (503%Z, listed P9_of_u2));
                            ("POST", create_url, (200%Z, P1_of_u1))]).

(** A platform with one slot: it lists nothing until a create call has
    succeeded, and the created payment from then on. *)
Definition was_created (ev : Event) : bool :=
  match ev with
  | EvFetch rq (Responded st _) =>
      (fr_method rq =? "POST") && (fr_url rq =? create_url) && (st =? 200)%Z
  | _ => false
  end.

Definition one_slot_platform (h : Trace) (rq : FetchReq) : FetchOutcome :=
  if (fr_method rq =? "GET") && (fr_url rq =? listing_url)
  then Responded 200 (Runtime.json_text (listed (if existsb was_created h then P1_as_listed else "")))
  else if (fr_method rq =? "POST") && (fr_url rq =? create_url)
  then Responded 200 (Runtime.json_text P1_of_u1)
  else Responded 404 (Runtime.json_text "{'error':'not found'}").

Definition one_slot : World := world configured one_slot_platform.

(** The platform knows payment [P1] with the given record and completes it. *)
Definition with_payment (env : string -> option string) (record : string) : World :=
  world env (script [("GET", payment_url, (200%Z, record));
                     ("POST", complete_url, (200%Z, "{'identifier':'P1','status':{'developer_completed':true}}"))]).

Definition unsettled_record : string :=
  "{'identifier':'P1','user_uid':'u1','amount':5,'memo':'payout','direction':'app_to_user','from_address':'GWALLET','to_address':'GUSER','network':'Pi Testnet','transaction':null}".

Definition settled_record : string :=
  "{'identifier':'P1','user_uid':'u1','amount':5,'memo':'payout','direction':'app_to_user','from_address':'GWALLET','to_address':'GUSER','network':'Pi Testnet','transaction':{'txid':'T1','_link':'https://api.testnet.minepi.com/transactions/T1'}}".

(** The same settled record, its transaction id with a space on each
    side. *)
Definition padded_record : string :=
  "{'identifier':'P1','user_uid':'u1','amount':5,'memo':'payout','direction':'app_to_user','from_address':'GWALLET','to_address':'GUSER','network':'Pi Testnet','transaction':{'txid':' T1 '}}".

Definition padded : World := with_payment configured padded_record.

(** The platform variables of the session client are not all set. *)
Definition clientless : World := with_payment no_supabase_url settled_record.

Definition unsettled : World := with_payment configured unsettled_record.

(** The same, with a ledger that refuses the transaction. *)
Definition ledger_refuses : World :=
  world_with configured
    (script [("GET", payment_url, (200%Z, unsettled_record));
             ("POST", complete_url, (200%Z, "{'identifier':'P1'}"))])
    refused.
Definition settled : World := with_payment configured settled_record.
Definition keyless : World := with_payment no_api_key unsettled_record.

(** Records handed to the submitter. *)
Definition record_to_settle : value :=
  JObj [("identifier", JStr "P1"); ("amount", JNum (num_of_Z 5));
        ("from_address", JStr "GWALLET"); ("to_address", JStr "GUSER");
        ("network", JStr "Pi Testnet"); ("direction", JStr "app_to_user")].


Definition record_without_identifier : value :=
  JObj [("amount", JNum (num_of_Z 5));
        ("from_address", JStr "GWALLET"); ("to_address", JStr "GUSER");
        ("network", JStr "Pi Testnet"); ("direction", JStr "app_to_user")].

(** The calls of a run, by name. *)
Definition event_name (ev : Event) : string :=
  match ev with
  | EvGetUser _ _ => "getUser"
  | EvFetch rq _ => fr_method rq ++ " " ++ fr_url rq
  | EvLoadAccount _ _ _ => "loadAccount"
  | EvFetchBaseFee _ _ => "fetchBaseFee"
  | EvBuild _ => "build"
  | EvSign _ _ => "sign"
  | EvSubmit _ _ (inr _) => "submitTransaction: accepted"
  | EvSubmit _ _ (inl _) => "submitTransaction: refused"
  end.

End Scenario.

(** ** Further scenarios *)

Module Cases.

Import Scenario.

Definition me_url : string := "https://api.minepi.com/v2/me".
Definition ad_url : string := "https://api.minepi.com/v2/ads_network/status/ad-1".

(** The platform knows the access token's user; no platform key is set. *)
Definition identity : World :=
  world no_api_key (script [("GET", me_url, (200%Z, "{'uid':'pi-1','username':'ann'}"))]).

Definition verify : Request :=
  post None (JObj [("action", JStr "auth_verify"); ("accessToken", JStr "tok-1")]).

(** The platform granted the reward of ad [ad-1]. *)
Definition ads : World :=
  world configured
    (script [("GET", ad_url, (200%Z, "{'identifier':'ad-1','mediator_ack_status':'granted'}"))]).

Definition ad_check : Request :=
  post bearer (JObj [("action", JStr "ad_verify"); ("adId", JStr "ad-1")]).

(** Requests about payment [P1], and requests that name no payment. *)
Definition get_P1 : Request := post bearer (complete "get" JUndefined).
Definition complete_P1 : Request := post bearer (complete "complete" JUndefined).
Definition settle_P1 : Request := post bearer (complete "a2u_complete" JUndefined).
Definition refund_P1 : Request := post bearer (complete "refund" JUndefined).
Definition refund_nothing : Request := post bearer (JObj [("action", JStr "refund")]).
Definition config_check : Request := post bearer (JObj [("action", JStr "a2u_config_status")]).
Definition list_pending : Request := post bearer (JObj [("action", JStr "a2u_incomplete")]).
Definition empty_body : Request := post bearer (JObj []).

(** A payment from a user to the app, not settled. *)
Definition incoming_record : string :=
  "{'identifier':'P1','user_uid':'u1','amount':5,'memo':'order','direction':'user_to_app','transaction':null}".
Definition incoming : World := with_payment configured incoming_record.

(** Everything configured but the wallet seed. *)
Definition no_seed (k : string) : option string :=
  if k =? "PI_WALLET_PRIVATE_SEED" then None else configured k.
Definition seedless : World := with_payment no_seed unsettled_record.

(** A ledger that accepts the transaction without naming it. *)
Definition unnamed (_ : Trace) (_ : string) (_ : Transaction) : exc value :=
  inr (JObj [("successful", JBool true)]).
Definition unnamed_ledger : World :=
  world_with configured (script [("GET", payment_url, (200%Z, unsettled_record))]) unnamed.

(** A platform that cannot be reached. *)
Definition unreachable : thrown := JsError "error sending request: connection refused".
Definition offline : World := world configured (fun _ _ => Rejected unreachable).

(** The record fetch and the ledger steps of settling [P1] on the test
    network. *)
Definition fetched_P1 : Event :=
  EvFetch (recordRequest "key-1" "P1") (Responded 200 (Runtime.json_text unsettled_record)).

Definition wallet_account : Account := {| account_id := "GWALLET"; sequence := "41" |}.

(** A [profiles] table in which the first two names asked about are
    taken, and a browser whose [trim] and [toLowerCase] find nothing to
    change. *)
Definition two_taken (asked : list PiAuthPage.jsstring) (_ _ : PiAuthPage.jsstring)
  : PiAuthPage.Lookup :=
  if (length asked <? 2)%nat then PiAuthPage.Existing else PiAuthPage.NoRow.

Definition unchanged (s : PiAuthPage.jsstring) : PiAuthPage.jsstring := s.

(** A [profiles] table in which every name asked about is taken. *)
Definition all_taken (_ : list PiAuthPage.jsstring) (_ _ : PiAuthPage.jsstring)
  : PiAuthPage.Lookup := PiAuthPage.Existing.

(** A request without a session, and one without an action, to a gateway
    whose session client cannot be built. *)
Definition sign_in_unbuilt : World :=
  world no_supabase_url (script [("GET", me_url, (200%Z, "{'uid':'pi-1','username':'ann'}"))]).

(** A record without identifier whose network is an object that has no
    primitive value. *)
Definition odd_network_record : value :=
  JObj [("to_address", JStr "GUSER"); ("from_address", JStr "GWALLET");
        ("network", JObj [("toString", JBool true)]); ("amount", JNum (num_of_Z 5))].

(** A record whose source address ends in a no-break space. *)
Definition spaced_record : string :=
  "{'identifier':'P1','user_uid':'u1','amount':5,'memo':'payout','direction':'app_to_user','from_address':'GWALLET" ++ nbsp ++ "','to_address':'GUSER','network':'Pi Testnet','transaction':null}".
Definition spaced : World := with_payment configured spaced_record.

End Cases.

(** ** Running the handler *)

(** The laws of the handler's control flow. *)

Lemma bind_ret {A B} (a : A) (k : A -> M B) h : bind (ret a) k h = k a h.
Proof. unfold bind, ret. cbn. destruct (k a h); reflexivity. Qed.

Lemma bind_return {A B} r (k : A -> M B) : bind (return_ r) k = return_ r.
Proof. reflexivity. Qed.

Lemma bind_throw {A B} t (k : A -> M B) : bind (throw t) k = throw t.
Proof. reflexivity. Qed.

Lemma bind_assoc {A B C} (m : M A) (f : A -> M B) (g : B -> M C) h :
  bind (bind m f) g h = bind m (fun x => bind (f x) g) h.
Proof.
  unfold bind. destruct (m h) as [[a|r|t] t1]; try reflexivity.
  destruct (f a _) as [[b|r|t] t2]; try reflexivity.
  rewrite rev_app_distr, <- app_assoc.
  destruct (g b _) as [o t3]. now rewrite app_assoc.
Qed.

Lemma bind_call {A B} (ask : Trace -> A) ev (k : A -> M B) h :
  bind (call ask ev) k h =
  (fst (k (ask h) (ev (ask h) :: h)), ev (ask h) :: snd (k (ask h) (ev (ask h) :: h))).
Proof. unfold bind, call. cbn. destruct (k _ _); reflexivity. Qed.

Lemma bind_emit {B} ev (k : unit -> M B) h :
  bind (emit ev) k h = (fst (k tt (ev :: h)), ev :: snd (k tt (ev :: h))).
Proof. unfold bind, emit. cbn. destruct (k _ _); reflexivity. Qed.

Lemma bind_ext {A B} (m : M A) (f g : A -> M B) h :
  (forall a h', f a h' = g a h') -> bind m f h = bind m g h.
Proof.
  intros E. unfold bind. destruct (m h) as [[a|r|t] t1]; try reflexivity. now rewrite E.
Qed.

Lemma bind_map {A B} (m : M A) (f : A -> B) h :
  bind m (fun a => ret (f a)) h =
  (match fst (m h) with
   | Val a => Val (f a)
   | Return r => Return r
   | Throw t => Throw t
   end, snd (m h)).
Proof.
  unfold bind, ret. destruct (m h) as [[a|r|t] t1]; cbn; try reflexivity.
  now rewrite app_nil_r.
Qed.

Ltac run_pure :=
  repeat (progress (rewrite ?bind_assoc, ?bind_ret, ?bind_return, ?bind_throw; cbn beta;
                    repeat match goal with H : _ = _ |- _ => rewrite H end;
                    cbn [negb orb andb lift])).

(** ** Characters and white space *)

Lemma characters_concat s : String.concat "" (characters s) = s.
Proof.
  induction s as [|c s IH]; [reflexivity|]. cbn [characters].
  destruct (characters s) as [|[|c' k] rest]; cbn in *; try (now rewrite <- IH).
  destruct (is_continuation c'); cbn; rewrite <- IH; destruct rest; reflexivity.
Qed.

Lemma characters_nonempty s : Forall (fun c => c <> "") (characters s).
Proof.
  induction s as [|c s IH]; [constructor|]. cbn [characters].
  destruct (characters s) as [|[|c' k] rest]; try (constructor; [discriminate|exact IH]).
  inversion IH; subst. destruct (is_continuation c'); repeat constructor; auto; discriminate.
Qed.

Lemma concat_empty cs :
  Forall (fun c => c <> "") cs -> String.concat "" cs = "" -> cs = [].
Proof.
  intros H. destruct H as [|c cs Hc Hcs]; [reflexivity|].
  destruct c; [contradiction|]. destruct cs; discriminate.
Qed.

Lemma dropSpaces_incl cs : incl (dropSpaces cs) cs.
Proof.
  induction cs as [|c cs IH]; [apply incl_nil_l|]. cbn [dropSpaces].
  destruct (is_space c); [now apply incl_tl|apply incl_refl].
Qed.

Lemma dropSpaces_nil cs : dropSpaces cs = [] <-> forallb is_space cs = true.
Proof.
  induction cs as [|c cs IH]; [now split|]. cbn [dropSpaces forallb].
  destruct (is_space c); [exact IH|split; discriminate].
Qed.

Lemma forallb_rev {A} (p : A -> bool) l : forallb p (rev l) = forallb p l.
Proof.
  induction l as [|x l IH]; [reflexivity|]. cbn.
  rewrite forallb_app, IH. cbn. rewrite andb_true_r. apply andb_comm.
Qed.

Lemma dropSpaces_head cs c rest : dropSpaces cs = c :: rest -> is_space c = false.
Proof.
  induction cs as [|c' cs IH]; [discriminate|]. cbn [dropSpaces].
  destruct (is_space c') eqn:E; [exact IH|]. now intros [= <- _].
Qed.

(** What [trim] leaves is empty exactly when the string is white space
    only. *)
Lemma trim_blank s : (trim s =? "") = blank s.
Proof.
  unfold trim, blank.
  destruct (forallb is_space (characters s)) eqn:Hb.
  - apply dropSpaces_nil in Hb. rewrite Hb. reflexivity.
  - apply String.eqb_neq. intros He. apply concat_empty in He.
    + apply (f_equal (@rev string)) in He. rewrite rev_involutive in He. cbn [rev] in He.
      apply dropSpaces_nil in He. rewrite forallb_rev in He.
      destruct (dropSpaces (characters s)) as [|c rest] eqn:Hd.
      * apply dropSpaces_nil in Hd. congruence.
      * apply dropSpaces_head in Hd. cbn [forallb] in He. rewrite Hd in He. discriminate.
    + rewrite Forall_forall. intros c Hin. apply in_rev, dropSpaces_incl in Hin.
      apply in_rev, dropSpaces_incl in Hin.
      pose proof (characters_nonempty s) as Hne. rewrite Forall_forall in Hne. now apply Hne.
Qed.

Section Runs.

Variable W : World.

Lemma session_valid_inv req h :
  session_valid W req h = true -> client W = inr tt /\ session_accepted W req h = true.
Proof.
  unfold session_valid, client_built. intros H. apply andb_prop in H as [Hc Hs].
  split; [|exact Hs]. destruct (client W) as [t|[]]; [discriminate|reflexivity].
Qed.

Lemma do_fetch_run {B} rq (k : Z * string -> M B) h :
  bind (do_fetch W rq) k h =
  match fetch W h rq with
  | Responded st text =>
      (fst (k (st, text) (EvFetch rq (Responded st text) :: h)),
       EvFetch rq (Responded st text) :: snd (k (st, text) (EvFetch rq (Responded st text) :: h)))
  | Rejected t => (Throw t, [EvFetch rq (Rejected t)])
  end.
Proof.
  unfold do_fetch, bind, call. cbn.
  destruct (fetch W h rq) as [st text|t]; cbn; [|reflexivity].
  destruct (k _ _); reflexivity.
Qed.

Lemma authenticate_run req h :
  authenticate W req h =
  if session_accepted W req h then (Val tt, [session_event W req h])
  else (Return (jsonResponse
                  (JObj [("error", JStr (if has_bearer req then "Unauthorized"
                                         else "Missing auth token"))]) 401),
        if has_bearer req then [session_event W req h] else []).
Proof.
  unfold authenticate, session_accepted, session_event, bearer_token, has_bearer.
  destruct (req_authorization req) as [hd|]; [|reflexivity].
  destruct (startsWith "Bearer " hd); [|reflexivity].
  cbn [negb andb]. rewrite bind_call.
  destruct (auth_error _); [reflexivity|]. destruct (auth_user _); reflexivity.
Qed.

(** A request with an action: the method is not the pre-flight one and the
    body is an object carrying the action. *)
Lemma request_action_inv req a :
  request_action req = Some a ->
  (req_method req =? "OPTIONS") = false /\
  req_json req = inr (request_json req) /\
  nullish (request_json req) = false /\
  field (request_json req) "action" = JStr a /\ a <> "".
Proof.
  unfold request_action, request_json.
  destruct (req_method req =? "OPTIONS"); [discriminate|].
  destruct (req_json req) as [|json]; [discriminate|].
  unfold not_a_name.
  destruct (field json "action") as [| | | |s| |] eqn:Hf; cbn;
    try discriminate; try (rewrite orb_true_r; discriminate).
  destruct (s =? "") eqn:Hs; cbn; [discriminate|].
  intros [= <-]. repeat split; try reflexivity.
  - destruct json; cbn in Hf; try discriminate; reflexivity.
  - now apply String.eqb_neq.
Qed.

(** The handler up to the session check, for every action but
    [auth_verify]. *)
Lemma serve_session req h a :
  request_action req = Some a -> a <> "auth_verify" ->
  serve W req h =
  if session_valid W req h
  then (respond (fst (actions W (request_json req) (session_event W req h :: h))),
        session_event W req h :: snd (actions W (request_json req) (session_event W req h :: h)))
  else match client W with
       | inl t => (caught t, [])
       | inr _ =>
           (jsonResponse
              (JObj [("error", JStr (if has_bearer req then "Unauthorized"
                                     else "Missing auth token"))]) 401,
            if has_bearer req then [session_event W req h] else [])
       end.
Proof.
  intros Ha Hne. destruct (request_action_inv _ _ Ha) as (Hm & Hj & Hn & Hf & He).
  unfold serve, handler, session_valid, client_built. rewrite Hm. fold (client W).
  destruct (client W) as [t|[]]; cbn [lift converts andb].
  { rewrite bind_throw. reflexivity. }
  rewrite bind_ret, Hj. cbn [lift]. rewrite bind_ret, Hn, bind_ret.
  unfold not_a_name. rewrite Hf. cbn [truthy typeof is_str].
  apply String.eqb_neq in He, Hne. rewrite He, Hne. cbn [negb orb].
  change ("string" =? "string") with true. cbn [negb].
  unfold bind at 1. rewrite authenticate_run.
  destruct (session_accepted W req h); [|reflexivity].
  cbn [rev app]. destruct (actions W _ _); reflexivity.
Qed.

Lemma truthy_not_nullish v : truthy v = true -> nullish v = false.
Proof. destruct v; cbn; congruence. Qed.

Lemma a2u_create_invalid k payment h :
  converts (payload_amount W payment) = true ->
  valid_payload W payment = false ->
  exists r, a2u_create W k payment h = (Return r, []) /\ status r = 400%Z.
Proof.
  unfold valid_payload, a2u_create, payload_amount. intros Hc Hv.
  destruct (truthy payment) eqn:Ht; cbn [negb orb andb] in *; [|now eexists; split].
  destruct (typeof payment =? "object") eqn:Hty; cbn [negb orb andb] in *; [|now eexists; split].
  unfold prop. rewrite (truthy_not_nullish _ Ht). cbn [lift]. rewrite !bind_ret.
  destruct (Number_ W (field payment "amount")) as [t|amount]; [discriminate|].
  cbn [lift converts number_of andb] in *. rewrite !bind_ret.
  destruct (Number_isFinite _); cbn [negb orb andb] in *; [|now eexists; split].
  destruct (num_le_zero _); cbn [negb orb andb] in *; [now eexists; split|].
  destruct (trimmed_string (field payment "uid") =? ""); cbn [negb orb andb] in *; [now eexists; split|].
  destruct (trimmed_string (field payment "memo") =? ""); cbn [negb orb andb] in *; [now eexists; split|].
  rewrite ?bind_ret.
  destruct (truthy (field payment "metadata")); cbn [negb orb andb] in *; [|now eexists; split].
  destruct (typeof (field payment "metadata") =? "object"); cbn [negb orb andb] in *; [|now eexists; split].
  destruct (Array_isArray _); cbn [negb orb andb] in *; [now eexists; split|]. discriminate.
Qed.

(** A payload that does not pass stops the action before the listing. *)
Lemma a2u_create_stops k payment h :
  valid_payload W payment = false -> snd (a2u_create W k payment h) = [].
Proof.
  intros Hv. destruct (converts (payload_amount W payment)) eqn:Hc.
  - destruct (a2u_create_invalid k payment h Hc Hv) as (r & -> & _). reflexivity.
  - unfold a2u_create, payload_amount in *.
    destruct (negb (truthy payment) || negb (typeof payment =? "object")); [reflexivity|].
    unfold prop. destruct (nullish payment); cbn [lift]; [now rewrite bind_throw|].
    rewrite bind_ret.
    destruct (Number_ W (field payment "amount")); [|discriminate].
    cbn [lift]. now rewrite bind_throw.
Qed.

Lemma upstreamError_run {A} label st data h :
  (exists m, @upstreamError W A label st data h =
             (Return (jsonResponse (JObj [("error", JStr m);
                                          ("status", JNum (num_of_Z st));
                                          ("data", data)]) 400), [])) \/
  (exists t, @upstreamError W A label st data h = (Throw t, [])).
Proof.
  unfold upstreamError, bind, lift.
  destruct (getPiErrorMessage data _) as [t|m]; cbn.
  - right. eexists; reflexivity.
  - left. eexists; reflexivity.
Qed.

Lemma caught_status t : status (caught t) = 500%Z.
Proof. destruct t; reflexivity. Qed.

Lemma caught_field t k : k <> "error" -> response_field (caught t) k = JUndefined.
Proof.
  intros Hk. apply String.eqb_neq in Hk.
  destruct t; unfold response_field; cbn; rewrite Hk; reflexivity.
Qed.

Lemma create_payment_run k payment h :
  exists o,
    create_payment W k payment h =
      (o, [EvFetch (createRequest k payment) (fetch W h (createRequest k payment))]) /\
    (forall st text, fetch W h (createRequest k payment) = Responded st text -> ok st = true ->
       o = Return (created_response (parseJson W text))) /\
    (status (respond o) = 200 \/ status (respond o) = 400 \/ status (respond o) = 500)%Z /\
    response_field (respond o) "reusedIncomplete" = JUndefined.
Proof.
  unfold create_payment. rewrite do_fetch_run.
  destruct (fetch W h (createRequest k payment)) as [st text|t] eqn:Hf.
  - destruct (ok st) eqn:Hok; cbn [negb].
    + eexists; split; [reflexivity|]. split; [|split; [left; reflexivity|reflexivity]].
      intros ? ? [= <- <-] _. reflexivity.
    + destruct (@upstreamError_run Response "Pi A2U create failed" st (parseJson W text)
                  (EvFetch (createRequest k payment) (Responded st text) :: h))
        as [(m & ->)|(t & ->)].
      * eexists; split; [reflexivity|].
        split; [|split; [right; left; reflexivity|reflexivity]].
        intros ? ? [= <- <-]. congruence.
      * eexists; split; [reflexivity|].
        split; [|split; [right; right; apply caught_status|now apply caught_field]].
        intros ? ? [= <- <-]. congruence.
  - eexists; split; [reflexivity|]. split; [discriminate|].
    split; [right; right; apply caught_status|now apply caught_field].
Qed.

Lemma a2u_create_valid k payment h :
  valid_payload W payment = true ->
  a2u_create W k payment h =
  match fetch W h (incompleteRequest k) with
  | Rejected t => (Throw t, [EvFetch (incompleteRequest k) (Rejected t)])
  | Responded st text =>
      let ev := EvFetch (incompleteRequest k) (Responded st text) in
      let create := create_payment W k payment (ev :: h) in
      if ok st then
        match prop (parseJson W text) "incomplete_server_payments" with
        | inl t => (Throw t, [ev])
        | inr _ =>
            match pending_list W text with
            | first :: _ =>
                match pendingUid W first with
                | inl t => (Throw t, [ev])
                | inr user =>
                    (Return (if negb (user =? "") && negb (user =? payload_uid payment)
                             then conflict_response
                             else reused_response (asRecord first)), [ev])
                end
            | [] => (fst create, ev :: snd create)
            end
        end
      else (fst create, ev :: snd create)
  end.
Proof.
  unfold valid_payload, a2u_create, payload_amount. intros Hv.
  repeat (apply andb_prop in Hv; destruct Hv as [Hv ?]).
  repeat match goal with H : negb _ = true |- _ => apply negb_true_iff in H end.
  unfold prop at 1 2 3 4. rewrite (truthy_not_nullish _ Hv).
  run_pure.
  destruct (Number_ W (field payment "amount")) as [t|amount]; [discriminate|].
  cbn [number_of] in *.
  run_pure. rewrite do_fetch_run.
  destruct (fetch W h (incompleteRequest k)) as [st text|t]; [|reflexivity].
  cbn iota zeta beta.
  destruct (ok st).
  2:{ rewrite bind_ret. reflexivity. }
  unfold pending_list, prop.
  destruct (nullish (parseJson W text)); cbn [lift].
  { rewrite !bind_throw. reflexivity. }
  rewrite bind_assoc, bind_ret. cbn beta.
  destruct (match field (parseJson W text) "incomplete_server_payments" with
            | JArr items => items | _ => [] end) as [|first rest].
  - rewrite bind_ret. reflexivity.
  - unfold pendingUid, payload_uid, conflict_response, reused_response.
    destruct (string_or_empty W (field (asRecord first) "user_uid")) as [t|user]; cbn [lift].
    { rewrite !bind_throw. reflexivity. }
    rewrite bind_assoc, bind_ret. cbn beta.
    destruct (negb _ && negb _); rewrite bind_return; reflexivity.
Qed.

Lemma api_key_inv k : api_key W = Some k -> Deno_env_get W "PI_API_KEY" = Some k /\ (k =? "") = false.
Proof.
  unfold api_key. destruct (Deno_env_get W "PI_API_KEY") as [k'|]; [|discriminate].
  destruct (k' =? "") eqn:E; [discriminate|]. intros [= <-]. auto.
Qed.

Lemma actions_no_key json h :
  api_key W = None ->
  actions W json h =
  (Return (jsonResponse (JObj [("error", JStr "PI_API_KEY is not configured")]) 500), []).
Proof.
  unfold api_key, actions. destruct (Deno_env_get W "PI_API_KEY") as [k'|]; [|reflexivity].
  destruct (k' =? ""); [reflexivity|discriminate].
Qed.

Lemma actions_a2u_create json h k :
  api_key W = Some k -> field json "action" = JStr "a2u_create" ->
  actions W json h = a2u_create W k (field json "payment") h.
Proof.
  intros Hk Ha. apply api_key_inv in Hk as [Hk Hne]. unfold actions. rewrite Hk, Hne, Ha.
  reflexivity.
Qed.

Lemma actions_payment json h k a :
  api_key W = Some k -> field json "action" = JStr a ->
  one_of a ["approve"; "payment_approve"; "a2u_approve"; "complete"; "payment_complete";
            "a2u_complete"; "cancel"; "payment_cancel"; "a2u_cancel";
            "get"; "payment_get"; "a2u_get"] = true ->
  actions W json h = payment_action W a k (field json "paymentId") (field json "txid") h.
Proof.
  intros Hk Ha Hone. apply api_key_inv in Hk as [Hk Hne]. unfold actions. rewrite Hk, Hne, Ha.
  cbn [is_str str_of].
  unfold one_of in Hone. cbn [existsb] in Hone.
  repeat (apply orb_prop in Hone; destruct Hone as [Hone|Hone];
          [apply String.eqb_eq in Hone; subst a; reflexivity|]).
  discriminate.
Qed.

(** The calls of a request whose session or key check fails. *)
Lemma serve_gated req h a :
  request_action req = Some a -> a <> "auth_verify" ->
  (session_valid W req h = false /\
   (status (response W req h) = 401%Z \/ status (response W req h) = 500%Z) /\
   forallb (fun ev => negb (is_upstream ev)) (calls W req h) = true) \/
  (session_valid W req h = true /\ api_key W = None /\ status (response W req h) = 500%Z /\
   calls W req h = [session_event W req h]) \/
  (session_valid W req h = true /\ exists k, api_key W = Some k /\
   response W req h = respond (fst (actions W (request_json req) (session_event W req h :: h))) /\
   calls W req h = session_event W req h :: snd (actions W (request_json req) (session_event W req h :: h))).
Proof.
  intros Ha Hne. unfold response, calls. rewrite (serve_session _ _ _ Ha Hne).
  destruct (session_valid W req h).
  - right. destruct (api_key W) as [k|] eqn:Hk.
    + right. split; [reflexivity|]. exists k. auto.
    + left. rewrite (actions_no_key _ _ Hk). auto.
  - left. split; [reflexivity|]. destruct (client W) as [t|[]]; cbn [fst snd].
    + split; [right; apply caught_status|reflexivity].
    + split; [now left|]. destruct (has_bearer req); reflexivity.
Qed.

(** A listing call among the calls of an [a2u_create] request: the session
    and the key were accepted, the payload is valid, and the listing is the
    first platform call. *)
Lemma listing_inv req h k out :
  request_action req = Some "a2u_create" ->
  In (EvFetch (incompleteRequest k) out) (calls W req h) ->
  session_valid W req h = true /\ api_key W = Some k /\
  valid_payload W (request_field req "payment") = true /\
  fetch W (session_event W req h :: h) (incompleteRequest k) = out /\
  response W req h =
    respond (fst (a2u_create W k (request_field req "payment") (session_event W req h :: h))) /\
  calls W req h =
    session_event W req h
    :: snd (a2u_create W k (request_field req "payment") (session_event W req h :: h)).
Proof.
  intros Ha Hin.
  destruct (request_action_inv _ _ Ha) as (_ & _ & _ & Hf & _).
  destruct (serve_gated req h "a2u_create" Ha ltac:(discriminate))
    as [(_ & _ & Hall)|[(_ & _ & _ & Hc)|(Hs & k' & Hk & Hr & Hc)]].
  - rewrite forallb_forall in Hall. apply Hall in Hin. discriminate.
  - rewrite Hc in Hin. destruct Hin as [Hin|[]]. discriminate.
  - rewrite (actions_a2u_create _ _ _ Hk Hf) in Hr, Hc.
    fold (request_field req "payment") in Hr, Hc.
    assert (Hin' := Hin). rewrite Hc in Hin'. destruct Hin' as [Hin'|Hin']; [discriminate|].
    destruct (valid_payload W (request_field req "payment")) eqn:Hv.
    2:{ rewrite (a2u_create_stops k' _ (session_event W req h :: h) Hv) in Hin'.
        destruct Hin'. }
    rewrite (a2u_create_valid _ _ _ Hv) in Hin'.
    destruct (create_payment_run k' (request_field req "payment")
                (EvFetch (incompleteRequest k') (fetch W (session_event W req h :: h) (incompleteRequest k'))
                   :: session_event W req h :: h)) as (o & Hcr & _).
    assert (k = k' /\ fetch W (session_event W req h :: h) (incompleteRequest k') = out) as [-> Hout].
    { destruct (fetch W (session_event W req h :: h) (incompleteRequest k')) as [st text|t].
      - cbn zeta in Hin'. rewrite Hcr in Hin'. cbn [fst snd] in Hin'.
        assert (In (EvFetch (incompleteRequest k) out)
                  [EvFetch (incompleteRequest k') (Responded st text);
                   EvFetch (createRequest k' (request_field req "payment"))
                     (fetch W (EvFetch (incompleteRequest k') (Responded st text)
                               :: session_event W req h :: h)
                        (createRequest k' (request_field req "payment")))]) as Hin2.
        { destruct (ok st); [|exact Hin'].
          destruct (prop _ _); [destruct Hin' as [<-|[]]; now left|].
          destruct (pending_list W text) as [|first rest]; [exact Hin'|].
          destruct (pendingUid W first); destruct Hin' as [<-|[]]; now left. }
        destruct Hin2 as [Heq|[Heq|[]]]; [|discriminate]. injection Heq as Hk' Ho.
        + split; [now symmetry|exact Ho].
      - destruct Hin' as [Heq|[]]. injection Heq as Hk' Ho.
        split; [now symmetry|exact Ho]. }
    repeat split; auto.
Qed.

(** ** The session gate and [a2u_create] *)

(** C9, amended.  When the session client can be built, a request with
    an action other than [auth_verify] whose session check fails (no
    [Authorization] header, no bearer prefix, or a token that [getUser]
    does not accept) is answered 401, and no call to the platform or to
    the ledger is made for it. *)
Theorem unauthenticated_request_is_rejected req h a :
  request_action req = Some a -> a <> "auth_verify" ->
  client_built W = true ->
  session_accepted W req h = false ->
  response W req h =
    jsonResponse (JObj [("error", JStr (if has_bearer req then "Unauthorized"
                                        else "Missing auth token"))]) 401 /\
  status (response W req h) = 401%Z /\
  calls W req h = (if has_bearer req then [session_event W req h] else []) /\
  forallb (fun ev => negb (is_upstream ev)) (calls W req h) = true.
Proof.
  intros Ha Hne Hc Hs. unfold response, calls.
  rewrite (serve_session _ _ _ Ha Hne). unfold session_valid, client_built in *. rewrite Hs.
  destruct (client W) as [t|[]]; [discriminate|].
  cbn [converts andb fst snd]. repeat split. destruct (has_bearer req); reflexivity.
Qed.

(** C4, amended.  An [a2u_create] request with a valid session, when the
    platform key is configured, whose amount has a number ([Number] does
    not throw on it) and whose payload fails a check (amount not finite or
    not positive, uid or memo empty after trimming, metadata missing, not
    an object, or an array) is answered 400, and no call to the platform
    or to the ledger is made: the session check is the only call. *)
Theorem a2u_create_rejects_invalid_payload req h k :
  request_action req = Some "a2u_create" ->
  session_valid W req h = true ->
  api_key W = Some k ->
  converts (payload_amount W (request_field req "payment")) = true ->
  valid_payload W (request_field req "payment") = false ->
  status (response W req h) = 400%Z /\
  calls W req h = [session_event W req h] /\
  forallb (fun ev => negb (is_upstream ev)) (calls W req h) = true.
Proof.
  intros Ha Hs Hk Hc Hv.
  destruct (request_action_inv _ _ Ha) as (_ & _ & _ & Hf & _).
  unfold response, calls. rewrite (serve_session _ _ _ Ha ltac:(discriminate)), Hs.
  rewrite (actions_a2u_create _ _ _ Hk Hf).
  destruct (a2u_create_invalid k _ (session_event W req h :: h) Hc Hv) as (r & Hrun & Hst).
  fold (request_field req "payment"). rewrite Hrun. cbn [fst snd respond].
  repeat split; assumption.
Qed.

(** What the pending check makes of a listing that succeeded and is not
    empty. *)
Lemma a2u_create_pending req h k st text first rest user :
  request_action req = Some "a2u_create" ->
  In (EvFetch (incompleteRequest k) (Responded st text)) (calls W req h) ->
  ok st = true ->
  pending_list W text = first :: rest ->
  pendingUid W first = inr user ->
  response W req h =
    (if negb (user =? "") && negb (user =? payload_uid (request_field req "payment"))
     then conflict_response
     else reused_response (asRecord first)) /\
  calls W req h =
    [session_event W req h; EvFetch (incompleteRequest k) (Responded st text)].
Proof.
  intros Ha Hin Hok Hl Hu.
  destruct (listing_inv _ _ _ _ Ha Hin) as (_ & _ & Hv & Hf & Hr & Hc).
  rewrite Hr, Hc, (a2u_create_valid _ _ _ Hv), Hf. cbn zeta. rewrite Hok, Hl, Hu.
  assert (nullish (parseJson W text) = false) as Hn.
  { unfold pending_list in Hl. destruct (parseJson W text); try discriminate; reflexivity. }
  unfold prop. rewrite Hn. split; reflexivity.
Qed.

(** C2, amended.  For an authenticated [a2u_create] request with a valid
    payload: if the listing of incomplete payments succeeds and the first
    payment it lists has a user (its [user_uid], converted to a string and
    trimmed) that is not empty and is not the trimmed uid of the request,
    the answer is 409, the listing was the last call, and no POST is made
    to the platform, so nothing is created. *)
Theorem a2u_create_conflict req h k st text first rest user :
  request_action req = Some "a2u_create" ->
  session_valid W req h = true ->
  valid_payload W (request_field req "payment") = true ->
  In (EvFetch (incompleteRequest k) (Responded st text)) (calls W req h) ->
  ok st = true ->
  pending_list W text = first :: rest ->
  pendingUid W first = inr user ->
  user <> "" ->
  user <> payload_uid (request_field req "payment") ->
  response W req h = conflict_response /\
  status (response W req h) = 409%Z /\
  calls W req h =
    [session_event W req h; EvFetch (incompleteRequest k) (Responded st text)] /\
  (forall rq out, In (EvFetch rq out) (calls W req h) -> fr_method rq = "GET") /\
  (forall out, ~ In (EvFetch (createRequest k (request_field req "payment")) out)
                    (calls W req h)).
Proof.
  intros Ha _ _ Hin Hok Hl Hu He Hne.
  destruct (a2u_create_pending _ _ _ _ _ _ _ _ Ha Hin Hok Hl Hu) as [Hr Hc].
  apply String.eqb_neq in He, Hne. rewrite He, Hne in Hr. cbn in Hr.
  rewrite Hr, Hc. repeat split.
  - intros rq out [H|[H|[]]]; [discriminate|]. now injection H as <- _.
  - intros out [H|[H|[]]]; discriminate.
Qed.

Lemma field_asRecord v k : field (asRecord v) k = field v k.
Proof.
  unfold asRecord. destruct v; try reflexivity.
  - destruct b; reflexivity.
  - destruct (truthy (JNum n)); reflexivity.
  - destruct (truthy (JStr s)); reflexivity.
Qed.

(** A create call among the calls of an [a2u_create] request that the
    platform answered with success: its answer is the response's data. *)
Lemma create_inv req h k payment st text :
  request_action req = Some "a2u_create" ->
  In (EvFetch (createRequest k payment) (Responded st text)) (calls W req h) ->
  ok st = true ->
  response W req h = created_response (parseJson W text).
Proof.
  intros Ha Hin Hok.
  destruct (request_action_inv _ _ Ha) as (_ & _ & _ & Hf & _).
  destruct (serve_gated req h "a2u_create" Ha ltac:(discriminate))
    as [(_ & _ & Hall)|[(_ & _ & _ & Hc)|(Hs & k' & Hk & Hr & Hc)]].
  - rewrite forallb_forall in Hall. apply Hall in Hin. discriminate.
  - rewrite Hc in Hin. destruct Hin as [Hin|[]]. discriminate.
  - rewrite (actions_a2u_create _ _ _ Hk Hf) in Hr, Hc.
    fold (request_field req "payment") in Hr, Hc.
    rewrite Hc in Hin. destruct Hin as [Hin|Hin]; [discriminate|]. rewrite Hr. clear Hr Hc.
    destruct (valid_payload W (request_field req "payment")) eqn:Hv.
    2:{ rewrite (a2u_create_stops k' _ (session_event W req h :: h) Hv) in Hin.
        destruct Hin. }
    rewrite (a2u_create_valid _ _ _ Hv) in *.
    destruct (fetch W (session_event W req h :: h) (incompleteRequest k')) as [st' text'|t].
    2:{ destruct Hin as [Hin|[]]. discriminate. }
    cbn zeta in *.
    destruct (create_payment_run k' (request_field req "payment")
                (EvFetch (incompleteRequest k') (Responded st' text')
                   :: session_event W req h :: h)) as (o & Hcr & Hsucc & _).
    rewrite Hcr in *. cbn [fst snd] in *.
    assert (forall l,
              In (EvFetch (createRequest k payment) (Responded st text))
                 (EvFetch (incompleteRequest k') (Responded st' text') :: l) ->
              In (EvFetch (createRequest k payment) (Responded st text)) l) as Hskip.
    { intros l [H|H]; [discriminate|exact H]. }
    assert (In (EvFetch (createRequest k payment) (Responded st text))
              [EvFetch (createRequest k' (request_field req "payment"))
                 (fetch W (EvFetch (incompleteRequest k') (Responded st' text')
                           :: session_event W req h :: h)
                    (createRequest k' (request_field req "payment")))] ->
            respond o = created_response (parseJson W text)) as Hmain.
    { intros [Heq|[]]. injection Heq as _ _ Ho. rewrite (Hsucc _ _ Ho Hok). reflexivity. }
    destruct (ok st').
    + destruct (prop _ _); [apply Hskip in Hin; destruct Hin|].
      destruct (pending_list W text') as [|first' rest'].
      * apply Hmain, Hskip, Hin.
      * destruct (pendingUid W first'); apply Hskip in Hin; destruct Hin.
    + apply Hmain, Hskip, Hin.
Qed.

(** C3, amended.  For an authenticated [a2u_create] request with a valid
    payload: if the listing succeeds and the first payment it lists has the
    request's trimmed uid as its user, the answer is 200 with that payment
    and [reusedIncomplete: true], the listing was the last call, and no
    POST is made to the platform.  Hence, of two successive calls for one
    uid, when the first created a payment and the platform then lists,
    first and under that uid, a payment with the identifier of the created
    one, the second call creates nothing and answers with the listed
    payment, [reusedIncomplete: true], and the identifier the first call
    answered with. *)
Theorem a2u_create_reuses_incomplete :
  (forall req h k st text first rest,
     request_action req = Some "a2u_create" ->
     session_valid W req h = true ->
     valid_payload W (request_field req "payment") = true ->
     In (EvFetch (incompleteRequest k) (Responded st text)) (calls W req h) ->
     ok st = true ->
     pending_list W text = first :: rest ->
     pendingUid W first = inr (payload_uid (request_field req "payment")) ->
     response W req h = reused_response (asRecord first) /\
     calls W req h =
       [session_event W req h; EvFetch (incompleteRequest k) (Responded st text)] /\
     (forall rq out, In (EvFetch rq out) (calls W req h) -> fr_method rq = "GET") /\
     (forall out, ~ In (EvFetch (createRequest k (request_field req "payment")) out)
                       (calls W req h)))
  /\
  (forall req1 req2 h k st1 text1 st2 text2 first rest,
     request_action req1 = Some "a2u_create" ->
     request_action req2 = Some "a2u_create" ->
     payload_uid (request_field req2 "payment") = payload_uid (request_field req1 "payment") ->
     In (EvFetch {| fr_url := "https://api.minepi.com/v2/payments";
                    fr_method := "POST";
                    fr_headers := [("Content-Type", "application/json");
                                   ("Authorization", "Key " ++ k)];
                    fr_body := Some (request_field req1 "payment") |}
           (Responded st1 text1))
        (calls W req1 h) ->
     ok st1 = true ->
     In (EvFetch (incompleteRequest k) (Responded st2 text2))
        (calls W req2 (rev (calls W req1 h) ++ h)%list) ->
     ok st2 = true ->
     pending_list W text2 = first :: rest ->
     field first "identifier" = field (parseJson W text1) "identifier" ->
     pendingUid W first = inr (payload_uid (request_field req1 "payment")) ->
     response_field (response W req2 (rev (calls W req1 h) ++ h)%list) "reusedIncomplete"
       = JBool true /\
     response_data (response W req2 (rev (calls W req1 h) ++ h)%list) = asRecord first /\
     field (response_data (response W req2 (rev (calls W req1 h) ++ h)%list)) "identifier"
       = field (response_data (response W req1 h)) "identifier" /\
     (forall rq out,
        In (EvFetch rq out) (calls W req2 (rev (calls W req1 h) ++ h)%list) ->
        fr_method rq = "GET")).
Proof.
  split.
  - intros req h k st text first rest Ha _ _ Hin Hok Hl Hu.
    destruct (a2u_create_pending _ _ _ _ _ _ _ _ Ha Hin Hok Hl Hu) as [Hr Hc].
    rewrite String.eqb_refl, andb_false_r in Hr.
    rewrite Hr, Hc. repeat split.
    + intros rq out [H|[H|[]]]; [discriminate|]. now injection H as <- _.
    + intros out [H|[H|[]]]; discriminate.
  - intros req1 req2 h k st1 text1 st2 text2 first rest
      Ha1 Ha2 Hu Hin1 Hok1 Hin2 Hok2 Hl Hid Hp.
    change {| fr_url := "https://api.minepi.com/v2/payments";
              fr_method := "POST";
              fr_headers := [("Content-Type", "application/json"); ("Authorization", "Key " ++ k)];
              fr_body := Some (request_field req1 "payment") |}
      with (createRequest k (request_field req1 "payment")) in Hin1.
    rewrite (create_inv _ _ _ _ _ _ Ha1 Hin1 Hok1).
    destruct (a2u_create_pending _ _ _ _ _ _ _ _ Ha2 Hin2 Hok2 Hl Hp) as [Hr Hc].
    rewrite Hu, String.eqb_refl, andb_false_r in Hr. rewrite Hr, Hc.
    split; [reflexivity|]. split; [reflexivity|]. split.
    + unfold response_data, response_field, reused_response, created_response. cbn.
      rewrite field_asRecord. exact Hid.
    + intros rq out [H|[H|[]]]; [discriminate|]. now injection H as <- _.
Qed.

(** C10.  When the platform answers the listing of incomplete payments of an
    [a2u_create] request with a status outside 200-299, neither the conflict
    check nor the reuse check is made, whatever the answer lists: the next
    call is the platform's create call with the request's payload, and the
    response is the one of that call (never 409, never marked
    [reusedIncomplete]). *)
Theorem a2u_create_listing_failure_falls_through req h k st text :
  request_action req = Some "a2u_create" ->
  In (EvFetch (incompleteRequest k) (Responded st text)) (calls W req h) ->
  ok st = false ->
  let listing := EvFetch (incompleteRequest k) (Responded st text) in
  let create :=
    {| fr_url := "https://api.minepi.com/v2/payments";
       fr_method := "POST";
       fr_headers := [("Content-Type", "application/json"); ("Authorization", "Key " ++ k)];
       fr_body := Some (request_field req "payment") |} in
  let created := fetch W (listing :: session_event W req h :: h) create in
  calls W req h = [session_event W req h; listing; EvFetch create created] /\
  status (response W req h) <> 409%Z /\
  response_field (response W req h) "reusedIncomplete" = JUndefined /\
  (forall st' text', created = Responded st' text' -> ok st' = true ->
     response W req h = created_response (parseJson W text')).
Proof.
  intros Ha Hin Hok listing create created.
  change create with (createRequest k (request_field req "payment")) in *.
  destruct (listing_inv _ _ _ _ Ha Hin) as (_ & _ & Hv & Hf & Hr & Hc).
  rewrite Hr, Hc, (a2u_create_valid _ _ _ Hv), Hf. cbn zeta. rewrite Hok.
  destruct (create_payment_run k (request_field req "payment")
              (listing :: session_event W req h :: h)) as (o & Hcr & Hsucc & Hst & Hfl).
  fold listing. rewrite Hcr. cbn [fst snd]. repeat split.
  - destruct Hst as [->|[->| ->]]; discriminate.
  - exact Hfl.
  - intros st' text' Hcreated Hok'. now rewrite (Hsucc _ _ Hcreated Hok').
Qed.

Ltac step_run :=
  match goal with
  | |- context [bind (lift ?e) _ _] => destruct e eqn:?; cbn [lift]; rewrite ?bind_ret, ?bind_throw; cbn beta
  | |- context [bind (call _ _) _ _] => rewrite bind_call; cbn beta
  | |- context [bind (emit _) _ _] => rewrite bind_emit; cbn beta
  | |- context [(if ?b then _ else _) _] => destruct b eqn:?
  | |- context [match ?x with Some _ => _ | None => _ end _] => destruct x eqn:?
  end.

Lemma prop_inr v k x : prop v k = inr x -> x = field v k.
Proof. unfold prop. destruct (nullish v); [discriminate|]. now intros [= <-]. Qed.

(** Every run of the submitter: it stops before the ledger, or the record
    passed the field checks and the wallet the address guard, and the
    ledger steps go as far as the first failure. *)
Lemma submitA2UTx_cases payment seed expected h :
  let run := submitA2UTx W payment seed expected h in
  let server := horizonUrl (record_network W payment) in
  (exists t, run = (Throw t, [])) \/
  (exists signer,
     Keypair_fromSecret W seed = inr signer /\ settleable W payment = true /\
     source_address W payment = inr signer /\
     (expected_address expected = "" \/ signer = expected_address expected) /\
     ((exists t, run = (Throw t, [EvLoadAccount server signer (inl t)])) \/
      (exists account t,
         run = (Throw t, [EvLoadAccount server signer (inr account);
                          EvFetchBaseFee server (inl t)])) \/
      (exists account baseFee t,
         TransactionBuilder_build W (settlement W payment account baseFee) = Some t /\
         run = (Throw t, [EvLoadAccount server signer (inr account);
                          EvFetchBaseFee server (inr baseFee)])) \/
      (exists account baseFee out,
         TransactionBuilder_build W (settlement W payment account baseFee) = None /\
         snd run = settlement_steps W payment signer account baseFee out /\
         fst run = match out with
                   | inl t => Throw t
                   | inr submitted =>
                       match prop submitted "hash" with
                       | inl t => Throw t
                       | inr _ =>
                           match ledger_txid W submitted with
                           | inl t => Throw t
                           | inr hash =>
                               if hash =? ""
                               then Throw (JsError "Pi blockchain submission did not return txid")
                               else Val hash
                           end
                       end
                   end))).
Proof.
  cbn zeta.
  unfold submitA2UTx, prop, settleable, source_address, expected_address, settlement_steps,
    settlement, record_network, record_text, record_amount.
  destruct (nullish payment) eqn:Hn; cbn [lift].
  { left. rewrite bind_throw. eexists; reflexivity. }
  rewrite bind_ret. cbn beta.
  destruct (string_or_empty W (field payment "identifier")) as [t|paymentId]; cbn [lift].
  { left. rewrite bind_throw. eexists; reflexivity. }
  rewrite !bind_ret. cbn beta.
  destruct (string_or_empty W (field payment "to_address")) as [t|toAddress]; cbn [lift].
  { left. rewrite bind_throw. eexists; reflexivity. }
  rewrite !bind_ret. cbn beta.
  destruct (string_or_empty W (field payment "from_address")) as [t|fromAddress]; cbn [lift].
  { left. rewrite bind_throw. eexists; reflexivity. }
  rewrite !bind_ret. cbn beta.
  destruct (string_or_empty W (field payment "network")) as [t|network]; cbn [lift].
  { left. rewrite bind_throw. eexists; reflexivity. }
  rewrite !bind_ret. cbn beta.
  destruct (Number_ W (field payment "amount")) as [t|amountNumber]; cbn [lift].
  { left. rewrite bind_throw. eexists; reflexivity. }
  rewrite bind_ret. cbn beta. cbn [converts text_of number_of negb andb].
  destruct (paymentId =? "") eqn:E1; [left; eexists; reflexivity|].
  destruct (toAddress =? "") eqn:E2; [left; eexists; reflexivity|].
  destruct (fromAddress =? "") eqn:E3; [left; eexists; reflexivity|].
  destruct (Number_isFinite amountNumber) eqn:E4; [|left; eexists; reflexivity].
  destruct (num_le_zero amountNumber) eqn:E5; [left; eexists; reflexivity|].
  cbn [negb orb andb].
  destruct (Keypair_fromSecret W seed) as [t|signer] eqn:Hk; cbn [lift].
  { left. rewrite bind_throw. eexists; reflexivity. }
  rewrite bind_ret. cbn beta.
  destruct (negb (trim _ =? "") && negb (signer =? trim _)) eqn:G1;
    [left; eexists; reflexivity|].
  destruct (fromAddress =? signer) eqn:G2; [|left; eexists; reflexivity].
  cbn [negb]. right. exists signer. split; [reflexivity|]. split; [reflexivity|].
  apply String.eqb_eq in G2. split; [now subst|]. split.
  { apply andb_false_iff in G1 as [G|G]; apply negb_false_iff, String.eqb_eq in G; auto. }
  rewrite bind_call. cbn beta.
  destruct (Horizon_loadAccount W h _ signer) as [t|account]; cbn [lift].
  { left. rewrite bind_throw. eexists; reflexivity. }
  right. rewrite bind_ret. cbn beta. rewrite bind_call. cbn beta.
  destruct (Horizon_fetchBaseFee W _ _) as [t|baseFee]; cbn [lift].
  { left. rewrite bind_throw. do 2 eexists; reflexivity. }
  right. rewrite bind_ret. cbn beta.
  match goal with |- context [TransactionBuilder_build W ?tx] =>
    destruct (TransactionBuilder_build W tx) as [t|] eqn:Hb end.
  { left. exists account, baseFee, t. split; [exact Hb|reflexivity]. }
  right. rewrite !bind_emit. cbn beta. rewrite bind_call. cbn beta.
  match goal with |- context [Horizon_submitTransaction W ?h' ?s ?tx] =>
    destruct (Horizon_submitTransaction W h' s tx) as [t|submitted] end; cbn [lift].
  { exists account, baseFee, (inl t). rewrite bind_throw. repeat split; auto. }
  exists account, baseFee, (inr submitted). split; [exact Hb|].
  rewrite bind_ret. cbn beta. unfold prop, ledger_txid.
  destruct (nullish submitted); cbn [lift].
  { rewrite bind_throw. split; reflexivity. }
  rewrite !bind_ret. cbn beta.
  destruct (string_or_empty W (or_else (field submitted "hash") (field submitted "id")))
    as [t|hash]; cbn [lift].
  { rewrite bind_throw. split; reflexivity. }
  rewrite bind_ret. cbn beta.
  destruct (hash =? ""); split; reflexivity.
Qed.

(** What a run of the submitter can be: it never leaves the handler by
    itself, it touches the ledger only, and a transaction id it returns is
    not empty and was read off a successful submission. *)
Lemma submitA2UTx_run payment seed expected h :
  forallb is_ledger_event (snd (submitA2UTx W payment seed expected h)) = true /\
  (forall r, fst (submitA2UTx W payment seed expected h) <> Return r) /\
  (forall hash, fst (submitA2UTx W payment seed expected h) = Val hash ->
     hash <> "" /\
     exists horizon tx submitted,
       In (EvSubmit horizon tx (inr submitted)) (snd (submitA2UTx W payment seed expected h)) /\
       ledger_txid W submitted = inr hash).
Proof.
  destruct (submitA2UTx_cases payment seed expected h)
    as [(t & ->)|(signer & _ & _ & _ & _ & [(t & ->)|[(account & t & ->)|
        [(account & baseFee & t & _ & ->)|(account & baseFee & out & _ & Est & Eo)]]])];
    cbn [fst snd forallb is_ledger_event andb];
    try (split; [reflexivity|split; [discriminate|discriminate]]).
  rewrite Est, Eo. unfold settlement_steps. cbn zeta.
  split; [reflexivity|].
  destruct out as [t|submitted]; [split; discriminate|].
  destruct (prop submitted "hash"); [split; discriminate|].
  destruct (ledger_txid W submitted) as [t|hash'] eqn:El; [split; discriminate|].
  destruct (hash' =? "") eqn:E; [split; discriminate|].
  split; [discriminate|]. intros hash [= <-]. split; [now apply String.eqb_neq|].
  do 3 eexists. split; [do 4 right; left; reflexivity|exact El].
Qed.

(** ** The settlement submitter *)




(** ** Completion *)

Lemma platform_call_run k endpoint method b h :
  exists o, platform_call W k endpoint method b h =
            (o, [EvFetch (paymentRequest k endpoint method b)
                   (fetch W h (paymentRequest k endpoint method b))]).
Proof.
  unfold platform_call. rewrite do_fetch_run.
  destruct (fetch W h _) as [st text|t]; [|eexists; reflexivity].
  destruct (ok st); cbn [negb].
  - eexists; reflexivity.
  - destruct (@upstreamError_run Response "Pi payment API call failed" st (parseJson W text)
                (EvFetch (paymentRequest k endpoint method b) (Responded st text) :: h))
      as [(m & ->)|(t & ->)]; eexists; reflexivity.
Qed.

Lemma payment_action_complete a k paymentId txid h :
  one_of a complete_family = true ->
  payment_action W a k paymentId txid h =
  if not_a_name paymentId then (Return missing_paymentId_response, [])
  else bind (complete_body W a k (str_of paymentId) txid)
            (fun b => platform_call W k (endpointBase (str_of paymentId) ++ "/complete") "POST" b) h.
Proof.
  intros Hone. unfold payment_action. destruct (not_a_name paymentId); [reflexivity|].
  assert (one_of a ["approve"; "payment_approve"; "a2u_approve"] = false) as ->.
  { unfold one_of, complete_family in *. cbn [existsb] in Hone.
    repeat (apply orb_prop in Hone; destruct Hone as [Hone|Hone];
            [apply String.eqb_eq in Hone; subst a; reflexivity|]).
    discriminate. }
  unfold complete_family in Hone. rewrite Hone, bind_assoc.
  apply bind_ext. intros b h'. now rewrite bind_ret.
Qed.

Lemma complete_body_explicit a k pid txid h :
  explicitTxid txid <> "" ->
  complete_body W a k pid txid h = (Val (txidBody (explicitTxid txid)), []).
Proof.
  intros He. apply String.eqb_neq in He. unfold complete_body. now rewrite He.
Qed.

Lemma complete_body_a2u k pid txid h :
  explicitTxid txid = "" ->
  complete_body W "a2u_complete" k pid txid h =
  match fetch W h (recordRequest k pid) with
  | Rejected t => (Throw t, [EvFetch (recordRequest k pid) (Rejected t)])
  | Responded st text =>
      let ev := EvFetch (recordRequest k pid) (Responded st text) in
      let paymentData := parseJson W text in
      if ok st then
        match existingTxid W paymentData with
        | inl t => (Throw t, [ev])
        | inr existing =>
            if negb (existing =? "") then (Val (txidBody existing), [ev]) else
            match direction W paymentData with
            | inl t => (Throw t, [ev])
            | inr dir =>
                if dir =? "app_to_user" then
                  if wallet_seed W =? "" then (Return seed_missing_response, [ev]) else
                  let settled :=
                    submitA2UTx W paymentData (wallet_seed W) (Some (wallet_address W))
                      (ev :: h) in
                  (match fst settled with
                   | Val hash => Val (txidBody hash)
                   | Return r => Return r
                   | Throw t => Throw t
                   end, ev :: snd settled)
                else (Val None, [ev])
            end
        end
      else (fst (@upstreamError W (option value) "Pi payment API call failed" st paymentData (ev :: h)),
            [ev])
  end.
Proof.
  intros He. unfold complete_body. rewrite He, !String.eqb_refl. cbn [negb].
  change (paymentRequest k (endpointBase pid) "GET" None) with (recordRequest k pid).
  rewrite do_fetch_run.
  destruct (fetch W h (recordRequest k pid)) as [st text|t]; [|reflexivity].
  cbn iota zeta beta. destruct (ok st); cbn [negb].
  2:{ destruct (@upstreamError_run (option value) "Pi payment API call failed" st
                  (parseJson W text) (EvFetch (recordRequest k pid) (Responded st text) :: h))
        as [(m & ->)|(t & ->)]; reflexivity. }
  destruct (existingTxid W (parseJson W text)) as [t|existing]; cbn [lift].
  { rewrite bind_throw. reflexivity. }
  rewrite bind_ret. cbn beta.
  destruct (negb (existing =? "")); [reflexivity|].
  destruct (direction W (parseJson W text)) as [t|dir]; cbn [lift].
  { rewrite bind_throw. reflexivity. }
  rewrite bind_ret. cbn beta.
  destruct (dir =? "app_to_user"); [|reflexivity].
  fold (wallet_seed W). fold (wallet_address W).
  destruct (wallet_seed W =? ""); [reflexivity|].
  rewrite bind_map. reflexivity.
Qed.

Lemma ledger_not_fetch tr rq out :
  forallb is_ledger_event tr = true -> ~ In (EvFetch rq out) tr.
Proof. rewrite forallb_forall. intros H Hin. apply H in Hin. discriminate. Qed.

(** The calls of the completion path of [a2u_complete] without an explicit
    txid: the record fetch, then no other GET. *)
Lemma a2u_complete_shape k pid txid h :
  explicitTxid txid = "" ->
  exists o rest,
    bind (complete_body W "a2u_complete" k pid txid)
         (fun b => platform_call W k (endpointBase pid ++ "/complete") "POST" b) h =
      (o, EvFetch (recordRequest k pid) (fetch W h (recordRequest k pid)) :: rest) /\
    (forall rq out, In (EvFetch rq out) rest -> fr_method rq = "POST").
Proof.
  intros He. unfold bind. rewrite (complete_body_a2u _ _ _ _ He).
  assert (forall b l, forallb is_ledger_event l = true ->
            exists o rest,
              (let (o, t2) := platform_call W k (endpointBase pid ++ "/complete") "POST" b
                                (rev (EvFetch (recordRequest k pid)
                                        (fetch W h (recordRequest k pid)) :: l) ++ h)%list in
               (o, ((EvFetch (recordRequest k pid) (fetch W h (recordRequest k pid)) :: l) ++ t2)%list))
              = (o, EvFetch (recordRequest k pid) (fetch W h (recordRequest k pid)) :: rest) /\
              (forall rq out, In (EvFetch rq out) rest -> fr_method rq = "POST")) as Hcall.
  { intros b l Hl. destruct (platform_call_run k (endpointBase pid ++ "/complete") "POST" b
                   (rev (EvFetch (recordRequest k pid) (fetch W h (recordRequest k pid)) :: l) ++ h)%list)
      as (o & ->).
    exists o. eexists. split; [reflexivity|].
    intros rq out Hin. apply in_app_or in Hin as [Hin|[Hin|[]]].
    - now apply ledger_not_fetch in Hin.
    - now injection Hin as <- _. }
  assert (forall (o : outcome Response) l, forallb is_ledger_event l = true ->
            exists o' rest,
              (o, EvFetch (recordRequest k pid) (fetch W h (recordRequest k pid)) :: l)
              = (o', EvFetch (recordRequest k pid) (fetch W h (recordRequest k pid)) :: rest) /\
              (forall rq out, In (EvFetch rq out) rest -> fr_method rq = "POST")) as Hstop.
  { intros o l Hl. exists o, l. split; [reflexivity|].
    intros rq out Hin. now apply ledger_not_fetch in Hin. }
  destruct (fetch W h (recordRequest k pid)) as [st text|t]; [|now apply Hstop].
  cbn zeta. destruct (ok st).
  2:{ cbn [fst]. destruct (fst _); [now apply (Hcall _ [])|now apply Hstop|now apply Hstop]. }
  destruct (existingTxid W (parseJson W text)) as [t|existing]; [now apply Hstop|].
  destruct (negb (existing =? "")); [now apply (Hcall _ [])|].
  destruct (direction W (parseJson W text)) as [t|dir]; [now apply Hstop|].
  destruct (dir =? "app_to_user"); [|now apply (Hcall _ [])].
  destruct (wallet_seed W =? ""); [now apply Hstop|].
  destruct (submitA2UTx_run (parseJson W text) (wallet_seed W) (Some (wallet_address W))
              (EvFetch (recordRequest k pid) (Responded st text) :: h)) as (Hl & _ & _).
  destruct (fst (submitA2UTx W _ _ _ _)); [now apply Hcall|now apply Hstop|now apply Hstop].
Qed.

(** The platform's calls for a completion request. *)
Lemma complete_gated req h a :
  request_action req = Some a -> one_of a complete_family = true ->
  incl (calls W req h) [session_event W req h] \/
  (session_valid W req h = true /\
   not_a_name (request_field req "paymentId") = false /\
   exists k, api_key W = Some k /\
     response W req h =
       respond (fst (bind (complete_body W a k (str_of (request_field req "paymentId"))
                             (request_field req "txid"))
                          (fun b => platform_call W k
                                      (endpointBase (str_of (request_field req "paymentId"))
                                       ++ "/complete") "POST" b)
                          (session_event W req h :: h))) /\
     calls W req h =
       session_event W req h
       :: snd (bind (complete_body W a k (str_of (request_field req "paymentId"))
                       (request_field req "txid"))
                    (fun b => platform_call W k
                                (endpointBase (str_of (request_field req "paymentId"))
                                 ++ "/complete") "POST" b)
                    (session_event W req h :: h))).
Proof.
  intros Ha Hone.
  assert (a <> "auth_verify") as Hne.
  { intros ->. discriminate. }
  assert (one_of a ["approve"; "payment_approve"; "a2u_approve"; "complete"; "payment_complete";
                    "a2u_complete"; "cancel"; "payment_cancel"; "a2u_cancel";
                    "get"; "payment_get"; "a2u_get"] = true) as Hall.
  { unfold one_of, complete_family in *. cbn [existsb] in *.
    repeat (apply orb_prop in Hone; destruct Hone as [Hone|Hone]; [rewrite Hone|]);
      rewrite ?orb_true_r; try reflexivity. discriminate. }
  destruct (request_action_inv _ _ Ha) as (_ & _ & _ & Hf & _).
  unfold response, calls. rewrite (serve_session _ _ _ Ha Hne).
  destruct (session_valid W req h).
  2:{ left. destruct (client W) as [t|[]]; cbn [snd]; [apply incl_nil_l|].
      destruct (has_bearer req); [apply incl_refl|apply incl_nil_l]. }
  destruct (api_key W) as [k|] eqn:Hk.
  2:{ left. rewrite (actions_no_key _ _ Hk). apply incl_refl. }
  rewrite (actions_payment _ _ _ _ Hk Hf Hall), (payment_action_complete _ _ _ _ _ Hone).
  fold (request_field req "paymentId"). fold (request_field req "txid").
  destruct (not_a_name (request_field req "paymentId")).
  - left. apply incl_refl.
  - right. split; [reflexivity|]. split; [reflexivity|]. exists k. auto.
Qed.

(** A record fetch among the calls of an [a2u_complete] request without an
    explicit txid. *)
Lemma a2u_complete_inv req h rq out :
  request_action req = Some "a2u_complete" ->
  explicitTxid (request_field req "txid") = "" ->
  In (EvFetch rq out) (calls W req h) -> fr_method rq = "GET" ->
  exists k,
    rq = recordRequest k (str_of (request_field req "paymentId")) /\
    fetch W (session_event W req h :: h) rq = out /\
    response W req h =
      respond (fst (bind (complete_body W "a2u_complete" k (str_of (request_field req "paymentId"))
                            (request_field req "txid"))
                         (fun b => platform_call W k
                                     (endpointBase (str_of (request_field req "paymentId"))
                                      ++ "/complete") "POST" b)
                         (session_event W req h :: h))) /\
    calls W req h =
      session_event W req h
      :: snd (bind (complete_body W "a2u_complete" k (str_of (request_field req "paymentId"))
                      (request_field req "txid"))
                   (fun b => platform_call W k
                               (endpointBase (str_of (request_field req "paymentId"))
                                ++ "/complete") "POST" b)
                   (session_event W req h :: h)).
Proof.
  intros Ha He Hin Hget.
  destruct (complete_gated req h "a2u_complete" Ha eq_refl)
    as [Hno|(_ & _ & k & _ & Hr & Hc)]; [apply Hno in Hin; destruct Hin as [Hin|[]]; discriminate|].
  exists k. rewrite Hc in Hin.
  destruct (a2u_complete_shape k (str_of (request_field req "paymentId"))
              (request_field req "txid") (session_event W req h :: h) He)
    as (o & rest & Hrun & Hrest).
  rewrite Hrun in Hin. cbn [snd] in Hin.
  destruct Hin as [Hin|[Hin|Hin]]; [discriminate| |].
  - injection Hin as <- <-. auto.
  - apply Hrest in Hin. rewrite Hin in Hget. discriminate.
Qed.

(** C6, amended.  For an [a2u_complete] request without an explicit txid:
    if the payment record the platform returns already carries a
    transaction id (its [transaction.txid], converted to a string and
    trimmed, is not empty), the platform's complete call is made, as the
    last call, with that string, trimmed, as the [txid] of its body
    [{txid}], and the ledger is not touched. *)
Theorem settled_payment_completes_with_its_txid req h rq st text existing :
  request_action req = Some "a2u_complete" ->
  explicitTxid (request_field req "txid") = "" ->
  In (EvFetch rq (Responded st text)) (calls W req h) -> fr_method rq = "GET" ->
  ok st = true ->
  existingTxid W (parseJson W text) = inr existing -> existing <> "" ->
  exists k,
    let paymentId := str_of (request_field req "paymentId") in
    let fetched := EvFetch (recordRequest k paymentId) (Responded st text) in
    let complete :=
      {| fr_url := "https://api.minepi.com/v2/payments/" ++ paymentId ++ "/complete";
         fr_method := "POST";
         fr_headers := [("Content-Type", "application/json"); ("Authorization", "Key " ++ k)];
         fr_body := Some (JObj [("txid", JStr existing)]) |} in
    rq = recordRequest k paymentId /\
    calls W req h =
      [session_event W req h; fetched;
       EvFetch complete (fetch W (fetched :: session_event W req h :: h) complete)] /\
    forallb (fun ev => negb (is_ledger_event ev)) (calls W req h) = true.
Proof.
  intros Ha He Hin Hget Hok Hex Hne.
  destruct (a2u_complete_inv _ _ _ _ Ha He Hin Hget) as (k & -> & Hf & _ & Hc).
  exists k. cbn zeta. split; [reflexivity|].
  assert (calls W req h =
          [session_event W req h;
           EvFetch (recordRequest k (str_of (request_field req "paymentId"))) (Responded st text);
           EvFetch (completeRequest k (str_of (request_field req "paymentId")) (txidBody existing))
             (fetch W (EvFetch (recordRequest k (str_of (request_field req "paymentId")))
                         (Responded st text) :: session_event W req h :: h)
                (completeRequest k (str_of (request_field req "paymentId")) (txidBody existing)))])
    as Hcalls.
  { rewrite Hc. unfold bind. rewrite (complete_body_a2u _ _ _ _ He), Hf. cbn zeta.
    apply String.eqb_neq in Hne. rewrite Hok, Hex, Hne. cbn [negb rev app].
    destruct (platform_call_run k (endpointBase (str_of (request_field req "paymentId")) ++ "/complete")
                "POST" (txidBody existing)
                (EvFetch (recordRequest k (str_of (request_field req "paymentId")))
                   (Responded st text) :: session_event W req h :: h)) as (o & ->).
    reflexivity. }
  split; [exact Hcalls|]. rewrite Hcalls. reflexivity.
Qed.

(** C7, amended.  For a completion request ([complete], [payment_complete]
    or [a2u_complete]) whose txid is a string that is not empty after
    trimming: the only platform call is the complete call, its body is
    exactly [{txid}] with the trimmed txid, and neither the payment record
    is fetched nor the ledger touched; when the session, the key and the
    payment id are accepted, that call is made. *)
Theorem explicit_txid_is_forwarded req h a txid :
  request_action req = Some a -> one_of a complete_family = true ->
  explicitTxid (request_field req "txid") = txid -> txid <> "" ->
  let paymentId := str_of (request_field req "paymentId") in
  let complete k :=
    {| fr_url := "https://api.minepi.com/v2/payments/" ++ paymentId ++ "/complete";
       fr_method := "POST";
       fr_headers := [("Content-Type", "application/json"); ("Authorization", "Key " ++ k)];
       fr_body := Some (JObj [("txid", JStr txid)]) |} in
  (forall ev, In ev (calls W req h) ->
     ev = session_event W req h \/ exists k out, ev = EvFetch (complete k) out) /\
  (forall k, session_valid W req h = true -> api_key W = Some k ->
     not_a_name (request_field req "paymentId") = false ->
     calls W req h =
       [session_event W req h;
        EvFetch (complete k) (fetch W (session_event W req h :: h) (complete k))]).
Proof.
  intros Ha Hone Ht Hne paymentId complete. subst txid.
  change complete
    with (fun k => completeRequest k paymentId
                     (txidBody (explicitTxid (request_field req "txid")))).
  cbn beta. clear complete.
  assert (forall k, snd (bind (complete_body W a k paymentId (request_field req "txid"))
                      (fun b => platform_call W k (endpointBase paymentId ++ "/complete") "POST" b)
                      (session_event W req h :: h)) =
                    [EvFetch (completeRequest k paymentId (txidBody (explicitTxid (request_field req "txid"))))
                       (fetch W (session_event W req h :: h)
                          (completeRequest k paymentId (txidBody (explicitTxid (request_field req "txid")))))])
    as Hrun.
  { intros k. unfold bind. rewrite (complete_body_explicit _ _ _ _ _ Hne). cbn [rev app].
    destruct (platform_call_run k (endpointBase paymentId ++ "/complete") "POST"
                (txidBody (explicitTxid (request_field req "txid")))
                (session_event W req h :: h)) as (o & ->). reflexivity. }
  destruct (complete_gated req h a Ha Hone) as [Hno|(Hs & Hp & k & Hk & _ & Hc)].
  - split.
    + intros ev Hin. apply Hno in Hin. destruct Hin as [<-|[]]. now left.
    + intros k Hs Hk Hp. exfalso.
      assert (a <> "auth_verify") as Hav by (intros ->; discriminate).
      destruct (request_action_inv _ _ Ha) as (_ & _ & _ & Hf & _).
      assert (In (EvFetch (completeRequest k paymentId (txidBody (explicitTxid (request_field req "txid"))))
                    (fetch W (session_event W req h :: h)
                       (completeRequest k paymentId (txidBody (explicitTxid (request_field req "txid"))))))
                (calls W req h)) as Hin.
      { unfold calls. rewrite (serve_session _ _ _ Ha Hav), Hs. cbn [snd].
        assert (one_of a ["approve"; "payment_approve"; "a2u_approve"; "complete";
                          "payment_complete"; "a2u_complete"; "cancel"; "payment_cancel";
                          "a2u_cancel"; "get"; "payment_get"; "a2u_get"] = true) as Hall.
        { unfold one_of, complete_family in *. cbn [existsb] in *.
          repeat (apply orb_prop in Hone; destruct Hone as [Hone|Hone]; [rewrite Hone|]);
            rewrite ?orb_true_r; try reflexivity. discriminate. }
        rewrite (actions_payment _ _ _ _ Hk Hf Hall), (payment_action_complete _ _ _ _ _ Hone).
        fold (request_field req "paymentId"). fold (request_field req "txid"). rewrite Hp.
        fold paymentId. rewrite Hrun. right. now left. }
      apply Hno in Hin. destruct Hin as [Hin|[]]. discriminate.
  - rewrite Hc, Hrun. split.
    + intros ev [<-|[<-|[]]]; [now left|right; eauto].
    + intros k' _ Hk' _. rewrite Hk in Hk'. now injection Hk' as <-.
Qed.

Lemma last_is_the_one {A} (P : A -> bool) (l : list A) x pre y post :
  (l ++ [x] = pre ++ y :: post)%list ->
  forallb (fun z => negb (P z)) l = true -> P y = true ->
  pre = l /\ y = x /\ post = [].
Proof.
  revert pre. induction l as [|a l IH]; intros pre Heq Hl Hy.
  - destruct pre as [|b pre]; cbn in Heq.
    + injection Heq as <- <-. auto.
    + injection Heq as _ Heq. destruct pre; discriminate.
  - cbn in Hl. apply andb_prop in Hl as [Ha Hl].
    destruct pre as [|b pre]; cbn in Heq; injection Heq as <- Heq.
    + rewrite Hy in Ha. discriminate.
    + destruct (IH pre Heq Hl Hy) as (-> & -> & ->). auto.
Qed.

Lemma none_is_the_one {A} (P : A -> bool) (l : list A) pre y post :
  (l = pre ++ y :: post)%list -> forallb (fun z => negb (P z)) l = true -> P y = false.
Proof.
  intros -> Hl. rewrite forallb_forall in Hl.
  apply negb_true_iff, Hl, in_elt.
Qed.

Lemma ledger_not_complete tr :
  forallb is_ledger_event tr = true ->
  forallb (fun ev => negb (is_complete_call ev)) tr = true.
Proof.
  rewrite !forallb_forall. intros H ev Hin. apply H in Hin. now destruct ev.
Qed.

(** C1.  For an [a2u_complete] request without an explicit txid whose
    payment record, as the platform returns it, has direction
    [app_to_user] and no transaction id: a call to the platform's complete
    endpoint is only made after a successful ledger submission that
    returned a transaction id, and carries that id; and if the settlement
    throws, no complete call is made. *)
Theorem a2u_settlement_precedes_completion req h rq st text :
  request_action req = Some "a2u_complete" ->
  explicitTxid (request_field req "txid") = "" ->
  In (EvFetch rq (Responded st text)) (calls W req h) -> fr_method rq = "GET" ->
  ok st = true ->
  existingTxid W (parseJson W text) = inr "" ->
  direction W (parseJson W text) = inr "app_to_user" ->
  (forall pre ev post,
     calls W req h = (pre ++ ev :: post)%list -> is_complete_call ev = true ->
     exists horizon tx submitted hash,
       In (EvSubmit horizon tx (inr submitted)) pre /\
       ledger_txid W submitted = inr hash /\ hash <> "" /\
       exists k out,
         ev = EvFetch (completeRequest k (str_of (request_field req "paymentId"))
                         (Some (JObj [("txid", JStr hash)]))) out)
  /\
  (forall t tr,
     submitA2UTx W (parseJson W text) (wallet_seed W) (Some (wallet_address W))
       (EvFetch rq (Responded st text) :: session_event W req h :: h) = (Throw t, tr) ->
     forallb (fun ev => negb (is_complete_call ev)) (calls W req h) = true /\
     status (response W req h) = 500%Z).
Proof.
  intros Ha He Hin Hget Hok Hex Hdir.
  destruct (a2u_complete_inv _ _ _ _ Ha He Hin Hget) as (k & -> & Hf & Hr & Hc).
  set (paymentId := str_of (request_field req "paymentId")) in *.
  set (fetched := EvFetch (recordRequest k paymentId) (Responded st text)) in *.
  unfold bind in Hr, Hc. rewrite (complete_body_a2u _ _ _ _ He), Hf in Hr, Hc.
  cbn zeta in Hr, Hc. rewrite Hok, Hex, Hdir, !String.eqb_refl in Hr, Hc.
  cbn [negb] in Hr, Hc. fold fetched in Hr, Hc.
  destruct (wallet_seed W =? "").
  { cbn [fst snd respond] in Hr, Hc. split.
    - intros pre ev post Hsplit Hev. rewrite Hc in Hsplit.
      apply (none_is_the_one is_complete_call) in Hsplit; [congruence|reflexivity].
    - intros _ _ _. rewrite Hr, Hc. split; reflexivity. }
  destruct (submitA2UTx_run (parseJson W text) (wallet_seed W) (Some (wallet_address W))
              (fetched :: session_event W req h :: h)) as (Hl & Hnr & Hval).
  destruct (submitA2UTx W (parseJson W text) (wallet_seed W) (Some (wallet_address W))
              (fetched :: session_event W req h :: h)) as [[hash|r|t] tr] eqn:Hrun;
    cbn [fst snd] in *.
  - destruct (Hval hash eq_refl) as (Hne & horizon & tx & submitted & Hsub & Hid).
    destruct (platform_call_run k (endpointBase paymentId ++ "/complete") "POST"
                (txidBody hash)
                (rev (fetched :: tr) ++ session_event W req h :: h)%list) as (o & Hp).
    rewrite Hp in Hr, Hc. cbn [fst snd] in Hr, Hc. split; [|discriminate].
    intros pre ev post Hsplit Hev. rewrite Hc in Hsplit.
    change (session_event W req h :: ((fetched :: tr) ++ [?x])%list)
      with ((session_event W req h :: fetched :: tr) ++ [x])%list in Hsplit.
    apply (last_is_the_one is_complete_call) in Hsplit as (-> & -> & _); [|
      cbn [forallb is_complete_call negb andb fetched recordRequest paymentRequest fr_method
             session_event]; now apply ledger_not_complete | exact Hev].
    exists horizon, tx, submitted, hash. split; [now do 2 right|].
    split; [exact Hid|]. split; [exact Hne|].
    eexists k, _. reflexivity.
  - now destruct (Hnr r).
  - split.
    + intros pre ev post Hsplit Hev. rewrite Hc in Hsplit.
      apply (none_is_the_one is_complete_call) in Hsplit; [congruence|].
      cbn [forallb is_complete_call negb andb fetched recordRequest paymentRequest fr_method
             session_event]. now apply ledger_not_complete.
    + intros t' tr' _. rewrite Hr, Hc. split; [|apply caught_status].
      cbn [forallb is_complete_call negb andb fetched recordRequest paymentRequest fr_method
             session_event]. now apply ledger_not_complete.
Qed.

(** ** The response normaliser *)

Lemma present_trimmed v :
  present v = if trimmed_string v =? "" then None else Some (trimmed_string v).
Proof.
  destruct v; try reflexivity. unfold present, trimmed_string. cbn [typeof str_of].
  change ("string" =? "string") with true. cbn iota. now rewrite trim_blank.
Qed.

Lemma getPiErrorMessage_spec payload fallback :
  nullish payload = false ->
  getPiErrorMessage payload fallback = inr (spec_errorMessage payload fallback).
Proof.
  intros Hn. unfold getPiErrorMessage, spec_errorMessage, prop. rewrite Hn.
  cbn [first_present]. rewrite !present_trimmed.
  destruct (trimmed_string (field payload "error") =? ""); [|reflexivity].
  destruct (trimmed_string (field payload "message") =? ""); [|reflexivity].
  cbn [negb].
  destruct (field payload "data") as [| |b|n|s|items|fs]; try reflexivity.
  - destruct b; reflexivity.
  - destruct n as [|neg|q]; try reflexivity. cbn. destruct (Qeq_bool q 0); reflexivity.
  - cbn. destruct (s =? ""); reflexivity.
  - cbn [truthy typeof Array_isArray nullish negb andb].
    change ("object" =? "object") with true. cbn [andb negb].
    destruct (trimmed_string (field (JObj fs) "error") =? ""); [|reflexivity].
    destruct (trimmed_string (field (JObj fs) "message") =? ""); reflexivity.
Qed.

(** C8, amended.  The parse step maps the empty body to the empty object,
    and every other body to what [JSON.parse] makes of it, or, when that
    fails, to [{raw: <text>}].  For every parsed body other than [null],
    and every fallback, the extracted message is the first of top-level
    [error], top-level [message], [data.error] and [data.message] that is
    a string with something in it besides white space, trimmed, and the
    fallback when there is none.  So the body [not json], which is no
    JSON, gives [{raw: "not json"}], and with the fallback [X failed] the
    message [X failed]. *)
Theorem normalizer_contract :
  parseJson W "" = JObj [] /\
  (forall raw, raw <> "" ->
     parseJson W raw = match JSON_parse W raw with
                       | Some v => v
                       | None => JObj [("raw", JStr raw)]
                       end) /\
  (forall payload fallback, nullish payload = false ->
     getPiErrorMessage payload fallback = inr (spec_errorMessage payload fallback)) /\
  (JSON_parse W "not json" = None ->
     parseJson W "not json" = JObj [("raw", JStr "not json")] /\
     getPiErrorMessage (parseJson W "not json") "X failed" = inr "X failed").
Proof.
  split; [reflexivity|]. split; [|split].
  - intros raw Hraw. unfold parseJson. apply String.eqb_neq in Hraw. now rewrite Hraw.
  - apply getPiErrorMessage_spec.
  - intros Hp. unfold parseJson. rewrite Hp. split; reflexivity.
Qed.

End Runs.

(** ** The scenarios, run *)

Import Scenario.

(** C9 at a request without [Authorization] header. *)
Lemma unauthenticated_request_is_rejected_witness :
  response settled (post None (complete "get" JUndefined)) []
  = jsonResponse (JObj [("error", JStr "Missing auth token")]) 401 /\
  status (response settled (post None (complete "get" JUndefined)) []) = 401%Z /\
  calls settled (post None (complete "get" JUndefined)) [] = [] /\
  forallb (fun ev => negb (is_upstream ev))
    (calls settled (post None (complete "get" JUndefined)) []) = true.
Proof.
  apply (unauthenticated_request_is_rejected settled
           (post None (complete "get" JUndefined)) [] "get").
  - reflexivity.
  - discriminate.
  - reflexivity.
  - reflexivity.
Defined.

(** C9 as stated fails: the request carries no [Authorization] header, the
    session client cannot be built because [SUPABASE_URL] is not set, and
    the answer is 500, not 401. *)
Lemma unauthenticated_request_counterexample :
  request_action (post None (complete "get" JUndefined)) = Some "get" /\
  req_authorization (post None (complete "get" JUndefined)) = None /\
  Deno_env_get clientless "SUPABASE_URL" = None /\
  response clientless (post None (complete "get" JUndefined)) []
  = jsonResponse (JObj [("error", JStr "supabaseUrl is required.")]) 500 /\
  status (response clientless (post None (complete "get" JUndefined)) []) <> 401%Z.
Proof. repeat split. discriminate. Qed.

(** C4 at a payload whose uid is a no-break space, sent with a valid
    session. *)
Lemma a2u_create_rejects_invalid_payload_witness :
  status (response settled (post bearer (create blank_uid)) []) = 400%Z /\
  calls settled (post bearer (create blank_uid)) []
  = [session_event settled (post bearer (create blank_uid)) []] /\
  forallb (fun ev => negb (is_upstream ev))
    (calls settled (post bearer (create blank_uid)) []) = true.
Proof.
  apply (a2u_create_rejects_invalid_payload settled
           (post bearer (create blank_uid)) [] "key-1"); reflexivity.
Defined.

(** C4 as stated fails: the same payload without a session is answered
    401, and with a session but no platform key 500, not 400; and a
    payload whose amount is an object without a primitive value, which is
    no finite number, is answered 500 as well. *)
Lemma a2u_create_invalid_payload_counterexample :
  request_action (post None (create no_amount)) = Some "a2u_create" /\
  valid_payload settled (request_field (post None (create no_amount)) "payment") = false /\
  status (response settled (post None (create no_amount)) []) = 401%Z /\
  status (response keyless (post bearer (create no_amount)) []) = 500%Z /\
  valid_payload settled (request_field (post bearer (create odd_amount)) "payment") = false /\
  response settled (post bearer (create odd_amount)) []
  = jsonResponse (JObj [("error", JStr "Cannot convert object to primitive value")]) 500.
Proof. repeat split. Qed.

(** C2 at a listing with one payment, of another user. *)
Lemma a2u_create_conflict_witness :
  response other_pending (post bearer (create payout)) [] = conflict_response /\
  status (response other_pending (post bearer (create payout)) []) = 409%Z /\
  calls other_pending (post bearer (create payout)) []
  = [session_event other_pending (post bearer (create payout)) [];
     EvFetch (incompleteRequest "key-1")
       (Responded 200 (Runtime.json_text (listed P9_of_u2)))] /\
  (forall rq out,
     In (EvFetch rq out) (calls other_pending (post bearer (create payout)) []) ->
     fr_method rq = "GET") /\
  (forall out, ~ In (EvFetch (createRequest "key-1" payout) out)
                    (calls other_pending (post bearer (create payout)) [])).
Proof.
  apply (a2u_create_conflict other_pending (post bearer (create payout)) [] "key-1" 200%Z
           (Runtime.json_text (listed P9_of_u2))
           (JObj [("identifier", JStr "P9"); ("user_uid", JStr "u2");
                  ("amount", JNum (num_of_Z 2)); ("memo", JStr "other");
                  ("direction", JStr "app_to_user")]) [] "u2").
  - reflexivity.
  - reflexivity.
  - reflexivity.
  - vm_compute. right. left. reflexivity.
  - reflexivity.
  - reflexivity.
  - reflexivity.
  - discriminate.
  - vm_compute. discriminate.
Defined.

(** C2 as stated fails: the listing succeeds and contains a payment of
    user [u2], the request is for [u1], and the answer is 200 with the
    first listed payment, not 409. *)
Lemma a2u_create_conflict_counterexample :
  session_valid own_then_other (post bearer (create payout)) [] = true /\
  valid_payload own_then_other (request_field (post bearer (create payout)) "payment") = true /\
  In (EvFetch (incompleteRequest "key-1")
        (Responded 200 (Runtime.json_text (listed (P1_of_u1 ++ "," ++ P9_of_u2)))))
     (calls own_then_other (post bearer (create payout)) []) /\
  map (pendingUid own_then_other)
      (pending_list own_then_other (Runtime.json_text (listed (P1_of_u1 ++ "," ++ P9_of_u2))))
  = [inr "u1"; inr "u2"] /\
  payload_uid payout = "u1" /\
  status (response own_then_other (post bearer (create payout)) []) = 200%Z.
Proof.
  repeat split; try reflexivity. vm_compute. right. left. reflexivity.
Qed.

(** C3 at a listing with one payment, of the caller, and at two successive
    calls to the one-slot platform, which lists the created payment with a
    status, its uid followed by a no-break space. *)
Lemma a2u_create_reuses_incomplete_witness :
  (response own_pending (post bearer (create payout)) []
   = reused_response (JObj [("identifier", JStr "P1"); ("user_uid", JStr "u1");
                            ("amount", JNum (num_of_Z 5)); ("memo", JStr "payout");
                            ("direction", JStr "app_to_user")]) /\
   calls own_pending (post bearer (create payout)) []
   = [session_event own_pending (post bearer (create payout)) [];
      EvFetch (incompleteRequest "key-1")
        (Responded 200 (Runtime.json_text (listed P1_of_u1)))] /\
   (forall rq out,
      In (EvFetch rq out) (calls own_pending (post bearer (create payout)) []) ->
      fr_method rq = "GET") /\
   (forall out, ~ In (EvFetch (createRequest "key-1" payout) out)
                     (calls own_pending (post bearer (create payout)) []))) /\
  (response_field
     (response one_slot (post bearer (create payout))
        (rev (calls one_slot (post bearer (create payout)) []) ++ [])%list)
     "reusedIncomplete" = JBool true /\
   response_data
     (response one_slot (post bearer (create payout))
        (rev (calls one_slot (post bearer (create payout)) []) ++ [])%list)
   = asRecord (JObj [("identifier", JStr "P1"); ("user_uid", JStr ("u1" ++ nbsp));
                     ("amount", JNum (num_of_Z 5)); ("memo", JStr "payout");
                     ("direction", JStr "app_to_user");
                     ("status", JObj [("developer_completed", JBool false)])]) /\
   field (response_data
            (response one_slot (post bearer (create payout))
               (rev (calls one_slot (post bearer (create payout)) []) ++ [])%list))
         "identifier"
   = field (response_data (response one_slot (post bearer (create payout)) [])) "identifier" /\
   (forall rq out,
      In (EvFetch rq out)
         (calls one_slot (post bearer (create payout))
            (rev (calls one_slot (post bearer (create payout)) []) ++ [])%list) ->
      fr_method rq = "GET")).
Proof.
  split.
  - apply (proj1 (a2u_create_reuses_incomplete own_pending)
             (post bearer (create payout)) [] "key-1" 200%Z
             (Runtime.json_text (listed P1_of_u1))
             (JObj [("identifier", JStr "P1"); ("user_uid", JStr "u1");
                    ("amount", JNum (num_of_Z 5)); ("memo", JStr "payout");
                    ("direction", JStr "app_to_user")]) []).
    + reflexivity.
    + reflexivity.
    + reflexivity.
    + vm_compute. right. left. reflexivity.
    + reflexivity.
    + reflexivity.
    + reflexivity.
  - apply (proj2 (a2u_create_reuses_incomplete one_slot)
             (post bearer (create payout)) (post bearer (create payout)) [] "key-1"
             200%Z (Runtime.json_text P1_of_u1)
             200%Z (Runtime.json_text (listed P1_as_listed))
             (JObj [("identifier", JStr "P1"); ("user_uid", JStr ("u1" ++ nbsp));
                    ("amount", JNum (num_of_Z 5)); ("memo", JStr "payout");
                    ("direction", JStr "app_to_user");
                    ("status", JObj [("developer_completed", JBool false)])]) []).
    + reflexivity.
    + reflexivity.
    + reflexivity.
    + vm_compute. right. right. left. reflexivity.
    + reflexivity.
    + vm_compute. right. left. reflexivity.
    + reflexivity.
    + reflexivity.
    + reflexivity.
    + reflexivity.
Defined.

(** C3 as stated fails: the listing succeeds and contains a payment of the
    request's user, listed second, and the answer is 409, not that
    payment. *)
Lemma a2u_create_reuse_counterexample :
  session_valid other_then_own (post bearer (create payout)) [] = true /\
  valid_payload other_then_own (request_field (post bearer (create payout)) "payment") = true /\
  In (EvFetch (incompleteRequest "key-1")
        (Responded 200 (Runtime.json_text (listed (P9_of_u2 ++ "," ++ P1_of_u1)))))
     (calls other_then_own (post bearer (create payout)) []) /\
  map (pendingUid other_then_own)
      (pending_list other_then_own (Runtime.json_text (listed (P9_of_u2 ++ "," ++ P1_of_u1))))
  = [inr "u2"; inr "u1"] /\
  payload_uid payout = "u1" /\
  status (response other_then_own (post bearer (create payout)) []) = 409%Z /\
  response_field (response other_then_own (post bearer (create payout)) []) "reusedIncomplete"
  = JUndefined.
Proof.
  repeat split; try reflexivity. vm_compute. right. left. reflexivity.
Qed.

(** C10 at a listing answered 503 that names another user's payment. *)
Lemma a2u_create_listing_failure_witness :
  calls listing_down (post bearer (create payout)) []
  = [session_event listing_down (post bearer (create payout)) [];
     EvFetch (incompleteRequest "key-1") (Responded 503 (Runtime.json_text (listed P9_of_u2)));
     EvFetch {| fr_url := "https://api.minepi.com/v2/payments";
                fr_method := "POST";
                fr_headers := [("Content-Type", "application/json");
                               ("Authorization", "Key key-1")];
                fr_body := Some payout |}
       (Responded 200 (Runtime.json_text P1_of_u1))] /\
  status (response listing_down (post bearer (create payout)) []) <> 409%Z /\
  response_field (response listing_down (post bearer (create payout)) []) "reusedIncomplete"
  = JUndefined /\
  response listing_down (post bearer (create payout)) []
  = created_response (parseJson listing_down (Runtime.json_text P1_of_u1)).
Proof.
  destruct (a2u_create_listing_failure_falls_through listing_down
              (post bearer (create payout)) [] "key-1" 503%Z
              (Runtime.json_text (listed P9_of_u2)))
    as (Hc & Hs & Hf & Hr).
  - reflexivity.
  - vm_compute. right. left. reflexivity.
  - reflexivity.
  - split; [exact Hc|]. split; [exact Hs|]. split; [exact Hf|].
    exact (Hr 200%Z (Runtime.json_text P1_of_u1) eq_refl eq_refl).
Defined.



(** C6 at a record that carries the transaction id [T1]. *)
Lemma settled_payment_completes_with_its_txid_witness :
  exists k,
    let completion :=
      {| fr_url := "https://api.minepi.com/v2/payments/" ++ "P1" ++ "/complete";
         fr_method := "POST";
         fr_headers := [("Content-Type", "application/json"); ("Authorization", "Key " ++ k)];
         fr_body := Some (JObj [("txid", JStr "T1")]) |} in
    recordRequest "key-1" "P1" = recordRequest k "P1" /\
    calls settled (post bearer (complete "a2u_complete" JUndefined)) []
    = [session_event settled (post bearer (complete "a2u_complete" JUndefined)) [];
       EvFetch (recordRequest k "P1") (Responded 200 (Runtime.json_text settled_record));
       EvFetch completion
         (fetch settled
            [EvFetch (recordRequest k "P1") (Responded 200 (Runtime.json_text settled_record));
             session_event settled (post bearer (complete "a2u_complete" JUndefined)) []]
            completion)] /\
    forallb (fun ev => negb (is_ledger_event ev))
      (calls settled (post bearer (complete "a2u_complete" JUndefined)) []) = true.
Proof.
  apply (settled_payment_completes_with_its_txid settled
           (post bearer (complete "a2u_complete" JUndefined)) []
           (recordRequest "key-1" "P1") 200%Z (Runtime.json_text settled_record) "T1").
  - reflexivity.
  - reflexivity.
  - vm_compute. right. left. reflexivity.
  - reflexivity.
  - reflexivity.
  - reflexivity.
  - discriminate.
Defined.

(** C6 as stated fails: the record's transaction id is [ T1 ], with a
    space on each side, and the body of the complete call carries [T1],
    which is not that id. *)
Lemma settled_payment_counterexample :
  request_field (post bearer (complete "a2u_complete" JUndefined)) "txid" = JUndefined /\
  field (field (parseJson padded (Runtime.json_text padded_record)) "transaction") "txid"
  = JStr " T1 " /\
  calls padded (post bearer (complete "a2u_complete" JUndefined)) []
  = [session_event padded (post bearer (complete "a2u_complete" JUndefined)) [];
     EvFetch {| fr_url := "https://api.minepi.com/v2/payments/P1";
                fr_method := "GET";
                fr_headers := [("Content-Type", "application/json");
                               ("Authorization", "Key key-1")];
                fr_body := None |}
       (Responded 200 (Runtime.json_text padded_record));
     EvFetch {| fr_url := "https://api.minepi.com/v2/payments/P1/complete";
                fr_method := "POST";
                fr_headers := [("Content-Type", "application/json");
                               ("Authorization", "Key key-1")];
                fr_body := Some (JObj [("txid", JStr "T1")]) |}
       (Responded 200
          (Runtime.json_text "{'identifier':'P1','status':{'developer_completed':true}}"))] /\
  JStr "T1" <> JStr " T1 ".
Proof.
  repeat split. discriminate.
Qed.

(** C7 at the txid [H1]. *)
Lemma explicit_txid_is_forwarded_witness :
  calls settled (post bearer (complete "complete" (JStr "H1"))) []
  = [session_event settled (post bearer (complete "complete" (JStr "H1"))) [];
     EvFetch {| fr_url := "https://api.minepi.com/v2/payments/" ++ "P1" ++ "/complete";
                fr_method := "POST";
                fr_headers := [("Content-Type", "application/json");
                               ("Authorization", "Key " ++ "key-1")];
                fr_body := Some (JObj [("txid", JStr "H1")]) |}
       (fetch settled
          [session_event settled (post bearer (complete "complete" (JStr "H1"))) []]
          {| fr_url := "https://api.minepi.com/v2/payments/" ++ "P1" ++ "/complete";
             fr_method := "POST";
             fr_headers := [("Content-Type", "application/json");
                            ("Authorization", "Key " ++ "key-1")];
             fr_body := Some (JObj [("txid", JStr "H1")]) |})].
Proof.
  destruct (explicit_txid_is_forwarded settled
              (post bearer (complete "complete" (JStr "H1"))) [] "complete" "H1"
              eq_refl eq_refl eq_refl ltac:(discriminate)) as [_ H].
  exact (H "key-1" eq_refl eq_refl eq_refl).
Defined.

(** C7 as stated fails: the txid supplied is [ H1 ], with a space on each
    side, and the body of the complete call carries [H1]. *)
Lemma explicit_txid_counterexample :
  request_field (post bearer (complete "complete" (JStr " H1 "))) "txid" = JStr " H1 " /\
  calls settled (post bearer (complete "complete" (JStr " H1 "))) []
  = [session_event settled (post bearer (complete "complete" (JStr " H1 "))) [];
     EvFetch {| fr_url := "https://api.minepi.com/v2/payments/P1/complete";
                fr_method := "POST";
                fr_headers := [("Content-Type", "application/json");
                               ("Authorization", "Key key-1")];
                fr_body := Some (JObj [("txid", JStr "H1")]) |}
       (Responded 200
          (Runtime.json_text "{'identifier':'P1','status':{'developer_completed':true}}"))] /\
  Some (JObj [("txid", JStr "H1")]) <> Some (JObj [("txid", JStr " H1 ")]).
Proof.
  repeat split. discriminate.
Qed.

(** C1 at a record to settle: with a ledger that accepts, and with a ledger
    that refuses the transaction. *)
Lemma a2u_settlement_precedes_completion_witness :
  (forall before ev after,
     calls unsettled (post bearer (complete "a2u_complete" JUndefined)) []
     = (before ++ ev :: after)%list ->
     is_complete_call ev = true ->
     exists horizon tx submitted hash,
       In (EvSubmit horizon tx (inr submitted)) before /\
       ledger_txid unsettled submitted = inr hash /\ hash <> "" /\
       exists k out,
         ev = EvFetch (completeRequest k "P1" (Some (JObj [("txid", JStr hash)]))) out)
  /\
  (forallb (fun ev => negb (is_complete_call ev))
     (calls ledger_refuses (post bearer (complete "a2u_complete" JUndefined)) []) = true /\
   status (response ledger_refuses (post bearer (complete "a2u_complete" JUndefined)) [])
   = 500%Z).
Proof.
  split.
  - apply (a2u_settlement_precedes_completion unsettled
             (post bearer (complete "a2u_complete" JUndefined)) []
             (recordRequest "key-1" "P1") 200%Z (Runtime.json_text unsettled_record)).
    + reflexivity.
    + reflexivity.
    + vm_compute. right. left. reflexivity.
    + reflexivity.
    + reflexivity.
    + reflexivity.
    + reflexivity.
  - eapply (a2u_settlement_precedes_completion ledger_refuses
              (post bearer (complete "a2u_complete" JUndefined)) []
              (recordRequest "key-1" "P1") 200%Z (Runtime.json_text unsettled_record)).
    + reflexivity.
    + reflexivity.
    + vm_compute. right. left. reflexivity.
    + reflexivity.
    + reflexivity.
    + reflexivity.
    + reflexivity.
    + vm_compute. reflexivity.
Defined.

(** C8 on the concrete runtime. *)
Lemma normalizer_contract_witness :
  parseJson settled "not json" = JObj [("raw", JStr "not json")] /\
  getPiErrorMessage (parseJson settled "not json") "X failed" = inr "X failed".
Proof.
  apply (proj2 (proj2 (proj2 (normalizer_contract settled)))).
  reflexivity.
Defined.

(** C8 as stated fails: the empty body is no JSON and is not wrapped as
    [{raw: ""}]; and on the parsed body [null] no message is extracted,
    the read of [error] throws. *)
Lemma normalizer_counterexample :
  JSON_parse settled "" = None /\
  parseJson settled "" = JObj [] /\
  JObj [] <> JObj [("raw", JStr "")] /\
  parseJson settled "null" = JNull /\
  getPiErrorMessage (parseJson settled "null") "X failed"
  = inl (JsError "Cannot read properties of null (reading 'error')").
Proof.
  repeat split. discriminate.
Qed.


(** The calls of the two settlement scenarios, in order. *)
Example calls_when_the_ledger_accepts :
  map event_name (calls unsettled (post bearer (complete "a2u_complete" JUndefined)) [])
  = ["getUser"; "GET https://api.minepi.com/v2/payments/P1";
     "loadAccount"; "fetchBaseFee"; "build"; "sign"; "submitTransaction: accepted";
     "POST https://api.minepi.com/v2/payments/P1/complete"].
Proof. reflexivity. Qed.

Example calls_when_the_ledger_refuses :
  map event_name (calls ledger_refuses (post bearer (complete "a2u_complete" JUndefined)) [])
  = ["getUser"; "GET https://api.minepi.com/v2/payments/P1";
     "loadAccount"; "fetchBaseFee"; "build"; "sign"; "submitTransaction: refused"].
Proof. reflexivity. Qed.

(** The scenario of the contract: a payout for [u1] when nothing is
    pending is created, and a second call right after it is answered with
    the payment as the platform then lists it, marked as reused. *)
Example create_then_retry :
  response one_slot (post bearer (create payout)) []
  = created_response (parseJson one_slot (Runtime.json_text P1_of_u1)) /\
  response one_slot (post bearer (create payout))
    (rev (calls one_slot (post bearer (create payout)) []))
  = reused_response (parseJson one_slot (Runtime.json_text P1_as_listed)).
Proof. split; reflexivity. Qed.

(** White space is what ECMAScript calls so: a no-break space counts, at
    either end of a string. *)
Example trim_is_unicode :
  trim (nbsp ++ " u1" ++ nbsp) = "u1" /\
  trim nbsp = "" /\
  getPiErrorMessage (JObj [("error", JStr nbsp); ("message", JStr "real")]) "X failed"
  = inr "real" /\
  status (response settled (post bearer (complete "complete" (JStr nbsp))) []) = 200%Z /\
  map (fun ev => match ev with EvFetch rq _ => fr_body rq | _ => None end)
      (calls settled (post bearer (complete "complete" (JStr nbsp))) [])
  = [None; None].
Proof. repeat split. Qed.

(** An object with a [toString] member of its own has no string form: the
    conversion throws. *)
Example conversion_can_throw :
  String_ settled (JObj [("toString", JNum (num_of_Z 1))])
  = inl (JsError "Cannot convert object to primitive value") /\
  String_ settled (JObj [("identifier", JStr "P1")]) = inr "[object Object]".
Proof. split; reflexivity. Qed.

(** * Further properties of the gateway

    What follows speaks about the handler as a whole: the shape of its
    answers, the calls it makes and never makes, and each action in turn.
    The session client of lines 123-125 is built first, from two variables
    of the hosting platform; when it cannot be built the request is
    answered 500 before its body is read. *)

(** ** Properties kept along a run

    A property of the events a step adds ([I], kept by concatenation) and a
    property of the responses it leaves the handler with ([R]) are kept by
    sequencing. *)

Section Obeys.

Variable I : TraceProperty.
Variable R : Response -> Prop.

Lemma obeys_ret {A} (V : A -> Prop) a : V a -> obeys I R V (ret a).
Proof. intros Ha h. split; [apply holds_nil|exact Ha]. Qed.

Lemma obeys_return {A} (V : A -> Prop) r : R r -> obeys I R V (return_ r).
Proof. intros Hr h. split; [apply holds_nil|exact Hr]. Qed.

Lemma obeys_throw {A} (V : A -> Prop) t : obeys I R V (throw t).
Proof. intros h. split; [apply holds_nil|exact Logic.I]. Qed.

Lemma obeys_lift {A} (V : A -> Prop) (e : exc A) :
  (forall a, e = inr a -> V a) -> obeys I R V (lift e).
Proof.
  intros H. destruct e as [t|a]; [apply obeys_throw|apply obeys_ret; now apply H].
Qed.

Lemma obeys_call {A} (V : A -> Prop) (ask : Trace -> A) ev :
  (forall h, I [ev (ask h)] /\ V (ask h)) -> obeys I R V (call ask ev).
Proof. intros H h. exact (H h). Qed.

Lemma obeys_emit (V : unit -> Prop) ev : I [ev] -> V tt -> obeys I R V (emit ev).
Proof. intros Hi Hv h. split; assumption. Qed.

Lemma obeys_bind {A B} (U : A -> Prop) (V : B -> Prop) (m : M A) (k : A -> M B) :
  obeys I R U m -> (forall a, U a -> obeys I R V (k a)) -> obeys I R V (bind m k).
Proof.
  intros Hm Hk h. unfold bind. destruct (Hm h) as [Hi Ho].
  destruct (m h) as [[a|r|t] t1]; cbn [fst snd] in *; try (split; assumption).
  destruct (Hk a Ho (rev t1 ++ h)%list) as [Hi' Ho'].
  destruct (k a _) as [o t2]. cbn [fst snd] in *. split; [now apply holds_app|exact Ho'].
Qed.

Lemma obeys_bind_ret {A B} (V : B -> Prop) (a : A) (k : A -> M B) :
  obeys I R V (k a) -> obeys I R V (bind (ret a) k).
Proof. intros H h. rewrite bind_ret. apply H. Qed.

Lemma obeys_weaken {A} (U V : A -> Prop) (m : M A) :
  obeys I R U m -> (forall a, U a -> V a) -> obeys I R V m.
Proof.
  intros Hm Huv h. destruct (Hm h) as [Hi Ho]. split; [exact Hi|].
  destruct (fst (m h)); auto.
Qed.

End Obeys.

(** ** Counting the calls of a run *)

Section Within.

Variable P : Event -> bool.

Lemma count_app t1 t2 : count P (t1 ++ t2)%list = (count P t1 + count P t2)%nat.
Proof. unfold count. now rewrite filter_app, length_app. Qed.

Lemma within_weaken {A} n n' (m : M A) : within P n m -> (n <= n')%nat -> within P n' m.
Proof. intros H Hn h. specialize (H h). lia. Qed.

Lemma within_ret {A} (a : A) : within P 0 (ret a).
Proof. intros h. apply Nat.le_0_l. Qed.

Lemma within_return {A} r : within P 0 (@return_ A r).
Proof. intros h. apply Nat.le_0_l. Qed.

Lemma within_throw {A} t : within P 0 (@throw A t).
Proof. intros h. apply Nat.le_0_l. Qed.

Lemma within_lift {A} (e : exc A) : within P 0 (lift e).
Proof. destruct e; [apply within_throw|apply within_ret]. Qed.

Lemma within_call_free {A} (ask : Trace -> A) ev :
  (forall a, P (ev a) = false) -> within P 0 (call ask ev).
Proof. intros H h. unfold call, count. cbn. rewrite H. apply Nat.le_0_l. Qed.

Lemma within_call_counted {A} (ask : Trace -> A) ev : within P 1 (call ask ev).
Proof. intros h. unfold call, count. cbn. destruct (P _); cbn; lia. Qed.

Lemma within_emit_free ev : P ev = false -> within P 0 (emit ev).
Proof. intros H h. unfold emit, count. cbn. rewrite H. apply Nat.le_0_l. Qed.

Lemma within_emit_counted ev : within P 1 (emit ev).
Proof. intros h. unfold emit, count. cbn. destruct (P _); cbn; lia. Qed.

Lemma within_bind {A B} n1 n2 (m : M A) (k : A -> M B) :
  within P n1 m -> (forall a, within P n2 (k a)) -> within P (n1 + n2) (bind m k).
Proof.
  intros Hm Hk h. unfold bind. specialize (Hm h).
  destruct (m h) as [[a|r|t] t1]; cbn [snd] in *; try lia.
  specialize (Hk a (rev t1 ++ h)%list). destruct (k a _) as [o t2]. cbn [snd] in *.
  rewrite count_app. lia.
Qed.

Lemma within_bind_ret {A B} n (a : A) (k : A -> M B) :
  within P n (k a) -> within P n (bind (ret a) k).
Proof. intros H h. rewrite bind_ret. apply H. Qed.

Lemma within_if {A} n1 n2 (b : bool) (m1 m2 : M A) :
  within P n1 m1 -> within P n2 m2 -> within P (Nat.max n1 n2) (if b then m1 else m2).
Proof.
  intros H1 H2. destruct b; [apply (within_weaken n1)|apply (within_weaken n2)];
    auto using Nat.le_max_l, Nat.le_max_r.
Qed.

Lemma within_option {A X} n1 n2 (o : option X) (f : X -> M A) (g : M A) :
  (forall x, within P n1 (f x)) -> within P n2 g ->
  within P (Nat.max n1 n2) (match o with Some x => f x | None => g end).
Proof.
  intros H1 H2. destruct o; [apply (within_weaken n1)|apply (within_weaken n2)];
    auto using Nat.le_max_l, Nat.le_max_r.
Qed.

Lemma within_list {A X} n1 n2 (l : list X) (g : M A) (f : X -> list X -> M A) :
  within P n1 g -> (forall x r, within P n2 (f x r)) ->
  within P (Nat.max n1 n2) (match l with [] => g | x :: r => f x r end).
Proof.
  intros H1 H2. destruct l; [apply (within_weaken n1)|apply (within_weaken n2)];
    auto using Nat.le_max_l, Nat.le_max_r.
Qed.

Lemma within_outcome {A} n1 n2 (out : FetchOutcome) (f : Z -> string -> M A) (g : thrown -> M A) :
  (forall st text, within P n1 (f st text)) -> (forall t, within P n2 (g t)) ->
  within P (Nat.max n1 n2)
    (match out with Responded st text => f st text | Rejected t => g t end).
Proof.
  intros H1 H2. destruct out; [apply (within_weaken n1)|apply (within_weaken n2)];
    auto using Nat.le_max_l, Nat.le_max_r.
Qed.

End Within.

Ltac head_of t := lazymatch t with ?f _ => head_of f | _ => t end.

(** The exact count of a step, found by following its structure. *)
Ltac bound :=
  lazymatch goal with
  | |- within _ _ (bind (ret _) _) => apply within_bind_ret; cbn beta; bound
  | |- within _ _ (bind _ _) => apply within_bind; [bound|intros ?; bound]
  | |- within _ _ (ret _) => apply within_ret
  | |- within _ _ (return_ _) => apply within_return
  | |- within _ _ (throw _) => apply within_throw
  | |- within _ _ (lift _) => apply within_lift
  | |- within _ _ (call _ _) =>
      first [ apply within_call_free; intros ?; reflexivity | apply within_call_counted ]
  | |- within _ _ (emit _) =>
      first [ apply within_emit_free; reflexivity | apply within_emit_counted ]
  | |- within _ _ (match _ with Some _ => _ | None => _ end) =>
      apply within_option; [intros ?; bound|bound]
  | |- within _ _ (match _ with [] => _ | _ :: _ => _ end) =>
      apply within_list; [bound|intros ? ?; bound]
  | |- within _ _ (match _ with Responded _ _ => _ | Rejected _ => _ end) =>
      apply within_outcome; [intros ? ?; bound|intros ?; bound]
  | |- within _ _ (if ?b then _ else _) =>
      lazymatch type of b with
      | bool => apply within_if; bound
      end
  | |- within _ _ (match ?x with _ => _ end) => destruct x; bound
  | |- within _ _ ?m => let f := head_of m in unfold f; bound
  end.

Ltac bounded := eapply within_weaken; [bound|vm_compute; lia].

(** ** The rest of the gateway *)

Section More.

Variable W : World.

Ltac obey_step :=
  lazymatch goal with
  | |- obeys _ _ _ (bind (ret _) _) => apply obeys_bind_ret; cbn beta
  | |- obeys _ _ _ (bind _ _) => eapply obeys_bind with (U := fun _ => True); [|intros ? _]
  | |- obeys _ _ _ (ret _) => apply obeys_ret
  | |- obeys _ _ _ (return_ _) => apply obeys_return
  | |- obeys _ _ _ (throw _) => apply obeys_throw
  | |- obeys _ _ _ (lift _) => apply obeys_lift; intros ? _
  | |- obeys _ _ _ (call _ _) => apply obeys_call; intros ?; split
  | |- obeys _ _ _ (emit _) => apply obeys_emit
  | |- obeys _ _ _ (if ?b then _ else _) => destruct b eqn:?
  | |- obeys _ _ _ (match ?x with _ => _ end) => destruct x eqn:?
  | |- obeys _ _ _ ?m =>
      first [ match goal with H : forall _, _ |- _ => solve [apply H] end
            | let f := head_of m in unfold f ]
  end.

Ltac shaped_ok :=
  solve [ exact Logic.I
        | left; eexists; split; [reflexivity|cbn; intuition discriminate]
        | right; do 3 eexists; split; [reflexivity|split; [cbn; tauto|]];
          solve [left; reflexivity | right; do 2 eexists; reflexivity] ].

(** Every response the handler leaves with, or yields, has one of the two
    shapes. *)
Lemma handler_shaped req :
  obeys anything shaped shaped (handler W req).
Proof.
  unfold handler. repeat obey_step; shaped_ok.
Qed.

Lemma assoc_absent k fs : ~ In k (map fst fs) -> assoc k fs = JUndefined.
Proof.
  induction fs as [|[k' v] fs IH]; cbn; intros H; [reflexivity|].
  destruct (k =? k') eqn:E.
  - apply String.eqb_eq in E. subst. tauto.
  - apply IH. tauto.
Qed.

Lemma caught_shaped t : shaped (caught t).
Proof. destruct t; shaped_ok. Qed.

Lemma serve_not_preflight req h :
  (req_method req =? "OPTIONS") = false ->
  response W req h = respond (fst (handler W req h)) /\ calls W req h = snd (handler W req h).
Proof.
  intros Hm. unfold response, calls, serve. rewrite Hm.
  destruct (handler W req h); split; reflexivity.
Qed.

(** X2.  A request that is not a pre-flight is answered in JSON, in one of
    two shapes: status 200 with [{success: true, data, ...}], or status
    400, 401, 409 or 500 with [{error: <string>}], possibly with [status]
    and [data].  So the status is 200 exactly when the body says
    [success: true], and an [error] string is there exactly when it is
    not. *)
Theorem response_contract req h :
  (req_method req =? "OPTIONS") = false ->
  shaped (response W req h) /\
  (status (response W req h) = 200%Z <->
   response_field (response W req h) "success" = JBool true) /\
  (status (response W req h) <> 200%Z <->
   exists message, response_field (response W req h) "error" = JStr message).
Proof.
  intros Hm. destruct (serve_not_preflight req h Hm) as [-> _].
  assert (shaped (respond (fst (handler W req h)))) as Hs.
  { destruct (handler_shaped req h) as [_ Ho].
    destruct (fst (handler W req h)); [exact Ho|exact Ho|apply caught_shaped]. }
  split; [exact Hs|].
  destruct Hs as [(rest & -> & _ & Hno)|(m & extra & st & -> & Hst & Hex)].
  - split; split; intros H; try reflexivity.
    + now destruct H.
    + destruct H as [m H]. unfold response_field in H. cbn in H.
      rewrite (assoc_absent _ _ Hno) in H. discriminate.
  - assert (st <> 200%Z) as Hne.
    { cbn in Hst. intros ->. repeat (destruct Hst as [Hst|Hst]; [discriminate|]). exact Hst. }
    split; split; intros H.
    + now destruct Hne.
    + exfalso. unfold response_field in H. cbn in H.
      destruct Hex as [->|(u & d & ->)]; discriminate.
    + exists m. reflexivity.
    + exact Hne.
Qed.

(** X1.  Every response, to whatever request, carries the two CORS
    headers: any origin is allowed, with the four request headers the
    client sends. *)
Theorem every_response_allows_cross_origin req h :
  In ("Access-Control-Allow-Origin", "*") (headers (response W req h)) /\
  In ("Access-Control-Allow-Headers", "authorization, x-client-info, apikey, content-type")
     (headers (response W req h)).
Proof.
  destruct (req_method req =? "OPTIONS") eqn:Hm.
  - unfold response, serve. rewrite Hm. cbn. tauto.
  - destruct (response_contract req h Hm) as [[(rest & -> & _)|(m & extra & st & -> & _)] _];
      cbn; tauto.
Qed.

Ltac listed_ok := solve [ assumption | repeat first [left; reflexivity | right] ].

Ltac keyed_ok :=
  solve [ exact Logic.I
        | reflexivity
        | listed_ok
        | apply Forall_cons; [|apply Forall_nil]; cbn [keyed];
          first [ exact Logic.I
                | split; [listed_ok|split; [|]];
                  solve [ now left | now right; left
                        | intros ? [<-|[]]; now right; left
                        | apply incl_refl ] ] ].

Lemma payment_action_keyed k a paymentId adId txid :
  obeys (every (keyed k paymentId adId)) (fun _ => True) (fun _ => True)
    (payment_action W a k paymentId txid).
Proof.
  unfold payment_action. destruct (not_a_name paymentId); [obey_step; keyed_ok|].
  eapply obeys_bind with (U := fun c => In (fst (fst c)) (addresses paymentId adId)).
  - repeat obey_step; keyed_ok.
  - intros [[endpoint method] b] Hc. cbn [fst] in Hc. repeat obey_step; keyed_ok.
Qed.

(** The platform calls of the actions that need a session are made with
    the configured key, to the addresses of the request's ids. *)
Lemma actions_keyed json k :
  api_key W = Some k ->
  obeys (every (keyed k (field json "paymentId") (field json "adId")))
    (fun _ => True) (fun _ => True) (actions W json).
Proof.
  intros Hk. apply api_key_inv in Hk as [Hk Hne]. unfold actions. rewrite Hk, Hne.
  pose proof (fun a txid =>
                payment_action_keyed k a (field json "paymentId") (field json "adId") txid)
    as Hpa.
  repeat obey_step; keyed_ok.
Qed.

(** X3.  For every action but [auth_verify], when the platform key is
    configured, every call to the platform is given one of seven URLs: the
    listing of incomplete payments, the create endpoint, the status of the
    request's ad, and the request's payment, plain or followed by
    [/approve], [/complete] or [/cancel], with the ad id and the payment
    id pasted in as the request has them.  Every such call carries
    [Authorization: Key <the key>]; its only other header is the content
    type, so the caller's session token is never forwarded. *)
Theorem platform_calls_carry_the_key req h a k :
  request_action req = Some a -> a <> "auth_verify" ->
  api_key W = Some k ->
  Forall (keyed k (request_field req "paymentId") (request_field req "adId")) (calls W req h).
Proof.
  intros Ha Hne Hk. unfold calls. rewrite (serve_session W _ _ _ Ha Hne).
  destruct (session_valid W req h); cbn [snd].
  - apply Forall_cons; [exact Logic.I|].
    apply (actions_keyed (request_json req) k Hk).
  - destruct (client W) as [t|[]]; cbn [snd]; [constructor|].
    destruct (has_bearer req); repeat constructor.
Qed.

Ltac off_ledger_ok :=
  solve [ exact Logic.I
        | congruence
        | apply Forall_cons; [reflexivity|apply Forall_nil] ].

(** X4.  The ledger is touched for the action [a2u_complete] only: for a
    request with any other action, no account is loaded, no fee fetched,
    and no transaction built, signed or submitted. *)
Theorem ledger_is_for_a2u_complete_only req h a :
  request_action req = Some a -> a <> "a2u_complete" ->
  Forall off_ledger (calls W req h).
Proof.
  intros Ha Hne.
  destruct (request_action_inv _ _ Ha) as (Hm & Hj & _ & Hf & _).
  destruct (serve_not_preflight req h Hm) as [_ ->].
  assert ((str_of (field (request_json req) "action") =? "a2u_complete") = false) as Hcmp.
  { rewrite Hf. now apply String.eqb_neq. }
  revert h.
  assert (obeys (every off_ledger) (fun _ => True) (fun _ => True) (handler W req)) as H;
    [|intros h; apply (H h)].
  unfold handler. rewrite Hj. cbn [lift]. clear Ha Hm Hj Hf Hne.
  repeat (try congruence; obey_step); off_ledger_ok.
Qed.

Lemma handler_platform_calls req : within is_platform_call 2 (handler W req).
Proof. bounded. Qed.

Lemma handler_session_checks req : within is_session_check 1 (handler W req).
Proof. bounded. Qed.

Lemma handler_submissions req : within is_submission 1 (handler W req).
Proof. bounded. Qed.

Lemma handler_ledger_events req : within is_ledger_event 5 (handler W req).
Proof. bounded. Qed.

(** X5.  The handler never repeats a call: one request makes at most one
    session check, at most two calls to the platform, at most one ledger
    submission, and at most five ledger steps in all. *)
Theorem calls_are_bounded req h :
  (count is_session_check (calls W req h) <= 1)%nat /\
  (count is_platform_call (calls W req h) <= 2)%nat /\
  (count is_submission (calls W req h) <= 1)%nat /\
  (count is_ledger_event (calls W req h) <= 5)%nat.
Proof.
  unfold calls, serve. destruct (req_method req =? "OPTIONS").
  - cbn. repeat split; lia.
  - pose proof (handler_platform_calls req h). pose proof (handler_session_checks req h).
    pose proof (handler_submissions req h). pose proof (handler_ledger_events req h).
    destruct (handler W req h). cbn [snd] in *. auto.
Qed.

(** ** Identity verification *)

Lemma handler_auth_verify req h :
  client_built W = true ->
  request_action req = Some "auth_verify" ->
  serve W req h =
  (respond (fst (auth_verify W (request_field req "accessToken") h)),
   snd (auth_verify W (request_field req "accessToken") h)).
Proof.
  intros Hc Ha. destruct (request_action_inv _ _ Ha) as (Hm & Hj & Hn & Hf & He).
  unfold serve, handler. rewrite Hm. fold (client W). unfold client_built in Hc.
  destruct (client W) as [t|[]]; [discriminate|]. cbn [lift].
  rewrite bind_ret, Hj. cbn [lift]. rewrite bind_ret, Hn, bind_ret.
  unfold not_a_name. rewrite Hf. cbn [truthy typeof is_str negb orb].
  change ("auth_verify" =? "") with false. change ("string" =? "string") with true.
  rewrite String.eqb_refl. cbn [negb orb].
  fold (request_field req "accessToken").
  destruct (auth_verify W _ h); reflexivity.
Qed.

Lemma auth_verify_run token h :
  token <> "" ->
  auth_verify W (JStr token) h =
  match fetch W h (meRequest token) with
  | Rejected t => (Throw t, [EvFetch (meRequest token) (Rejected t)])
  | Responded st text =>
      (if ok st then
         match prop (parseJson W text) "uid" with
         | inl t => Throw t
         | inr uid =>
             if truthy (string_or_null uid)
             then Return (verified_response (string_or_null uid)
                            (string_or_null (field (parseJson W text) "username")))
             else Return (jsonResponse (JObj [("error", JStr "Pi auth response missing uid")]) 400)
         end
       else Return (jsonResponse (JObj [("error", JStr "Pi auth verification failed");
                                        ("status", JNum (num_of_Z st));
                                        ("data", parseJson W text)]) 400),
       [EvFetch (meRequest token) (Responded st text)])
  end.
Proof.
  intros Hne. apply String.eqb_neq in Hne.
  unfold auth_verify, not_a_name. cbn [truthy typeof str_of]. rewrite Hne.
  change ("string" =? "string") with true. cbn [negb orb].
  fold (meRequest token). rewrite do_fetch_run.
  destruct (fetch W h (meRequest token)) as [st text|t]; [|reflexivity].
  cbn iota zeta beta. destruct (ok st); cbn [negb fst snd]; [|reflexivity].
  unfold prop. destruct (nullish (parseJson W text)); cbn [lift].
  { rewrite bind_throw. reflexivity. }
  rewrite !bind_ret. cbn beta. unfold string_or_null, verified_response.
  destruct (truthy _); reflexivity.
Qed.

(** X6.  When the session client can be built, [auth_verify] needs
    neither a session nor the platform key: its only call is one GET of
    the platform's identity endpoint with the access token as bearer.  The
    answer is 200 exactly when the platform answered with a 2xx status and
    a body whose [uid] is a string that is not empty; it then carries that
    uid and the username (null when it is no string). *)
Theorem auth_verify_needs_no_session req h token :
  client_built W = true ->
  request_action req = Some "auth_verify" ->
  request_field req "accessToken" = JStr token -> token <> "" ->
  calls W req h = [EvFetch (meRequest token) (fetch W h (meRequest token))] /\
  (status (response W req h) = 200%Z <->
   exists st text uid,
     fetch W h (meRequest token) = Responded st text /\ ok st = true /\
     field (parseJson W text) "uid" = JStr uid /\ uid <> "") /\
  (forall st text uid,
     fetch W h (meRequest token) = Responded st text -> ok st = true ->
     field (parseJson W text) "uid" = JStr uid -> uid <> "" ->
     response W req h
     = verified_response (JStr uid) (string_or_null (field (parseJson W text) "username"))).
Proof.
  intros Hc Ha Ht Hne. unfold response, calls.
  rewrite (handler_auth_verify _ _ Hc Ha), Ht, (auth_verify_run _ _ Hne). cbn [fst snd].
  assert (forall text uid, field (parseJson W text) "uid" = JStr uid ->
            prop (parseJson W text) "uid" = inr (JStr uid)) as Hprop.
  { intros text uid Hu. unfold prop.
    destruct (parseJson W text); try discriminate; cbn in *; now rewrite Hu. }
  destruct (fetch W h (meRequest token)) as [st text|t]; cbn [fst snd].
  - split; [reflexivity|]. split; [split|].
    + intros Hst. destruct (ok st) eqn:Hok; [|discriminate].
      unfold prop in Hst. destruct (nullish (parseJson W text)) eqn:Hn.
      { cbn in Hst. discriminate. }
      unfold string_or_null in Hst.
      destruct (field (parseJson W text) "uid") as [| | | |uid| |] eqn:Hu; try discriminate.
      cbn [typeof truthy] in Hst. change ("string" =? "string") with true in Hst.
      cbn iota in Hst. cbn [truthy] in Hst.
      destruct (uid =? "") eqn:Heq; [cbn in Hst; discriminate|].
      exists st, text, uid. repeat split; auto. now apply String.eqb_neq.
    + intros (st' & text' & uid & [= <- <-] & Hok & Hu & Hnu).
      rewrite Hok, (Hprop _ _ Hu). unfold string_or_null. cbn [typeof].
      change ("string" =? "string") with true. cbn iota. cbn [truthy].
      apply String.eqb_neq in Hnu. now rewrite Hnu.
    + intros st' text' uid [= <- <-] Hok Hu Hnu.
      rewrite Hok, (Hprop _ _ Hu). unfold string_or_null at 1 2. cbn [typeof].
      change ("string" =? "string") with true. cbn iota. cbn [truthy].
      apply String.eqb_neq in Hnu. now rewrite Hnu.
  - split; [reflexivity|]. split; [split|].
    + cbn [respond]. rewrite caught_status. discriminate.
    + intros (st' & text' & uid & Hf & _). discriminate.
    + intros st' text' uid Hf. discriminate.
Qed.

(** ** The actions one by one *)

Lemma actions_with_key json h k a :
  api_key W = Some k -> field json "action" = JStr a ->
  actions W json h =
  (if a =? "ad_verify" then ad_verify W k (field json "adId")
   else if a =? "a2u_config_status" then a2u_config_status W k
   else if a =? "a2u_create" then a2u_create W k (field json "payment")
   else if a =? "a2u_incomplete" then a2u_incomplete W k
   else payment_action W a k (field json "paymentId") (field json "txid")) h.
Proof.
  intros Hk Ha. apply api_key_inv in Hk as [Hk Hne]. unfold actions. rewrite Hk, Hne, Ha.
  reflexivity.
Qed.

(** A request that passed the session check and found the key, by action. *)
Lemma serve_action req h a k :
  request_action req = Some a -> a <> "auth_verify" ->
  session_valid W req h = true -> api_key W = Some k ->
  serve W req h =
  let run :=
    (if a =? "ad_verify" then ad_verify W k (request_field req "adId")
     else if a =? "a2u_config_status" then a2u_config_status W k
     else if a =? "a2u_create" then a2u_create W k (request_field req "payment")
     else if a =? "a2u_incomplete" then a2u_incomplete W k
     else payment_action W a k (request_field req "paymentId") (request_field req "txid"))
      (session_event W req h :: h) in
  (respond (fst run), session_event W req h :: snd run).
Proof.
  intros Ha Hne Hs Hk. destruct (request_action_inv _ _ Ha) as (_ & _ & _ & Hf & _).
  rewrite (serve_session W _ _ _ Ha Hne), Hs, (actions_with_key _ _ _ _ Hk Hf). reflexivity.
Qed.

Lemma platform_call_exact k endpoint method b h :
  platform_call W k endpoint method b h =
  (match fetch W h (paymentRequest k endpoint method b) with
   | Rejected t => Throw t
   | Responded st text =>
       if ok st
       then Return (created_response (parseJson W text))
       else match getPiErrorMessage (parseJson W text) (payment_failure_label W st) with
            | inl t => Throw t
            | inr message => Return (upstream_failure message st (parseJson W text))
            end
   end,
   [EvFetch (paymentRequest k endpoint method b) (fetch W h (paymentRequest k endpoint method b))]).
Proof.
  unfold platform_call. rewrite do_fetch_run.
  destruct (fetch W h _) as [st text|t]; [|reflexivity].
  cbn iota zeta beta. destruct (ok st); cbn [negb fst snd]; [reflexivity|].
  unfold upstreamError, payment_failure_label.
  destruct (getPiErrorMessage _ _); cbn [lift]; [rewrite bind_throw|rewrite bind_ret]; reflexivity.
Qed.


Lemma not_named a :
  one_of a named_actions = false ->
  a <> "auth_verify" /\ (a =? "ad_verify") = false /\ (a =? "a2u_config_status") = false /\
  (a =? "a2u_create") = false /\ (a =? "a2u_incomplete") = false.
Proof.
  unfold one_of, named_actions. cbn [existsb]. intros H.
  repeat (apply orb_false_elim in H; destruct H as [? H]).
  repeat split; auto. now apply String.eqb_neq.
Qed.



(** X8.  An action whose argument is missing (no string, or the empty
    one) is refused with status 400 and the message naming the argument,
    before anything is asked of the platform or the ledger:
    [accessToken] for [auth_verify], once the session client is built;
    and, for an accepted session with the platform key configured, [adId]
    for [ad_verify] and [paymentId] for every action without a branch of
    its own, whether its name is known or not. *)
Theorem missing_argument_is_refused req h a k argument :
  request_action req = Some a ->
  required_argument a = Some argument ->
  not_a_name (request_field req argument) = true ->
  (a = "auth_verify" /\ client_built W = true) \/
  (session_valid W req h = true /\ api_key W = Some k) ->
  response W req h = error_response ("Missing " ++ argument) 400 /\
  Forall (fun ev => is_upstream ev = false) (calls W req h).
Proof.
  intros Ha Hr Hm Hgate. unfold required_argument in Hr.
  destruct (a =? "auth_verify") eqn:E0.
  { apply String.eqb_eq in E0. subst a. injection Hr as <-.
    assert (client_built W = true) as Hc.
    { destruct Hgate as [[_ Hc]|[Hs _]]; [exact Hc|].
      unfold session_valid in Hs. now apply andb_prop in Hs. }
    unfold response, calls. rewrite (handler_auth_verify _ _ Hc Ha).
    unfold auth_verify. rewrite Hm. split; [reflexivity|constructor]. }
  apply String.eqb_neq in E0. destruct Hgate as [[? _]|[Hs Hk]]; [contradiction|].
  unfold response, calls. rewrite (serve_action _ _ _ _ Ha E0 Hs Hk).
  destruct (a =? "ad_verify") eqn:E1.
  { injection Hr as <-. cbn zeta. unfold ad_verify. rewrite Hm.
    split; [reflexivity|]. repeat constructor. }
  destruct (one_of a named_actions) eqn:Hn; [discriminate|]. injection Hr as <-.
  destruct (not_named _ Hn) as (_ & _ & E2 & E3 & E4). rewrite E2, E3, E4.
  cbn zeta. unfold payment_action. rewrite Hm. split; [reflexivity|]. repeat constructor.
Qed.

(** X9.  An action that is none of the handler's names is refused with
    status 400 and [Invalid action]; with a session, a key and a payment
    id in place the session check is all that was called. *)
Theorem unknown_action_is_refused req h a k :
  request_action req = Some a ->
  one_of a named_actions = false -> one_of a payment_actions = false ->
  session_valid W req h = true -> api_key W = Some k ->
  not_a_name (request_field req "paymentId") = false ->
  response W req h = error_response "Invalid action" 400 /\
  calls W req h = [session_event W req h].
Proof.
  intros Ha Hn Hp Hs Hk Hid.
  destruct (not_named _ Hn) as (Hav & E1 & E2 & E3 & E4).
  unfold response, calls. rewrite (serve_action _ _ _ _ Ha Hav Hs Hk), E1, E2, E3, E4.
  cbn zeta. unfold payment_action. rewrite Hid.
  unfold one_of, payment_actions in *. cbn [existsb] in *.
  repeat (apply orb_false_elim in Hp; destruct Hp as [? Hp]).
  repeat match goal with E : (a =? _) = false |- _ => rewrite E; clear E end.
  cbn [orb]. rewrite bind_return. split; reflexivity.
Qed.

(** X10.  Without the platform key nothing but [auth_verify] works: every
    other action of an accepted session is answered 500 with
    [PI_API_KEY is not configured], whatever its arguments, and only the
    session check was called. *)
Theorem missing_key_stops_every_action req h a :
  request_action req = Some a -> a <> "auth_verify" ->
  session_valid W req h = true -> api_key W = None ->
  response W req h = error_response "PI_API_KEY is not configured" 500 /\
  calls W req h = [session_event W req h].
Proof.
  intros Ha Hne Hs Hk. unfold response, calls.
  rewrite (serve_session W _ _ _ Ha Hne), Hs, (actions_no_key W _ _ Hk). split; reflexivity.
Qed.

(** X11.  [a2u_config_status] asks nothing of the platform or the ledger.
    For an accepted session it answers 200 exactly when the platform key
    is configured, and then reports [hasApiKey] as true and, for the
    validation key, the wallet seed and the wallet address, whether the
    variable is set to something not empty; so [hasApiKey] is never
    reported false, and no value of a variable is given away. *)
Theorem config_status_reports_flags_only req h :
  request_action req = Some "a2u_config_status" ->
  session_valid W req h = true ->
  calls W req h = [session_event W req h] /\
  (status (response W req h) = 200%Z <-> api_key W <> None) /\
  (api_key W <> None -> response W req h = created_response (config_flags W)).
Proof.
  intros Ha Hs.
  assert ("a2u_config_status" <> "auth_verify") as Hne by discriminate.
  destruct (api_key W) as [k|] eqn:Hk.
  - unfold response, calls. rewrite (serve_action _ _ _ _ Ha Hne Hs Hk).
    change ("a2u_config_status" =? "ad_verify") with false. rewrite String.eqb_refl.
    cbn zeta. unfold a2u_config_status. apply api_key_inv in Hk as [_ ->].
    split; [reflexivity|]. split; [split; [discriminate|reflexivity]|reflexivity].
  - destruct (missing_key_stops_every_action _ _ _ Ha Hne Hs Hk) as [-> ->].
    split; [reflexivity|]. split; [split; [discriminate|congruence]|congruence].
Qed.

Lemma ad_verify_run k ad h :
  ad <> "" ->
  ad_verify W k (JStr ad) h =
  (match fetch W h (adRequest k ad) with
   | Rejected t => Throw t
   | Responded st text =>
       if ok st then
         match prop (parseJson W text) "mediator_ack_status" with
         | inl t => Throw t
         | inr ack => Return (ad_response (is_str ack "granted") (parseJson W text))
         end
       else Return (upstream_failure "Pi ad verification failed" st (parseJson W text))
   end, [EvFetch (adRequest k ad) (fetch W h (adRequest k ad))]).
Proof.
  intros Hne. apply String.eqb_neq in Hne.
  unfold ad_verify, not_a_name. cbn [truthy typeof str_of]. rewrite Hne.
  change ("string" =? "string") with true. cbn [negb orb].
  fold (adRequest k ad). rewrite do_fetch_run.
  destruct (fetch W h (adRequest k ad)) as [st text|t]; [|reflexivity].
  cbn iota zeta beta. destruct (ok st); cbn [negb fst snd]; [|reflexivity].
  destruct (prop (parseJson W text) "mediator_ack_status") as [t|ack]; cbn [lift].
  { rewrite bind_throw. reflexivity. }
  rewrite bind_ret. cbn beta. unfold ad_response.
  destruct ack; reflexivity.
Qed.

(** X12.  [ad_verify] makes one call, a GET of the ad's status with the
    platform key.  When the platform answers ok with a body that is not
    null, the answer is 200 with that body, and [rewarded] is true exactly
    when the body's [mediator_ack_status] is the string [granted]; a
    status that is not ok gives 400 with the fixed message
    [Pi ad verification failed], the platform's status and its body. *)
Theorem ad_reward_follows_the_mediator req h k ad :
  request_action req = Some "ad_verify" ->
  session_valid W req h = true -> api_key W = Some k ->
  request_field req "adId" = JStr ad -> ad <> "" ->
  let out := fetch W (session_event W req h :: h) (adRequest k ad) in
  calls W req h = [session_event W req h; EvFetch (adRequest k ad) out] /\
  (forall st text, out = Responded st text -> ok st = true ->
     nullish (parseJson W text) = false ->
     response W req h
     = ad_response (is_str (field (parseJson W text) "mediator_ack_status") "granted")
         (parseJson W text) /\
     (response_field (response W req h) "rewarded" = JBool true <->
      field (parseJson W text) "mediator_ack_status" = JStr "granted")) /\
  (forall st text, out = Responded st text -> ok st = false ->
     response W req h = upstream_failure "Pi ad verification failed" st (parseJson W text)).
Proof.
  intros Ha Hs Hk Hf Hne.
  assert ("ad_verify" <> "auth_verify") as Hav by discriminate.
  unfold response, calls. rewrite (serve_action _ _ _ _ Ha Hav Hs Hk), String.eqb_refl.
  cbn zeta. rewrite Hf, (ad_verify_run _ _ _ Hne). cbn [fst snd].
  split; [reflexivity|]. split.
  - intros st text -> Hok Hn. rewrite Hok. unfold prop. rewrite Hn. cbn [respond].
    split; [reflexivity|]. unfold response_field, ad_response. cbn.
    destruct (field (parseJson W text) "mediator_ack_status") as [| | | |s| |];
      cbn [is_str]; try (split; discriminate).
    split.
    + intros [= E]. apply String.eqb_eq in E. now subst.
    + intros [= ->]. reflexivity.
  - intros st text -> ->. reflexivity.
Qed.

(** X13.  [a2u_incomplete] makes one call, the GET of the platform's list
    of incomplete server payments, and hands its parsed body on: 200 with
    the body as [data] when the platform said ok, else 400 with the fixed
    message [Pi incomplete payments fetch failed]. *)
Theorem incomplete_listing_is_handed_on req h k :
  request_action req = Some "a2u_incomplete" ->
  session_valid W req h = true -> api_key W = Some k ->
  let out := fetch W (session_event W req h :: h) (incompleteRequest k) in
  calls W req h = [session_event W req h; EvFetch (incompleteRequest k) out] /\
  (forall st text, out = Responded st text ->
     response W req h
     = if ok st then created_response (parseJson W text)
       else upstream_failure "Pi incomplete payments fetch failed" st (parseJson W text)) /\
  (forall t, out = Rejected t -> response W req h = caught t).
Proof.
  intros Ha Hs Hk.
  assert ("a2u_incomplete" <> "auth_verify") as Hav by discriminate.
  unfold response, calls. rewrite (serve_action _ _ _ _ Ha Hav Hs Hk).
  change ("a2u_incomplete" =? "ad_verify") with false.
  change ("a2u_incomplete" =? "a2u_config_status") with false.
  change ("a2u_incomplete" =? "a2u_create") with false.
  rewrite String.eqb_refl. cbn zeta. unfold a2u_incomplete. rewrite do_fetch_run.
  destruct (fetch W _ (incompleteRequest k)) as [st text|t]; cbn [fst snd].
  - cbn iota zeta beta. split; [now destruct (ok st)|]. split; [|discriminate].
    intros st' text' [= <- <-]. destruct (ok st); reflexivity.
  - split; [reflexivity|]. split; [discriminate|]. now intros t' [= <-].
Qed.

(** ** Completion, case by case *)

Lemma serve_complete req h a k pid :
  request_action req = Some a -> one_of a complete_family = true ->
  session_valid W req h = true -> api_key W = Some k ->
  request_field req "paymentId" = JStr pid -> pid <> "" ->
  serve W req h =
  let run := bind (complete_body W a k pid (request_field req "txid"))
                  (fun b => platform_call W k (endpointBase pid ++ "/complete") "POST" b)
                  (session_event W req h :: h) in
  (respond (fst run), session_event W req h :: snd run).
Proof.
  intros Ha Hone Hs Hk Hp Hne.
  assert (one_of a named_actions = false) as Hn.
  { unfold one_of, complete_family in *. cbn [existsb] in *.
    repeat (apply orb_prop in Hone; destruct Hone as [Hone|Hone];
            [apply String.eqb_eq in Hone; subst a; reflexivity|]).
    discriminate. }
  destruct (not_named _ Hn) as (Hav & E1 & E2 & E3 & E4).
  rewrite (serve_action _ _ _ _ Ha Hav Hs Hk), E1, E2, E3, E4. cbn zeta.
  rewrite (payment_action_complete W _ _ _ _ _ Hone), Hp.
  apply String.eqb_neq in Hne. unfold not_a_name. cbn [truthy typeof str_of]. rewrite Hne.
  reflexivity.
Qed.

(** X14.  Only [a2u_complete] looks the payment up.  A [complete] or
    [payment_complete] request without a txid (none, no string, or only
    white space) makes the one call to the platform's complete endpoint,
    without a body; the record is not fetched and the ledger not
    touched. *)
Theorem plain_complete_sends_no_body req h a k pid :
  request_action req = Some a -> a = "complete" \/ a = "payment_complete" ->
  session_valid W req h = true -> api_key W = Some k ->
  request_field req "paymentId" = JStr pid -> pid <> "" ->
  explicitTxid (request_field req "txid") = "" ->
  calls W req h
  = [session_event W req h;
     EvFetch (completeRequest k pid None)
       (fetch W (session_event W req h :: h) (completeRequest k pid None))].
Proof.
  intros Ha Hor Hs Hk Hp Hne He.
  assert (one_of a complete_family = true) as Hone by (destruct Hor; subst a; reflexivity).
  assert ((a =? "a2u_complete") = false) as Hna by (destruct Hor; subst a; reflexivity).
  unfold calls. rewrite (serve_complete _ _ _ _ _ Ha Hone Hs Hk Hp Hne). cbn zeta.
  unfold complete_body. rewrite He, Hna. change ("" =? "") with true. cbn [negb].
  rewrite bind_ret, platform_call_exact. reflexivity.
Qed.

Lemma a2u_complete_run req h k pid :
  request_action req = Some "a2u_complete" ->
  session_valid W req h = true -> api_key W = Some k ->
  request_field req "paymentId" = JStr pid -> pid <> "" ->
  explicitTxid (request_field req "txid") = "" ->
  serve W req h =
  let looked := complete_body W "a2u_complete" k pid (request_field req "txid")
                  (session_event W req h :: h) in
  match fst looked with
  | Val b =>
      let done := platform_call W k (endpointBase pid ++ "/complete") "POST" b
                    (rev (snd looked) ++ session_event W req h :: h)%list in
      (respond (fst done), session_event W req h :: (snd looked ++ snd done)%list)
  | Return r => (r, session_event W req h :: snd looked)
  | Throw t => (caught t, session_event W req h :: snd looked)
  end.
Proof.
  intros Ha Hs Hk Hp Hne He.
  rewrite (serve_complete _ _ _ _ _ Ha eq_refl Hs Hk Hp Hne). cbn zeta. unfold bind.
  destruct (complete_body W _ _ _ _ _) as [[b|r|t] tr]; cbn [fst snd]; try reflexivity.
  destruct (platform_call W _ _ _ _ _); reflexivity.
Qed.

(** X15.  [a2u_complete] settles app-to-user payments only.  When the
    record the platform returns carries no transaction id and its
    direction is not [app_to_user], the complete call is made without a
    body, right after the record fetch, and the ledger is not touched. *)
Theorem other_directions_complete_without_settlement req h k pid st text dir :
  request_action req = Some "a2u_complete" ->
  session_valid W req h = true -> api_key W = Some k ->
  request_field req "paymentId" = JStr pid -> pid <> "" ->
  explicitTxid (request_field req "txid") = "" ->
  fetch W (session_event W req h :: h) (recordRequest k pid) = Responded st text ->
  ok st = true ->
  existingTxid W (parseJson W text) = inr "" ->
  direction W (parseJson W text) = inr dir -> dir <> "app_to_user" ->
  let fetched := EvFetch (recordRequest k pid) (Responded st text) in
  calls W req h
  = [session_event W req h; fetched;
     EvFetch (completeRequest k pid None)
       (fetch W (fetched :: session_event W req h :: h) (completeRequest k pid None))].
Proof.
  intros Ha Hs Hk Hp Hne He Hf Hok Hex Hd Hdir. apply String.eqb_neq in Hdir.
  unfold calls. rewrite (a2u_complete_run _ _ _ _ Ha Hs Hk Hp Hne He). cbn zeta.
  rewrite (complete_body_a2u W _ _ _ _ He), Hf. cbn zeta. rewrite Hok, Hex, Hd, Hdir.
  change ("" =? "") with true. cbn [negb fst snd rev app].
  rewrite platform_call_exact. reflexivity.
Qed.

(** X16.  Without the wallet seed nothing is settled and nothing
    completed.  When the record is an app-to-user payment without a
    transaction id and [PI_WALLET_PRIVATE_SEED] is unset or blank, the
    answer is 500 with [PI_WALLET_PRIVATE_SEED is not configured], and the
    record fetch was the last call. *)
Theorem settlement_needs_the_seed req h k pid st text :
  request_action req = Some "a2u_complete" ->
  session_valid W req h = true -> api_key W = Some k ->
  request_field req "paymentId" = JStr pid -> pid <> "" ->
  explicitTxid (request_field req "txid") = "" ->
  fetch W (session_event W req h :: h) (recordRequest k pid) = Responded st text ->
  ok st = true ->
  existingTxid W (parseJson W text) = inr "" ->
  direction W (parseJson W text) = inr "app_to_user" ->
  wallet_seed W = "" ->
  response W req h = seed_missing_response /\
  calls W req h = [session_event W req h; EvFetch (recordRequest k pid) (Responded st text)].
Proof.
  intros Ha Hs Hk Hp Hne He Hf Hok Hex Hd Hseed.
  unfold response, calls. rewrite (a2u_complete_run _ _ _ _ Ha Hs Hk Hp Hne He). cbn zeta.
  rewrite (complete_body_a2u W _ _ _ _ He), Hf. cbn zeta. rewrite Hok, Hex, Hd, Hseed.
  split; reflexivity.
Qed.

(** X17.  A payment the platform does not return is not completed.  When
    the record fetch of [a2u_complete] is answered with a status that is
    not ok, the handler stops there: no complete call, no ledger step, and
    the answer is 400 with the extracted message, the platform's status
    and its body (500 when the body is the JSON [null]). *)
Theorem unreadable_record_is_not_completed req h k pid st text :
  request_action req = Some "a2u_complete" ->
  session_valid W req h = true -> api_key W = Some k ->
  request_field req "paymentId" = JStr pid -> pid <> "" ->
  explicitTxid (request_field req "txid") = "" ->
  fetch W (session_event W req h :: h) (recordRequest k pid) = Responded st text ->
  ok st = false ->
  calls W req h = [session_event W req h; EvFetch (recordRequest k pid) (Responded st text)] /\
  (nullish (parseJson W text) = false ->
   response W req h
   = upstream_failure (spec_errorMessage (parseJson W text) (payment_failure_label W st)) st
       (parseJson W text)) /\
  (nullish (parseJson W text) = true -> status (response W req h) = 500%Z).
Proof.
  intros Ha Hs Hk Hp Hne He Hf Hok.
  unfold response, calls. rewrite (a2u_complete_run _ _ _ _ Ha Hs Hk Hp Hne He). cbn zeta.
  rewrite (complete_body_a2u W _ _ _ _ He), Hf. cbn zeta. rewrite Hok. cbn [fst snd].
  unfold upstreamError. fold (payment_failure_label W st). unfold bind at 1 2 3.
  destruct (nullish (parseJson W text)) eqn:Hn.
  - unfold getPiErrorMessage, prop. rewrite Hn. cbn [lift throw fst snd].
    split; [reflexivity|]. split; [discriminate|]. intros _. apply caught_status.
  - rewrite (getPiErrorMessage_spec _ _ Hn). cbn [lift ret return_ fst snd rev app].
    split; [reflexivity|]. split; [reflexivity|discriminate].
Qed.

(** X18.  A settlement that succeeded is reported.  When the ledger
    submission of an [a2u_complete] request returns a transaction id, the
    complete call is made, as the last call and right after the ledger
    steps, with exactly that id as its [txid]. *)
Theorem settlement_is_followed_by_completion req h k pid st text hash steps :
  request_action req = Some "a2u_complete" ->
  session_valid W req h = true -> api_key W = Some k ->
  request_field req "paymentId" = JStr pid -> pid <> "" ->
  explicitTxid (request_field req "txid") = "" ->
  fetch W (session_event W req h :: h) (recordRequest k pid) = Responded st text ->
  ok st = true ->
  existingTxid W (parseJson W text) = inr "" ->
  direction W (parseJson W text) = inr "app_to_user" ->
  wallet_seed W <> "" ->
  let fetched := EvFetch (recordRequest k pid) (Responded st text) in
  submitA2UTx W (parseJson W text) (wallet_seed W) (Some (wallet_address W))
    (fetched :: session_event W req h :: h) = (Val hash, steps) ->
  let completion :=
    {| fr_url := "https://api.minepi.com/v2/payments/" ++ pid ++ "/complete";
       fr_method := "POST";
       fr_headers := [("Content-Type", "application/json"); ("Authorization", "Key " ++ k)];
       fr_body := Some (JObj [("txid", JStr hash)]) |} in
  exists out,
    calls W req h
    = (session_event W req h :: fetched :: steps ++ [EvFetch completion out])%list.
Proof.
  intros Ha Hs Hk Hp Hne He Hf Hok Hex Hd Hseed fetched Hrun completion.
  apply String.eqb_neq in Hseed. unfold calls. rewrite (a2u_complete_run _ _ _ _ Ha Hs Hk Hp Hne He). cbn zeta.
  rewrite (complete_body_a2u W _ _ _ _ He), Hf. cbn zeta. rewrite Hok, Hex, Hd, Hseed.
  change ("" =? "") with true. rewrite String.eqb_refl. cbn [negb].
  fold fetched. rewrite Hrun. cbn [fst snd]. rewrite platform_call_exact. cbn [snd].
  eexists. reflexivity.
Qed.

(** ** The settlement, step by step *)

(** X19.  A settlement is all or nothing in its order: whatever the
    record and the wallet, the ledger steps of one run are none, or the
    account load that failed, or the load and the fee query that failed,
    or these two and a transaction that could not be built, or all five
    steps (load, fee, build, sign, submit) on the one transaction of the
    record.  They all address one server, the main network's exactly when
    the record's network is [Pi Network]; so a signed transaction is
    always submitted, and submitted once. *)
Theorem settlement_runs_in_order payment seed expected h :
  let steps := snd (submitA2UTx W payment seed expected h) in
  let server := horizonUrl (record_network W payment) in
  (server = "https://api.mainnet.minepi.com" <->
   string_or_empty W (field payment "network") = inr "Pi Network") /\
  (steps = [] \/
   (exists signer t, steps = [EvLoadAccount server signer (inl t)]) \/
   (exists signer account t,
      steps = [EvLoadAccount server signer (inr account); EvFetchBaseFee server (inl t)]) \/
   (exists signer account baseFee,
      TransactionBuilder_build W (settlement W payment account baseFee) <> None /\
      steps = [EvLoadAccount server signer (inr account); EvFetchBaseFee server (inr baseFee)]) \/
   (exists signer account baseFee out,
      steps = settlement_steps W payment signer account baseFee out)).
Proof.
  cbn zeta. split.
  { unfold horizonUrl, record_network, record_text.
    destruct (string_or_empty W (field payment "network")) as [t|s]; cbn [text_of].
    - cbn. split; discriminate.
    - destruct (s =? "") eqn:E.
      + apply String.eqb_eq in E. subst s. cbn. split; discriminate.
      + destruct (s =? "Pi Network") eqn:E'.
        * apply String.eqb_eq in E'. subst s. split; reflexivity.
        * apply String.eqb_neq in E'. split; [discriminate|intros [= ?]; contradiction]. }
  destruct (submitA2UTx_cases W payment seed expected h)
    as [(t & ->)|(signer & _ & _ & _ & _ & [(t & ->)|[(account & t & ->)|
        [(account & baseFee & t & Hb & ->)|(account & baseFee & out & _ & -> & _)]]])];
    cbn [snd]; eauto 10.
  do 3 right. left. exists signer, account, baseFee. split; [congruence|reflexivity].
Qed.

Lemma unsettleable_run payment seed expected h :
  settleable W payment = false ->
  (exists t, submitA2UTx W payment seed expected h = (Throw t, [])) /\
  submitA2UTx W payment seed expected h = submitA2UTx W payment "" None [].
Proof.
  unfold settleable, record_text, record_amount. intros Hs. unfold submitA2UTx, prop.
  destruct (nullish payment); cbn [lift].
  { rewrite !bind_throw. split; [eexists|]; reflexivity. }
  rewrite !bind_ret. cbn beta. cbn [negb andb] in Hs.
  destruct (string_or_empty W (field payment "identifier")) as [t|paymentId]; cbn [lift].
  { rewrite !bind_throw. split; [eexists|]; reflexivity. }
  rewrite !bind_ret. cbn beta.
  destruct (string_or_empty W (field payment "to_address")) as [t|toAddress]; cbn [lift].
  { rewrite !bind_throw. split; [eexists|]; reflexivity. }
  rewrite !bind_ret. cbn beta.
  destruct (string_or_empty W (field payment "from_address")) as [t|fromAddress]; cbn [lift].
  { rewrite !bind_throw. split; [eexists|]; reflexivity. }
  rewrite !bind_ret. cbn beta.
  destruct (string_or_empty W (field payment "network")) as [t|network]; cbn [lift].
  { rewrite !bind_throw. split; [eexists|]; reflexivity. }
  rewrite !bind_ret. cbn beta.
  destruct (Number_ W (field payment "amount")) as [t|amount]; cbn [lift].
  { rewrite !bind_throw. split; [eexists|]; reflexivity. }
  rewrite !bind_ret. cbn beta. cbn [converts text_of number_of andb] in Hs.
  destruct (paymentId =? "").
  { split; [eexists|]; reflexivity. }
  destruct (toAddress =? "").
  { split; [eexists|]; reflexivity. }
  destruct (fromAddress =? "").
  { split; [eexists|]; reflexivity. }
  cbn [negb andb] in Hs.
  destruct (Number_isFinite amount).
  2:{ split; [eexists|]; reflexivity. }
  cbn [negb andb] in Hs. apply negb_false_iff in Hs. rewrite Hs.
  split; [eexists|]; reflexivity.
Qed.

(** X20.  The field checks come before the wallet.  A record that cannot
    be read or fails one of the checks (no identifier, no destination, no
    source, or an amount that is not a positive finite number) is refused
    with the same error whatever the wallet secret and the expected
    address are, before the secret is decoded and with nothing asked of
    the ledger; and, on a record that can be read, a missing identifier is
    what is reported when more than one check fails. *)
Theorem field_checks_precede_the_wallet payment :
  settleable W payment = false ->
  (exists t, forall seed expected h, submitA2UTx W payment seed expected h = (Throw t, [])) /\
  (readable W payment = true -> string_or_empty W (field payment "identifier") = inr "" ->
   forall seed expected h,
     submitA2UTx W payment seed expected h
     = (Throw (JsError "Missing payment identifier for blockchain submission"), [])).
Proof.
  intros Hs. split.
  - destruct (unsettleable_run payment "" None [] Hs) as [(t & Ht) _].
    exists t. intros seed expected h.
    destruct (unsettleable_run payment seed expected h Hs) as [_ ->]. exact Ht.
  - unfold readable, record_text, record_amount. intros Hr He seed expected h.
    unfold submitA2UTx, prop.
    destruct (nullish payment); [discriminate|]. cbn [lift negb andb] in Hr |- *.
    rewrite !bind_ret. cbn beta. rewrite He in Hr |- *. cbn [lift converts andb] in Hr |- *.
    rewrite !bind_ret. cbn beta.
    destruct (string_or_empty W (field payment "to_address")); [discriminate|].
    cbn [lift converts andb] in Hr |- *. rewrite !bind_ret. cbn beta.
    destruct (string_or_empty W (field payment "from_address")); [discriminate|].
    cbn [lift converts andb] in Hr |- *. rewrite !bind_ret. cbn beta.
    destruct (string_or_empty W (field payment "network")); [discriminate|].
    cbn [lift converts andb] in Hr |- *. rewrite !bind_ret. cbn beta.
    destruct (Number_ W (field payment "amount")); [discriminate|].
    cbn [lift]. rewrite !bind_ret. cbn beta. reflexivity.
Qed.

(** X21.  What a settlement that returns has done: the record passed the
    field checks, the wallet secret decodes to the record's source
    address (and to the expected address when one is configured), and the
    ledger steps were exactly the five of one transaction, whose memo is
    the payment's identifier, whose destination is its recipient, whose
    amount is the record's amount with seven decimals, whose fee is the
    base fee just fetched, and whose timeout is 180.  The id returned is
    the [hash] (or else the [id]) of the ledger's answer, and not empty. *)
Theorem settlement_returns_the_ledger_txid payment seed expected h hash steps :
  submitA2UTx W payment seed expected h = (Val hash, steps) ->
  exists signer account baseFee submitted,
    Keypair_fromSecret W seed = inr signer /\ settleable W payment = true /\
    source_address W payment = inr signer /\
    (expected_address expected = "" \/ signer = expected_address expected) /\
    steps = settlement_steps W payment signer account baseFee (inr submitted) /\
    ledger_txid W submitted = inr hash /\ hash <> "".
Proof.
  intros Hrun.
  destruct (submitA2UTx_cases W payment seed expected h)
    as [(t & E)|(signer & Hk & Hs & Hsrc & Hex & [(t & E)|[(account & t & E)|
        [(account & baseFee & t & Hb & E)|(account & baseFee & out & _ & Est & Eo)]]])];
    try (rewrite Hrun in E; discriminate).
  rewrite Hrun in Est, Eo. cbn [fst snd] in Est, Eo.
  destruct out as [t|submitted]; [discriminate|].
  destruct (prop submitted "hash"); [discriminate|].
  destruct (ledger_txid W submitted) as [t|id] eqn:Hid; [discriminate|].
  destruct (id =? "") eqn:E; [discriminate|].
  injection Eo as ->. exists signer, account, baseFee, submitted.
  repeat split; auto. now apply String.eqb_neq.
Qed.

(** X22.  A submission the ledger accepted without naming it fails late.
    When the ledger's answer carries neither a [hash] nor an [id] (none
    that is not empty after trimming), the submitter throws
    [Pi blockchain submission did not return txid]; the transaction has
    been signed and submitted by then. *)
Theorem unnamed_submission_fails_after_the_fact payment seed expected h server tx submitted :
  In (EvSubmit server tx (inr submitted)) (snd (submitA2UTx W payment seed expected h)) ->
  nullish submitted = false -> ledger_txid W submitted = inr "" ->
  fst (submitA2UTx W payment seed expected h)
  = Throw (JsError "Pi blockchain submission did not return txid") /\
  exists signer before,
    snd (submitA2UTx W payment seed expected h)
    = (before ++ [EvSign tx signer; EvSubmit server tx (inr submitted)])%list.
Proof.
  intros Hin Hn Hid.
  destruct (submitA2UTx_cases W payment seed expected h)
    as [(t & E)|(signer & Hk & Hs & Hsrc & Hex & [(t & E)|[(account & t & E)|
        [(account & baseFee & t & Hb & E)|(account & baseFee & out & _ & Est & Eo)]]])];
    try (rewrite E in Hin; cbn in Hin; intuition discriminate).
  rewrite Est in Hin. rewrite Est, Eo. unfold settlement_steps in *. cbn zeta in *.
  destruct Hin as [Hin|[Hin|[Hin|[Hin|[Hin|[]]]]]]; try discriminate.
  injection Hin as <- <- ->. unfold prop. rewrite Hn, Hid. split; [reflexivity|].
  exists signer. eexists [_; _; _]. reflexivity.
Qed.

(** ** Failing collaborators *)

Lemma halts_quiet {A} (m : M A) :
  (forall h, Forall (fun ev => failed ev = None) (snd (m h))) -> halts m.
Proof.
  intros Hq h ev t Hin Hf. specialize (Hq h). rewrite Forall_forall in Hq.
  apply Hq in Hin. congruence.
Qed.

Lemma halts_bind {A B} (m : M A) (k : A -> M B) :
  halts m -> (forall a, halts (k a)) -> halts (bind m k).
Proof.
  intros Hm Hk h ev t. unfold bind. specialize (Hm h ev t).
  destruct (m h) as [[a|r|t'] t1]; cbn [fst snd] in *.
  2,3: intros Hin Hf; destruct (Hm Hin Hf) as [[=] Hlast]; subst; auto.
  specialize (Hk a (rev t1 ++ h)%list ev t).
  destruct (k a _) as [o t2]. cbn [fst snd] in *.
  intros Hin Hf. apply in_app_or in Hin as [Hin|Hin].
  - destruct (Hm Hin Hf) as [? _]. discriminate.
  - destruct (Hk Hin Hf) as [-> (before & ->)]. split; [reflexivity|].
    exists (t1 ++ before)%list. now rewrite app_assoc.
Qed.

Lemma halts_bind_ret {A B} (a : A) (k : A -> M B) : halts (k a) -> halts (bind (ret a) k).
Proof. intros Hk h. rewrite bind_ret. apply Hk. Qed.

Lemma halts_do_fetch rq : halts (do_fetch W rq).
Proof.
  intros h ev t. unfold do_fetch, bind, call.
  destruct (fetch W h rq) as [st text|t']; cbn.
  - intros [<-|[]]. discriminate.
  - intros [<-|[]] [= <-]. split; [reflexivity|]. now exists [].
Qed.

(** A ledger call followed by the [await] that throws its failure. *)
Lemma halts_call_lift {X B} (ask : Trace -> exc X) (ev : exc X -> Event) (k : X -> M B) :
  (forall t, failed (ev (inl t)) = Some t) -> (forall x, failed (ev (inr x)) = None) ->
  (forall x, halts (k x)) ->
  halts (bind (call ask ev) (fun answer => bind (lift answer) k)).
Proof.
  intros Hl Hr Hk h e t. rewrite bind_call. cbn beta.
  destruct (ask h) as [t'|x]; cbn [lift].
  - rewrite bind_throw. cbn. intros [<-|[]]. rewrite Hl. intros [= <-].
    split; [reflexivity|]. now exists [].
  - specialize (Hk x (ev (inr x) :: h) e t). rewrite bind_ret.
    destruct (k x _) as [o t2]. cbn [fst snd] in *.
    intros [<-|Hin] Hf; [rewrite Hr in Hf; discriminate|].
    destruct (Hk Hin Hf) as [-> (before & ->)]. split; [reflexivity|].
    now exists (ev (inr x) :: before).
Qed.

Ltac quiet :=
  apply halts_quiet; intros ?; cbn;
  repeat first [ apply Forall_nil | apply Forall_cons; [reflexivity|] ].

Ltac halt_step :=
  lazymatch goal with
  | |- halts (bind (ret _) _) => apply halts_bind_ret; cbn beta
  | |- halts (bind (do_fetch _ _) _) => apply halts_bind; [apply halts_do_fetch|intros ?]
  | |- halts (bind (call _ _) _) =>
      first [ apply halts_call_lift; [reflexivity|reflexivity|intros ?]
            | apply halts_bind; [quiet|intros ?] ]
  | |- halts (bind _ _) => apply halts_bind; [|intros ?]
  | |- halts (ret _) => quiet
  | |- halts (return_ _) => quiet
  | |- halts (throw _) => quiet
  | |- halts (lift ?e) => destruct e; quiet
  | |- halts (emit _) => quiet
  | |- halts (if ?b then _ else _) => destruct b
  | |- halts (match ?x with _ => _ end) => destruct x
  | |- halts ?m => let f := head_of m in unfold f
  end.

Lemma handler_halts req : halts (handler W req).
Proof. unfold handler. repeat halt_step. Qed.

(** X23.  A collaborator that fails ends the request.  When a call to the
    platform rejects, or the ledger refuses to load the account, to quote
    the fee or to take the transaction, that call is the last the handler
    makes, and the answer is 500 with the message of what the
    collaborator threw ([Unexpected error] when it threw no error
    object). *)
Theorem failed_call_ends_the_request req h ev t :
  In ev (calls W req h) -> failed ev = Some t ->
  response W req h = caught t /\ exists before, calls W req h = (before ++ [ev])%list.
Proof.
  unfold response, calls, serve.
  destruct (req_method req =? "OPTIONS"); cbn [fst snd]; [intros []|].
  intros Hin Hf. pose proof (handler_halts req h ev t) as H.
  destruct (handler W req h) as [o tr]. cbn [fst snd] in *.
  destruct (H Hin Hf) as [-> Hlast]. split; [reflexivity|exact Hlast].
Qed.

(** ** Requests without an action, and payouts with nothing pending *)

(** X24.  A request without an action calls nobody.  The pre-flight
    request gets its plain [ok].  Every other one gets 500 with the
    constructor's error when the session client cannot be built; once it
    is built, a body that cannot be read, or that is the JSON [null], gets
    500, and every other body without an [action] that is a string and not
    empty gets 400 with [Missing action].  Neither the session service,
    nor the platform, nor the ledger is called. *)
Theorem no_action_no_call req h :
  request_action req = None ->
  calls W req h = [] /\
  (req_method req = "OPTIONS" -> response W req h = preflight_response) /\
  (req_method req <> "OPTIONS" ->
   match createClient W (Deno_env_get W "SUPABASE_URL")
           (Deno_env_get W "SUPABASE_SERVICE_ROLE_KEY") with
   | inl t => response W req h = caught t /\ status (response W req h) = 500%Z
   | inr _ =>
       match req_json req with
       | inl t => response W req h = caught t
       | inr json =>
           if nullish json then status (response W req h) = 500%Z
           else response W req h = error_response "Missing action" 400
       end
   end).
Proof.
  unfold request_action, response, calls, serve.
  destruct (req_method req =? "OPTIONS") eqn:Hm.
  - intros _. apply String.eqb_eq in Hm. split; [reflexivity|].
    split; [reflexivity|contradiction].
  - apply String.eqb_neq in Hm. unfold handler.
    destruct (createClient W _ _) as [t|[]]; cbn [lift].
    { intros _. rewrite bind_throw. cbn [fst snd respond].
      split; [reflexivity|]. split; [contradiction|].
      intros _. split; [reflexivity|apply caught_status]. }
    rewrite bind_ret.
    destruct (req_json req) as [t|json]; cbn [lift].
    + intros _. rewrite bind_throw. split; [reflexivity|]. split; [contradiction|reflexivity].
    + rewrite bind_ret. destruct (nullish json) eqn:Hn.
      * intros _. rewrite bind_throw. split; [reflexivity|]. split; [contradiction|reflexivity].
      * rewrite bind_ret. destruct (not_a_name (field json "action")); [|discriminate].
        intros _. split; [reflexivity|]. split; [contradiction|reflexivity].
Qed.


(** ** The sign-in page and the gateway *)

Lemma auth_verify_success accessToken h :
  status (respond (fst (auth_verify W accessToken h))) = 200%Z ->
  exists uid username,
    uid <> "" /\ (username = JNull \/ exists name, username = JStr name) /\
    respond (fst (auth_verify W accessToken h)) = verified_response (JStr uid) username.
Proof.
  unfold auth_verify. destruct (not_a_name accessToken); [discriminate|].
  rewrite do_fetch_run. destruct (fetch W h _) as [st text|t]; cbn [fst].
  2:{ cbn [respond]. rewrite caught_status. discriminate. }
  cbn iota zeta beta. destruct (ok st); cbn [negb]; [|discriminate].
  unfold prop. destruct (nullish (parseJson W text)); cbn [lift].
  { rewrite bind_throw. cbn [throw fst respond]. rewrite caught_status. discriminate. }
  rewrite !bind_ret. cbn beta.
  destruct (field (parseJson W text) "uid") as [| | | |uid| |]; cbn [typeof];
    try (cbn; discriminate).
  change ("string" =? "string") with true. cbn iota. cbn [truthy].
  destruct (uid =? "") eqn:E; cbn [negb]; [discriminate|]. intros _.
  exists uid. eexists. split; [now apply String.eqb_neq|]. split; [|reflexivity].
  destruct (typeof (field (parseJson W text) "username") =? "string") eqn:Et; [|now left].
  right. destruct (field (parseJson W text) "username"); try discriminate. eauto.
Qed.

(** X26.  The sign-in page accepts every verification the gateway grants.
    Whenever the gateway answers an [auth_verify] request with status 200,
    the page's check of the parsed body passes, whatever the browser, and
    yields the uid the gateway reported, which is not empty, with the
    username the gateway reported, or the empty string when it reported
    none; the page's fallback error is never raised on a 200. *)
Theorem page_accepts_the_gateway_verification req h :
  request_action req = Some "auth_verify" ->
  status (response W req h) = 200%Z ->
  exists uid username,
    uid <> "" /\
    response W req h = verified_response (JStr uid) username /\
    forall browser,
      PiAuthPage.verifyPayload browser (response_json (response W req h))
      = inr (uid, str_of username).
Proof.
  intros Ha. assert (status (response W req h) = 200%Z -> client_built W = true) as Hc.
  { destruct (request_action_inv _ _ Ha) as (Hm & _).
    unfold response, serve, handler, client_built. rewrite Hm. fold (client W).
    destruct (client W) as [t|[]]; [|reflexivity]. cbn [lift]. rewrite bind_throw.
    cbn [throw fst respond]. rewrite caught_status. discriminate. }
  intros Hst. specialize (Hc Hst). revert Hst.
  unfold response. rewrite (handler_auth_verify _ _ Hc Ha). cbn [fst].
  intros Hst. destruct (auth_verify_success _ _ Hst) as (uid & username & Hne & Hu & ->).
  exists uid, username. split; [exact Hne|]. split; [reflexivity|].
  intros browser. unfold PiAuthPage.verifyPayload, response_json, verified_response.
  cbn [body jsonResponse opt_prop nullish field assoc].
  change ("success" =? "success") with true. change ("data" =? "success") with false.
  change ("data" =? "data") with true. cbn iota. cbn [field assoc nullish truthy].
  change ("uid" =? "uid") with true. change ("username" =? "uid") with false.
  change ("username" =? "username") with true. cbn iota. cbn [truthy negb orb].
  cbn [opt_prop nullish field assoc]. change ("uid" =? "uid") with true. cbn iota.
  cbn [truthy]. apply String.eqb_neq in Hne. rewrite Hne. cbn [negb String_].
  destruct Hu as [->|(name & ->)]; [reflexivity|].
  unfold or_else. cbn [truthy str_of]. destruct (name =? "") eqn:E; cbn [negb String_].
  - apply String.eqb_eq in E. now subst.
  - reflexivity.
Qed.

End More.

(** ** The usernames of the sign-in page *)

Section Names.

Import PiAuthPage.

Variable String_trim : jsstring -> jsstring.
Variable String_toLowerCase : jsstring -> jsstring.
Variable profiles : list jsstring -> jsstring -> jsstring -> Lookup.

Lemma clean_firstn n s : forallb name_unit s = true -> forallb name_unit (firstn n s) = true.
Proof.
  revert s. induction n as [|n IH]; intros [|c s]; cbn; auto.
  intros H. apply andb_prop in H as [-> H]. now apply IH.
Qed.

Lemma clean_app s1 s2 :
  forallb name_unit s1 = true -> forallb name_unit s2 = true ->
  forallb name_unit (s1 ++ s2)%list = true.
Proof. intros H1 H2. now rewrite forallb_app, H1, H2. Qed.

Lemma clean_filter s : forallb name_unit (filter name_unit s) = true.
Proof.
  rewrite forallb_forall. intros c Hin. now apply filter_In in Hin.
Qed.

(** X27.  A normalised username is clean: whatever the text and the
    browser's [trim] and [toLowerCase], [normalizeUsername] returns at
    most twenty code units, each of them a lower-case letter, a digit or
    an underscore. *)
Theorem normalized_name_is_clean value :
  (length (normalizeUsername String_trim String_toLowerCase value) <= 20)%nat /\ forallb name_unit (normalizeUsername String_trim String_toLowerCase value) = true.
Proof.
  unfold normalizeUsername. split.
  - rewrite length_firstn. lia.
  - apply clean_firstn, clean_filter.
Qed.

Lemma minBase_well_formed baseValue userId :
  forallb name_unit (without_dashes userId) = true ->
  well_formed_name (minBase String_trim String_toLowerCase baseValue userId).
Proof.
  intros Hid. unfold minBase, safeBase.
  destruct (normalized_name_is_clean baseValue) as [Hlen Hclean].
  destruct (normalizeUsername String_trim String_toLowerCase baseValue) as [|c rest] eqn:E.
  - assert ((length (units "pi_" ++ firstn 12 (without_dashes userId)) <? 3)%nat = false) as ->.
    { apply Nat.ltb_ge. rewrite length_app. cbn. lia. }
    split.
    + rewrite length_app, length_firstn. cbn [units length map list_ascii_of_string]. lia.
    + apply clean_app; [reflexivity|now apply clean_firstn].
  - destruct (length (c :: rest) <? 3)%nat eqn:El.
    + apply Nat.ltb_lt in El. split.
      * rewrite length_app, repeat_length. lia.
      * apply clean_app; [exact Hclean|]. rewrite forallb_forall. intros x Hx.
        apply repeat_spec in Hx. now subst.
    + apply Nat.ltb_ge in El. split; [lia|exact Hclean].
Qed.

Lemma candidate_well_formed base index :
  (index < 6)%nat -> well_formed_name base -> well_formed_name (candidate base index).
Proof.
  intros Hi [Hlen Hclean]. unfold candidate.
  do 6 (destruct index as [|index]; [
    match goal with |- context [suffix ?i] =>
      let sfx := eval vm_compute in (suffix i) in change (suffix i) with sfx end;
    split; [rewrite length_app, length_firstn; cbn [length]; lia
           |apply clean_app; [now apply clean_firstn|reflexivity]] |]).
  lia.
Qed.

Lemma lastResort_well_formed base userId :
  forallb name_unit (without_dashes userId) = true ->
  well_formed_name base -> well_formed_name (lastResort base userId).
Proof.
  intros Hid [Hlen Hclean]. unfold lastResort. split.
  - rewrite !length_app, !length_firstn. cbn [units length map list_ascii_of_string]. lia.
  - apply clean_app; [now apply clean_firstn|].
    apply clean_app; [reflexivity|now apply clean_firstn].
Qed.

Lemma search_well_formed base userId rounds :
  forallb name_unit (without_dashes userId) = true -> well_formed_name base ->
  forall index asked, (index + rounds <= 6)%nat ->
    well_formed_name (fst (search profiles base userId rounds index asked)).
Proof.
  intros Hid Hb. induction rounds as [|rounds IH]; intros index asked Hi; cbn [search].
  - now apply lastResort_well_formed.
  - destruct (profiles asked (candidate base index) userId); cbn [fst].
    + now apply lastResort_well_formed.
    + apply IH. lia.
    + apply candidate_well_formed; [lia|exact Hb].
Qed.

(** X28.  The username the page resolves always has the format the page
    itself demands.  For every text to start from and every state of the
    [profiles] table, when the user id consists, dashes aside, of
    lower-case letters, digits and underscores (a lower-case UUID does),
    the name has three to twenty code units, all of them lower-case
    letters, digits or underscores. *)
Theorem resolved_name_is_well_formed baseValue userId :
  forallb name_unit (without_dashes userId) = true ->
  well_formed_name
    (fst (resolveUniqueUsername String_trim String_toLowerCase profiles baseValue userId)).
Proof.
  intros Hid. unfold resolveUniqueUsername.
  apply search_well_formed; [exact Hid|now apply minBase_well_formed|lia].
Qed.



End Names.

(** ** The further scenarios, run *)

Import Cases.

(** X2 at a [get] of payment [P1]. *)
Lemma response_contract_witness :
  shaped (response settled get_P1 []) /\
  (status (response settled get_P1 []) = 200%Z <->
   response_field (response settled get_P1 []) "success" = JBool true) /\
  (status (response settled get_P1 []) <> 200%Z <->
   exists message, response_field (response settled get_P1 []) "error" = JStr message).
Proof. apply (response_contract settled get_P1 []). reflexivity. Defined.

(** X3 at a [get] of payment [P1]. *)
Lemma platform_calls_carry_the_key_witness :
  Forall (keyed "key-1" (request_field get_P1 "paymentId") (request_field get_P1 "adId"))
    (calls settled get_P1 []).
Proof.
  apply (platform_calls_carry_the_key settled get_P1 [] "get" "key-1").
  - reflexivity.
  - discriminate.
  - reflexivity.
Defined.

(** X4 at a plain [complete] of a payment that is not settled. *)
Lemma ledger_is_for_a2u_complete_only_witness :
  Forall off_ledger (calls unsettled complete_P1 []).
Proof.
  apply (ledger_is_for_a2u_complete_only unsettled complete_P1 [] "complete").
  - reflexivity.
  - discriminate.
Defined.

(** X6 at a request without a session, in a world without the key. *)
Lemma auth_verify_needs_no_session_witness :
  calls identity verify [] = [EvFetch (meRequest "tok-1") (fetch identity [] (meRequest "tok-1"))] /\
  (status (response identity verify []) = 200%Z <->
   exists st text uid,
     fetch identity [] (meRequest "tok-1") = Responded st text /\ ok st = true /\
     field (parseJson identity text) "uid" = JStr uid /\ uid <> "") /\
  (forall st text uid,
     fetch identity [] (meRequest "tok-1") = Responded st text -> ok st = true ->
     field (parseJson identity text) "uid" = JStr uid -> uid <> "" ->
     response identity verify []
     = verified_response (JStr uid)
         (string_or_null (field (parseJson identity text) "username"))).
Proof.
  apply (auth_verify_needs_no_session identity verify [] "tok-1").
  - reflexivity.
  - reflexivity.
  - reflexivity.
  - discriminate.
Defined.

(** The same request when the session client cannot be built: it is
    answered 500, and the platform is not asked. *)
Example sign_in_needs_the_client :
  response sign_in_unbuilt verify []
  = jsonResponse (JObj [("error", JStr "supabaseUrl is required.")]) 500 /\
  calls sign_in_unbuilt verify [] = [].
Proof. split; reflexivity. Qed.


(** X8 at an unknown action that names no payment. *)
Lemma missing_argument_is_refused_witness :
  response settled refund_nothing [] = error_response ("Missing " ++ "paymentId") 400 /\
  Forall (fun ev => is_upstream ev = false) (calls settled refund_nothing []).
Proof.
  apply (missing_argument_is_refused settled refund_nothing [] "refund" "key-1" "paymentId").
  - reflexivity.
  - reflexivity.
  - reflexivity.
  - right. split; reflexivity.
Defined.

(** X9 at an unknown action on payment [P1]. *)
Lemma unknown_action_is_refused_witness :
  response settled refund_P1 [] = error_response "Invalid action" 400 /\
  calls settled refund_P1 [] = [session_event settled refund_P1 []].
Proof.
  apply (unknown_action_is_refused settled refund_P1 [] "refund" "key-1"); reflexivity.
Defined.

(** X10 at a [get] in a world without the key. *)
Lemma missing_key_stops_every_action_witness :
  response keyless get_P1 [] = error_response "PI_API_KEY is not configured" 500 /\
  calls keyless get_P1 [] = [session_event keyless get_P1 []].
Proof.
  apply (missing_key_stops_every_action keyless get_P1 [] "get").
  - reflexivity.
  - discriminate.
  - reflexivity.
  - reflexivity.
Defined.

(** X11 in a world where all is configured but the validation key. *)
Lemma config_status_reports_flags_only_witness :
  calls settled config_check [] = [session_event settled config_check []] /\
  (status (response settled config_check []) = 200%Z <-> api_key settled <> None) /\
  (api_key settled <> None ->
   response settled config_check [] = created_response (config_flags settled)).
Proof. apply (config_status_reports_flags_only settled config_check []); reflexivity. Defined.

(** X12 at an ad the mediator granted. *)
Lemma ad_reward_follows_the_mediator_witness :
  let out := fetch ads (session_event ads ad_check [] :: []) (adRequest "key-1" "ad-1") in
  calls ads ad_check [] = [session_event ads ad_check []; EvFetch (adRequest "key-1" "ad-1") out] /\
  (forall st text, out = Responded st text -> ok st = true ->
     nullish (parseJson ads text) = false ->
     response ads ad_check []
     = ad_response (is_str (field (parseJson ads text) "mediator_ack_status") "granted")
         (parseJson ads text) /\
     (response_field (response ads ad_check []) "rewarded" = JBool true <->
      field (parseJson ads text) "mediator_ack_status" = JStr "granted")) /\
  (forall st text, out = Responded st text -> ok st = false ->
     response ads ad_check []
     = upstream_failure "Pi ad verification failed" st (parseJson ads text)).
Proof.
  apply (ad_reward_follows_the_mediator ads ad_check [] "key-1" "ad-1").
  - reflexivity.
  - reflexivity.
  - reflexivity.
  - reflexivity.
  - discriminate.
Defined.

(** X13 at a platform that lists one payment. *)
Lemma incomplete_listing_is_handed_on_witness :
  let out := fetch own_pending (session_event own_pending list_pending [] :: [])
               (incompleteRequest "key-1") in
  calls own_pending list_pending []
  = [session_event own_pending list_pending []; EvFetch (incompleteRequest "key-1") out] /\
  (forall st text, out = Responded st text ->
     response own_pending list_pending []
     = if ok st then created_response (parseJson own_pending text)
       else upstream_failure "Pi incomplete payments fetch failed" st
              (parseJson own_pending text)) /\
  (forall t, out = Rejected t -> response own_pending list_pending [] = caught t).
Proof.
  apply (incomplete_listing_is_handed_on own_pending list_pending [] "key-1"); reflexivity.
Defined.

(** X14 at a plain [complete] of a payment that is not settled. *)
Lemma plain_complete_sends_no_body_witness :
  calls unsettled complete_P1 []
  = [session_event unsettled complete_P1 [];
     EvFetch (completeRequest "key-1" "P1" None)
       (fetch unsettled (session_event unsettled complete_P1 [] :: [])
          (completeRequest "key-1" "P1" None))].
Proof.
  apply (plain_complete_sends_no_body unsettled complete_P1 [] "complete" "key-1" "P1").
  - reflexivity.
  - left. reflexivity.
  - reflexivity.
  - reflexivity.
  - reflexivity.
  - discriminate.
  - reflexivity.
Defined.

(** X15 at a payment from a user to the app. *)
Lemma other_directions_complete_without_settlement_witness :
  let fetched := EvFetch (recordRequest "key-1" "P1")
                   (Responded 200 (Runtime.json_text incoming_record)) in
  calls incoming settle_P1 []
  = [session_event incoming settle_P1 []; fetched;
     EvFetch (completeRequest "key-1" "P1" None)
       (fetch incoming (fetched :: session_event incoming settle_P1 [] :: [])
          (completeRequest "key-1" "P1" None))].
Proof.
  apply (other_directions_complete_without_settlement incoming settle_P1 [] "key-1" "P1" 200%Z
           (Runtime.json_text incoming_record) "user_to_app").
  - reflexivity.
  - reflexivity.
  - reflexivity.
  - reflexivity.
  - discriminate.
  - reflexivity.
  - reflexivity.
  - reflexivity.
  - reflexivity.
  - reflexivity.
  - discriminate.
Defined.

(** X16 in a world without the wallet seed. *)
Lemma settlement_needs_the_seed_witness :
  response seedless settle_P1 [] = seed_missing_response /\
  calls seedless settle_P1 []
  = [session_event seedless settle_P1 [];
     EvFetch (recordRequest "key-1" "P1") (Responded 200 (Runtime.json_text unsettled_record))].
Proof.
  apply (settlement_needs_the_seed seedless settle_P1 [] "key-1" "P1" 200%Z
           (Runtime.json_text unsettled_record)).
  - reflexivity.
  - reflexivity.
  - reflexivity.
  - reflexivity.
  - discriminate.
  - reflexivity.
  - reflexivity.
  - reflexivity.
  - reflexivity.
  - reflexivity.
  - reflexivity.
Defined.

(** X17 at a platform that does not know payment [P1]. *)
Lemma unreadable_record_is_not_completed_witness :
  let text := Runtime.json_text "{'error':'not found'}" in
  calls own_pending settle_P1 []
  = [session_event own_pending settle_P1 [];
     EvFetch (recordRequest "key-1" "P1") (Responded 404 text)] /\
  (nullish (parseJson own_pending text) = false ->
   response own_pending settle_P1 []
   = upstream_failure
       (spec_errorMessage (parseJson own_pending text) (payment_failure_label own_pending 404))
       404 (parseJson own_pending text)) /\
  (nullish (parseJson own_pending text) = true ->
   status (response own_pending settle_P1 []) = 500%Z).
Proof.
  apply (unreadable_record_is_not_completed own_pending settle_P1 [] "key-1" "P1" 404%Z
           (Runtime.json_text "{'error':'not found'}")).
  - reflexivity.
  - reflexivity.
  - reflexivity.
  - reflexivity.
  - discriminate.
  - reflexivity.
  - reflexivity.
  - reflexivity.
Defined.

(** X18 at a payment the ledger accepts. *)
Lemma settlement_is_followed_by_completion_witness :
  let completion :=
    {| fr_url := "https://api.minepi.com/v2/payments/" ++ "P1" ++ "/complete";
       fr_method := "POST";
       fr_headers := [("Content-Type", "application/json");
                      ("Authorization", "Key " ++ "key-1")];
       fr_body := Some (JObj [("txid", JStr "ledger-hash-1")]) |} in
  exists out,
    calls unsettled settle_P1 []
    = (session_event unsettled settle_P1 [] :: fetched_P1
       :: settlement_steps unsettled (parseJson unsettled (Runtime.json_text unsettled_record))
            "GWALLET" wallet_account (num_of_Z 100000)
            (inr (JObj [("hash", JStr "ledger-hash-1")]))
       ++ [EvFetch completion out])%list.
Proof.
  apply (settlement_is_followed_by_completion unsettled settle_P1 [] "key-1" "P1" 200%Z
           (Runtime.json_text unsettled_record) "ledger-hash-1").
  - reflexivity.
  - reflexivity.
  - reflexivity.
  - reflexivity.
  - discriminate.
  - reflexivity.
  - reflexivity.
  - reflexivity.
  - reflexivity.
  - reflexivity.
  - discriminate.
  - reflexivity.
Defined.

(** X20 at a record without identifier. *)
Lemma field_checks_precede_the_wallet_witness :
  (exists t, forall seed expected h,
     submitA2UTx settled record_without_identifier seed expected h = (Throw t, [])) /\
  (readable settled record_without_identifier = true ->
   string_or_empty settled (field record_without_identifier "identifier") = inr "" ->
   forall seed expected h,
     submitA2UTx settled record_without_identifier seed expected h
     = (Throw (JsError "Missing payment identifier for blockchain submission"), [])).
Proof. apply (field_checks_precede_the_wallet settled record_without_identifier). reflexivity. Defined.

(** The fields are converted before any of them is checked: on a record
    without identifier whose network has no primitive value, the
    conversion's error is what is thrown. *)
Example conversions_precede_the_field_checks :
  readable settled odd_network_record = false /\
  string_or_empty settled (field odd_network_record "identifier") = inr "" /\
  submitA2UTx settled odd_network_record "SWALLET" (Some "GWALLET") []
  = (Throw (JsError "Cannot convert object to primitive value"), []).
Proof. repeat split. Qed.

(** X21 at a record the ledger accepts. *)
Lemma settlement_returns_the_ledger_txid_witness :
  exists signer account baseFee submitted,
    Keypair_fromSecret settled "SWALLET" = inr signer /\
    settleable settled record_to_settle = true /\
    source_address settled record_to_settle = inr signer /\
    (expected_address (Some "GWALLET") = "" \/ signer = expected_address (Some "GWALLET")) /\
    settlement_steps settled record_to_settle "GWALLET" wallet_account (num_of_Z 100000)
      (inr (JObj [("hash", JStr "ledger-hash-1")]))
    = settlement_steps settled record_to_settle signer account baseFee (inr submitted) /\
    ledger_txid settled submitted = inr "ledger-hash-1" /\ "ledger-hash-1" <> "".
Proof.
  apply (settlement_returns_the_ledger_txid settled record_to_settle "SWALLET" (Some "GWALLET") []
           "ledger-hash-1"
           (settlement_steps settled record_to_settle "GWALLET" wallet_account (num_of_Z 100000)
              (inr (JObj [("hash", JStr "ledger-hash-1")])))).
  reflexivity.
Defined.

(** X22 at a ledger that names no transaction. *)
Lemma unnamed_submission_fails_after_the_fact_witness :
  fst (submitA2UTx unnamed_ledger record_to_settle "SWALLET" (Some "GWALLET") [])
  = Throw (JsError "Pi blockchain submission did not return txid") /\
  exists signer before,
    snd (submitA2UTx unnamed_ledger record_to_settle "SWALLET" (Some "GWALLET") [])
    = (before ++ [EvSign (settlement unnamed_ledger record_to_settle wallet_account
                            (num_of_Z 100000)) signer;
                  EvSubmit "https://api.testnet.minepi.com"
                    (settlement unnamed_ledger record_to_settle wallet_account (num_of_Z 100000))
                    (inr (JObj [("successful", JBool true)]))])%list.
Proof.
  apply (unnamed_submission_fails_after_the_fact unnamed_ledger record_to_settle "SWALLET"
           (Some "GWALLET") [] "https://api.testnet.minepi.com"
           (settlement unnamed_ledger record_to_settle wallet_account (num_of_Z 100000))
           (JObj [("successful", JBool true)])).
  - do 4 right. left. reflexivity.
  - reflexivity.
  - reflexivity.
Defined.

(** X23 at a platform that cannot be reached. *)
Lemma failed_call_ends_the_request_witness :
  response offline get_P1 [] = caught unreachable /\
  exists before,
    calls offline get_P1 []
    = (before ++ [EvFetch (paymentRequest "key-1" payment_url "GET" None)
                    (Rejected unreachable)])%list.
Proof.
  apply (failed_call_ends_the_request offline get_P1 []
           (EvFetch (paymentRequest "key-1" payment_url "GET" None) (Rejected unreachable))
           unreachable).
  - right. left. reflexivity.
  - reflexivity.
Defined.

(** X24 at a body without an action. *)
Lemma no_action_no_call_witness :
  calls settled empty_body [] = [] /\
  (req_method empty_body = "OPTIONS" -> response settled empty_body [] = preflight_response) /\
  (req_method empty_body <> "OPTIONS" ->
   match createClient settled (Deno_env_get settled "SUPABASE_URL")
           (Deno_env_get settled "SUPABASE_SERVICE_ROLE_KEY") with
   | inl t => response settled empty_body [] = caught t /\
              status (response settled empty_body []) = 500%Z
   | inr _ =>
       match req_json empty_body with
       | inl t => response settled empty_body [] = caught t
       | inr json =>
           if nullish json then status (response settled empty_body []) = 500%Z
           else response settled empty_body [] = error_response "Missing action" 400
       end
   end).
Proof. apply (no_action_no_call settled empty_body []). reflexivity. Defined.

(** The same body when the session client cannot be built. *)
Example no_action_and_no_client :
  response clientless empty_body []
  = jsonResponse (JObj [("error", JStr "supabaseUrl is required.")]) 500 /\
  calls clientless empty_body [] = [].
Proof. split; reflexivity. Qed.


(** X26 at a token the platform knows. *)
Lemma page_accepts_the_gateway_verification_witness :
  exists uid username,
    uid <> "" /\
    response identity verify [] = verified_response (JStr uid) username /\
    forall browser,
      PiAuthPage.verifyPayload browser (response_json (response identity verify []))
      = inr (uid, str_of username).
Proof. apply (page_accepts_the_gateway_verification identity verify []); reflexivity. Defined.

(** X28 at a name whose first two candidates are taken. *)
Lemma resolved_name_is_well_formed_witness :
  well_formed_name
    (fst (PiAuthPage.resolveUniqueUsername unchanged unchanged two_taken
            (PiAuthPage.units "@alice!") (PiAuthPage.units "0b5e-11aa-77c2"))).
Proof.
  apply (resolved_name_is_well_formed unchanged unchanged two_taken
           (PiAuthPage.units "@alice!") (PiAuthPage.units "0b5e-11aa-77c2")).
  reflexivity.
Defined.

(** The name the page resolves in that scenario is [alice_2], after three
    lookups. *)
Example third_candidate_is_taken :
  PiAuthPage.resolveUniqueUsername unchanged unchanged two_taken
    (PiAuthPage.units "@alice!") (PiAuthPage.units "0b5e-11aa-77c2")
  = (PiAuthPage.units "alice_2",
     [PiAuthPage.units "alice_2"; PiAuthPage.units "alice_1"; PiAuthPage.units "alice"]).
Proof. reflexivity. Qed.

(** The last resort is not looked up: with every candidate taken, the
    name resolved for the base [ab] and the user id [1] is [abx_1], the
    second candidate, which the table reported taken. *)
Example last_resort_can_be_taken :
  PiAuthPage.resolveUniqueUsername unchanged unchanged all_taken
    (PiAuthPage.units "ab") (PiAuthPage.units "1")
  = (PiAuthPage.units "abx_1",
     [PiAuthPage.units "abx_5"; PiAuthPage.units "abx_4"; PiAuthPage.units "abx_3";
      PiAuthPage.units "abx_2"; PiAuthPage.units "abx_1"; PiAuthPage.units "abx"]).
Proof. reflexivity. Qed.

(** A record whose source address ends in a no-break space is settled
    from the wallet of that address: the space is trimmed before the
    comparison. *)
Example source_address_is_trimmed :
  source_address spaced (parseJson spaced (Runtime.json_text spaced_record)) = inr "GWALLET" /\
  map event_name (calls spaced settle_P1 [])
  = ["getUser"; "GET https://api.minepi.com/v2/payments/P1";
     "loadAccount"; "fetchBaseFee"; "build"; "sign"; "submitTransaction: accepted";
     "POST https://api.minepi.com/v2/payments/P1/complete"].
Proof. split; reflexivity. Qed.

(** The payment id is pasted into the address as it is sent: nothing is
    encoded, and dots and slashes are handed on. *)
Example payment_id_is_not_encoded :
  map event_name
    (calls settled
       (post bearer (JObj [("action", JStr "get"); ("paymentId", JStr "../../me")])) [])
  = ["getUser"; "GET https://api.minepi.com/v2/payments/../../me"].
Proof. reflexivity. Qed.
